(** * Distributed log aggregator: ingestion, deduplicating consumers, queries

    A shallow embedding of [aggregator/src/main.py].  The aggregator accepts
    events over HTTP, pushes them on a Redis list, and five asyncio workers
    pop them and insert them in a PostgreSQL table whose unique constraint on
    (topic, event_id) makes the insert idempotent.

    The broker list, the table, the statistics dictionary and the local state
    of the suspended coroutines form one explicit system state.  Every
    transition is the code that runs between two suspension points
    ([await]) of one coroutine, so a schedule is a list of labels. *)

From Stdlib Require Import ZArith Lia Ascii String DecimalString.
From stdpp Require Import base option list strings sorting.

#[local] Set Warnings "-register-all".
#[local] Open Scope Z_scope.

(** ** JSON values

    Request bodies, queue messages and the [payload] column are JSON
    documents.  The text on the wire is identified with the value it
    denotes: [model_dump_json] followed by [json.loads] is the value
    itself. *)

Inductive json : Type :=
| JNull
| JBool (b : bool)
| JNum (n : Z)
| JStr (s : string)
| JArr (items : list json)
| JObj (members : list (string * json)).

(** [d[k]] on the members of a Python dict; [None] stands for KeyError. *)
Fixpoint assoc (k : string) (members : list (string * json)) : option json :=
  match members with
  | [] => None
  | (k', v) :: rest => if String.eqb k k' then Some v else assoc k rest
  end.

(** [event_data[k]]: subscripting anything but a dict raises as well. *)
Definition getitem (d : json) (k : string) : option json :=
  match d with
  | JObj members => assoc k members
  | _ => None
  end.

Definition as_str (j : json) : option string :=
  match j with JStr s => Some s | _ => None end.

Definition as_dict (j : json) : option (list (string * json)) :=
  match j with JObj m => Some m | _ => None end.

(** A string, or [None] for JSON null. *)
Definition as_text_or_null (j : json) : option (option string) :=
  match j with
  | JStr s => Some (Some s)
  | JNull => Some None
  | _ => None
  end.

(** ** Event model: [class LogEvent(BaseModel)] *)

Record LogEvent : Type := mkLogEvent {
  topic : string;
  event_id : string;
  timestamp : string;
  source : string;
  payload : list (string * json)
}.

(** Pydantic validation of one JSON object against [LogEvent]: the five
    fields are required, the first four must be JSON strings (no coercion
    from numbers) and [payload] a JSON object; other members are ignored. *)
Definition LogEvent_validate (body : json) : option LogEvent :=
  t ← getitem body "topic" ≫= as_str;
  i ← getitem body "event_id" ≫= as_str;
  ts ← getitem body "timestamp" ≫= as_str;
  src ← getitem body "source" ≫= as_str;
  p ← getitem body "payload" ≫= as_dict;
  Some (mkLogEvent t i ts src p).

(** [e.model_dump_json()]: the five fields in declaration order. *)
Definition model_dump_json (e : LogEvent) : json :=
  JObj [("topic", JStr (topic e));
        ("event_id", JStr (event_id e));
        ("timestamp", JStr (timestamp e));
        ("source", JStr (source e));
        ("payload", JObj (payload e))].

(** The parameter of [publish_event]: [Union[LogEvent, List[LogEvent]]]. *)
Inductive body : Type :=
| Single (e : LogEvent)
| Batch (es : list LogEvent).

Definition validate_body (j : json) : option body :=
  match j with
  | JObj _ => Single <$> LogEvent_validate j
  | JArr items => Batch <$> mapM LogEvent_validate items
  | _ => None
  end.

(** [event if isinstance(event, list) else [event]] *)
Definition events_to_process (event : body) : list LogEvent :=
  match event with
  | Single e => [e]
  | Batch es => es
  end.

(** ** Naive date-times

    The value of [datetime.fromisoformat(s).replace(tzinfo=None)]: the
    calendar fields as written, the offset dropped. *)

Record datetime : Type := mkDatetime {
  dt_year : Z; dt_month : Z; dt_day : Z;
  dt_hour : Z; dt_minute : Z; dt_second : Z; dt_microsecond : Z
}.

(** The position of a date-time in the order PostgreSQL sorts TIMESTAMP
    values by; on fields in their calendar ranges it is the lexicographic
    order of the seven fields. *)
Definition dt_ord (d : datetime) : Z :=
  (((((dt_year d * 13 + dt_month d) * 32 + dt_day d) * 24 + dt_hour d) * 60
     + dt_minute d) * 60 + dt_second d) * 1000000 + dt_microsecond d.

(** ** The durable store: table [events]

    The five columns the INSERT statement fills.  The storage-assigned
    columns [id] and [received_at] are read by no query of the program and
    are left out.  [source] is the one text column declared without
    [NOT NULL]. *)

Record Row : Type := mkRow {
  row_topic : string;
  row_event_id : string;
  row_timestamp : datetime;
  row_source : option string;
  row_payload : json
}.

Definition Key : Type := (string * string)%type.

Definition row_key (r : Row) : Key := (row_topic r, row_event_id r).

(** The arbiter of [ON CONFLICT (topic, event_id)]. *)
Definition same_key (k : Key) (r : Row) : bool := bool_decide (row_key r = k).

(** What the columns take.  A character of a text is an [ascii].

    A text value holds no NUL character: the server refuses it. *)
Fixpoint has_nul (s : string) : bool :=
  match s with
  | EmptyString => false
  | String c rest => Ascii.eqb c "000" || has_nul rest
  end.

Fixpoint all_spaces (s : string) : bool :=
  match s with
  | EmptyString => true
  | String c rest => Ascii.eqb c " " && all_spaces rest
  end.

(** Assigning a text to a [VARCHAR(n)] column: a text of at most [n]
    characters is stored as it is; a longer one raises "value too long for
    type character varying(n)", unless the characters beyond the [n]-th are
    all spaces, which are then cut off. *)
Fixpoint fit (n : nat) (s : string) {struct s} : option string :=
  match s, n with
  | EmptyString, _ => Some EmptyString
  | String c rest, S n' => String c <$> fit n' rest
  | String _ _, O => if all_spaces s then Some EmptyString else None
  end.

Definition varchar (n : nat) (s : string) : option string :=
  if has_nul s then None else fit n s.

(** A [JSONB] value: the strings and member names of the document hold no
    NUL character (written [\u0000] by [json.dumps], which the server
    refuses to convert). *)
Fixpoint jsonb_ok (j : json) : bool :=
  match j with
  | JNull | JBool _ | JNum _ => true
  | JStr s => negb (has_nul s)
  | JArr items => forallb jsonb_ok items
  | JObj members =>
      forallb (λ m : string * json, negb (has_nul (fst m)) && jsonb_ok (snd m))
              members
  end.

(** The values of the five parameters as the columns store them; [None]
    when the server raises for one of them. *)
Definition columns (r : Row) : option Row :=
  t ← varchar 255 (row_topic r);
  i ← varchar 255 (row_event_id r);
  src ← match row_source r with
         | None => Some None
         | Some v => Some <$> varchar 255 v
         end;
  p ← (if jsonb_ok (row_payload r) then Some (row_payload r) else None);
  Some (mkRow t i (row_timestamp r) src p).

(** [ON CONFLICT (topic, event_id) DO NOTHING]: the row is added at the end
    unless a row of its pair exists; the command tag tells which. *)
Definition on_conflict_do_nothing (r : Row) (tbl : list Row)
  : list Row * string :=
  if existsb (same_key (row_key r)) tbl
  then (tbl, "INSERT 0 0")
  else (tbl ++ [r], "INSERT 0 1").

(** [INSERT INTO events (topic, event_id, timestamp, source, payload)
    VALUES ($1, $2, $3, $4, $5) ON CONFLICT (topic, event_id) DO NOTHING]
    with the five parameters [r], and the command tag asyncpg returns for
    it; [None] when the statement raises for a value a column does not
    take.  The conflict is decided on the values as stored. *)
Definition insert_on_conflict_do_nothing (r : Row) (tbl : list Row)
  : option (list Row * string) :=
  r' ← columns r;
  Some (on_conflict_do_nothing r' tbl).

(** ** In-memory statistics: the dictionary [stats] *)

Record Stats : Type := mkStats {
  received : Z;
  processed_success : Z;
  duplicates_dropped : Z
}.

(** ** Coroutines and the system state *)

(** Where a [start_consumer] task is suspended. *)
Inductive worker : Type :=
| Waiting
    (* in [await redis_client.blpop("event_queue", timeout=5)] *)
| Decoded (event_data : json)
    (* a message was delivered and decoded; the INSERT is not yet executed *)
| Executed (event_data : json) (result : string).
    (* the server executed the INSERT; the task has not resumed yet *)

(** The three log lines of the inner [try] block.  The source prints the
    event_id only; the record keeps the whole message it was written for. *)
Inductive log_record : Type :=
| Processed (event_data : json)
| DuplicateDropped (event_data : json)
| DbError (event_data : json).

Record System : Type := mkSystem {
  event_queue : list json;     (* the Redis list "event_queue", head first *)
  events : list Row;           (* the table *)
  stats : Stats;
  requests : list (list LogEvent);
    (* [publish_event] calls suspended in [await pipe.execute()] whose
       pipeline the broker has applied: their [events_to_process] *)
  consumers : list worker;     (* the tasks created by [lifespan] *)
  log : list log_record
}.

(** What happens to a pipeline sent to the broker: it is applied and the
    reply arrives; the broker is not reached; or it is applied and the reply
    does not arrive (the connection breaks or the call times out after
    EXEC).  In the last two cases [error] is the text of the exception. *)
Inductive broker : Type :=
| Up
| Down (error : string)
| ReplyLost (error : string).

(** [pipe.execute()] on a pipeline of RPUSH commands: one MULTI/EXEC block,
    applied as a whole or not at all.  The list afterwards, and the
    exception the call raises, if any.  An empty pipeline returns at once
    without contacting the broker. *)
Definition pipe_execute (b : broker) (commands : list json) (q : list json)
  : list json * option string :=
  match commands, b with
  | [], _ => (q, None)
  | _ :: _, Up => (q ++ commands, None)
  | _ :: _, Down error => (q, Some error)
  | _ :: _, ReplyLost error => (q ++ commands, Some error)
  end.

(** An HTTP response: status code and JSON content. *)
Inductive response : Type :=
| Response (status_code : Z) (content : json).

(** The state a process starts in: counters at zero, five consumers waiting,
    no request in flight, the broker list empty; the table is the one found
    at start-up ([CREATE TABLE IF NOT EXISTS]). *)
Definition boot (tbl : list Row) : System :=
  mkSystem [] tbl (mkStats 0 0 0) [] (replicate 5 Waiting) [].

(** A process started while the broker still holds messages [q] of an
    earlier run: the list outlives the process, the counters do not. *)
Definition restart (tbl : list Row) (q : list json) : System :=
  mkSystem q tbl (mkStats 0 0 0) [] (replicate 5 Waiting) [].

(** ** Ingestion: [publish_event] *)

(** The part of the handler up to the return of [await pipe.execute()]. *)
Definition publish_enqueue (event : body) (b : broker) (q : list json)
  : list json * option string :=
  pipe_execute b (model_dump_json <$> events_to_process event) q.

(** The part after it: [stats["received"] += len(events_to_process)] and the
    returned dictionary. *)
Definition publish_count (evs : list LogEvent) (st : Stats) : Stats * response :=
  (mkStats (received st + Z.of_nat (length evs))
           (processed_success st) (duplicates_dropped st),
   Response 200 (JObj [("status", JStr "queued");
                       ("count", JNum (Z.of_nat (length evs)))])).

(** The handler run without interruption.  An exception of
    [pipe.execute()] skips the counter and is answered 500, whatever the
    broker did with the pipeline. *)
Definition publish_event (event : body) (b : broker) (s : System)
  : System * response :=
  match publish_enqueue event b (event_queue s) with
  | (q, None) =>
      let '(st, resp) := publish_count (events_to_process event) (stats s) in
      (mkSystem q (events s) st (requests s) (consumers s) (log s), resp)
  | (q, Some error) =>
      (mkSystem q (events s) (stats s) (requests s) (consumers s) (log s),
       Response 500 (JObj [("detail", JStr error)]))
  end.

(** [POST /publish]: FastAPI validates the body before the handler runs and
    answers 422 itself when validation fails. *)
Definition post_publish (request_body : json) (b : broker) (s : System)
  : System * response :=
  match validate_body request_body with
  | Some event => publish_event event b s
  | None => (s, Response 422 (JObj [("detail", JStr "validation error")]))
  end.

(** ** Consumer pool: [start_consumer] *)

Section Consumer.

(** [datetime.fromisoformat(s).replace(tzinfo=None)]; [None] is ValueError.
    The standard library's parser is a parameter of the development: the
    grammar it accepts changed between Python versions.  [isoformat_parser]
    below is the parser of CPython 3.11. *)
Variable fromisoformat : string → option datetime.

(** The arguments of the INSERT as the inner [try] block computes them from
    [event_data].  [None] stands for any exception raised before the
    statement reaches the server: KeyError on a missing member, TypeError or
    ValueError from [fromisoformat], a value asyncpg cannot encode as text
    (anything but a string; for [source] also [None], sent as NULL). *)
Definition insert_args (event_data : json) : option Row :=
  ts ← getitem event_data "timestamp" ≫= as_str;
  ts_val ← fromisoformat ts;
  t ← getitem event_data "topic" ≫= as_str;
  i ← getitem event_data "event_id" ≫= as_str;
  src ← getitem event_data "source" ≫= as_text_or_null;
  p ← getitem event_data "payload";
  Some (mkRow t i ts_val src p).

(** The transaction body up to the server's answer: the arguments, then the
    statement. *)
Definition execute_insert (event_data : json) (tbl : list Row)
  : option (list Row * string) :=
  r ← insert_args event_data;
  insert_on_conflict_do_nothing r tbl.

(** The code between the return of [conn.execute] and the end of the
    transaction block: the counter chosen by the command tag, and the log
    line. *)
Definition count_result (event_data : json) (result : string) (st : Stats)
  : Stats * log_record :=
  if String.eqb result "INSERT 0 1"
  then (mkStats (received st) (processed_success st + 1) (duplicates_dropped st),
        Processed event_data)
  else (mkStats (received st) (processed_success st) (duplicates_dropped st + 1),
        DuplicateDropped event_data).

(** A schedule names, step by step, the coroutine that runs next and what
    its environment answers. *)
Inductive label : Type :=
| PublishSend (event : body)
    (* a request's pipeline reaches the broker and is applied *)
| PublishDown (event : body) (error : string)
    (* a request finds the broker unreachable and answers 500 *)
| PublishReturn (i : nat)
    (* the i-th suspended request resumes, counts and answers 200 *)
| PublishFail (i : nat) (error : string)
    (* the reply to the i-th suspended request is lost: [pipe.execute()]
       raises, the request answers 500 and does not count *)
| Pop (w : nat)
    (* the broker delivers the head of the list to consumer w *)
| PopTimeout (w : nat)
    (* consumer w's blpop times out and the loop starts over *)
| Execute (w : nat) (storage_ok : bool)
    (* consumer w runs the transaction body up to the server's answer;
       [storage_ok = false] is a storage-layer error raised by the INSERT
       for a reason outside the statement and its values (the connection,
       the server) *)
| Resume (w : nat).
    (* consumer w resumes with the command tag, counts and commits *)

(** One transition; [None] when the label is not enabled in the state.

    The INSERT takes effect on the table when the server executes it: a
    concurrent INSERT of the same key waits for this transaction to end, so
    it sees the row exactly as if the transaction had committed at once. *)
Definition step (l : label) (s : System) : option System :=
  match l with
  | PublishSend event =>
      match publish_enqueue event Up (event_queue s) with
      | (q, None) =>
          Some (mkSystem q (events s) (stats s)
                  (requests s ++ [events_to_process event])
                  (consumers s) (log s))
      | (_, Some _) => None
      end
  | PublishDown event error =>
      match publish_enqueue event (Down error) (event_queue s) with
      | (_, None) => None
      | (_, Some _) => Some s
      end
  | PublishReturn i =>
      evs ← requests s !! i;
      Some (mkSystem (event_queue s) (events s)
              (fst (publish_count evs (stats s)))
              (delete i (requests s)) (consumers s) (log s))
  | PublishFail i error =>
      match requests s !! i with
      | Some (_ :: _) =>
          Some (mkSystem (event_queue s) (events s) (stats s)
                  (delete i (requests s)) (consumers s) (log s))
      | _ => None
          (* an empty pipeline does not contact the broker *)
      end
  | Pop w =>
      match consumers s !! w, event_queue s with
      | Some Waiting, raw :: q =>
          Some (mkSystem q (events s) (stats s) (requests s)
                  (<[w := Decoded raw]> (consumers s)) (log s))
      | _, _ => None
      end
  | PopTimeout w =>
      match consumers s !! w with
      | Some Waiting => Some s
      | _ => None
      end
  | Execute w storage_ok =>
      match consumers s !! w with
      | Some (Decoded event_data) =>
          match execute_insert event_data (events s), storage_ok with
          | Some (tbl, result), true =>
              Some (mkSystem (event_queue s) tbl (stats s) (requests s)
                      (<[w := Executed event_data result]> (consumers s))
                      (log s))
          | _, _ =>
              (* [except Exception as e: logger.error(...)]; the transaction
                 ends without a row, the loop starts over *)
              Some (mkSystem (event_queue s) (events s) (stats s) (requests s)
                      (<[w := Waiting]> (consumers s))
                      (log s ++ [DbError event_data]))
          end
      | _ => None
      end
  | Resume w =>
      match consumers s !! w with
      | Some (Executed event_data result) =>
          let '(st, line) := count_result event_data result (stats s) in
          Some (mkSystem (event_queue s) (events s) st (requests s)
                  (<[w := Waiting]> (consumers s))
                  (log s ++ [line]))
      | _ => None
      end
  end.

(** Running a schedule from a state. *)
Fixpoint run (sched : list label) (s : System) : option System :=
  match sched with
  | [] => Some s
  | l :: rest => s' ← step l s; run rest s'
  end.

(** One pass of the [while True] loop of [start_consumer] run by a consumer
    without interruption: [blpop], [json.loads], the transaction with its
    inner [try], the counter and the log line. *)
Definition start_consumer (storage_ok : bool) (s : System) : System :=
  match event_queue s with
  | [] => s
      (* [msg] is None after the timeout *)
  | raw :: q =>
      let event_data := raw in
      match execute_insert event_data (events s), storage_ok with
      | Some (tbl, result), true =>
          let '(st, line) := count_result event_data result (stats s) in
          mkSystem q tbl st (requests s) (consumers s) (log s ++ [line])
      | _, _ =>
          mkSystem q (events s) (stats s) (requests s) (consumers s)
            (log s ++ [DbError event_data])
      end
  end.

End Consumer.

(** ** Query surface: [get_events] and [get_stats] *)

(** [ORDER BY timestamp DESC]: a row may precede another when it is not
    older.  SQL leaves the order of rows with equal timestamps open; the
    model takes the one the merge sort gives. *)
Definition newer_first (r1 r2 : Row) : Prop :=
  dt_ord (row_timestamp r2) ≤ dt_ord (row_timestamp r1).

#[global] Instance newer_first_dec : RelDecision newer_first.
Proof. intros r1 r2. unfold newer_first. apply _. Defined.

(** Python's truth value of a string: false exactly on the empty one. *)
Definition truthy (s : string) : bool :=
  match s with
  | EmptyString => false
  | String _ _ => true
  end.

(** [GET /events]: the query string is built from [topic] the way the
    handler builds it, [WHERE topic = $1] only under [if topic:]. *)
Definition get_events (topic : option string) (tbl : list Row) : list Row :=
  let selected :=
    match topic with
    | Some t =>
        if truthy t then filter (λ r, row_topic r = t) tbl else tbl
    | None => tbl
    end in
  take 50 (merge_sort newer_first selected).

(** ["%d" % n] *)
Definition fmt_d (n : Z) : string :=
  DecimalString.NilZero.string_of_int (Z.to_int n).

(** ["%02d" % n] for the non-negative [n] it is used on. *)
Definition fmt_02d (n : Z) : string :=
  if n <? 10 then "0" +:+ fmt_d n else fmt_d n.

(** [str(timedelta(seconds=n))] for an integer [n]: the constructor
    normalises to days and seconds of the day (floor division), and
    [__str__] prints the seconds as [%d:%02d:%02d], preceded by the days
    when there are any. *)
Definition timedelta_str (n : Z) : string :=
  let days := n / 86400 in
  let seconds := n mod 86400 in
  let mm := seconds / 60 in
  let ss := seconds mod 60 in
  let hh := mm / 60 in
  let mm := mm mod 60 in
  let s := fmt_d hh +:+ ":" +:+ fmt_02d mm +:+ ":" +:+ fmt_02d ss in
  if days =? 0 then s
  else fmt_d days +:+ " day" +:+ (if Z.abs days =? 1 then "" else "s")
         +:+ ", " +:+ s.

(** The dictionary [get_stats] returns.  [uptime_seconds] is
    [int(time.time() - start_time)]. *)
Record StatsView : Type := mkStatsView {
  view_received : Z;
  view_unique_processed : Z;
  view_duplicate_dropped : Z;
  view_topics : list string;
  view_uptime : string
}.

Definition get_stats (uptime_seconds : Z) (s : System) : StatsView :=
  mkStatsView (received (stats s)) (processed_success (stats s))
    (duplicates_dropped (stats s))
    (remove_dups (row_topic <$> events s))
    (timedelta_str uptime_seconds).

(** The shape H:MM:SS: one or more decimal digits, a colon, two digits, a
    colon, two digits. *)
Definition is_digit (c : ascii) : bool :=
  (48 <=? nat_of_ascii c)%nat && (nat_of_ascii c <=? 57)%nat.

Fixpoint all_digits (s : string) : bool :=
  match s with
  | EmptyString => true
  | String c rest => is_digit c && all_digits rest
  end.

(** Splits at the first colon. *)
Fixpoint split_colon (s : string) : string * option string :=
  match s with
  | EmptyString => (EmptyString, None)
  | String c rest =>
      if Ascii.eqb c ":" then (EmptyString, Some rest)
      else let '(field, more) := split_colon rest in (String c field, more)
  end.

Definition hms_shape (s : string) : bool :=
  match split_colon s with
  | (h, Some rest) =>
      match split_colon rest with
      | (m, Some sec) =>
          (1 <=? String.length h)%nat && all_digits h
          && (String.length m =? 2)%nat && all_digits m
          && (String.length sec =? 2)%nat && all_digits sec
      | _ => false
      end
  | _ => false
  end.

(** ** Process start-up: [lifespan] *)

(** What one pass through the [try] block of the connection loop meets. *)
Inductive attempt : Type :=
| PoolFails      (* [asyncpg.create_pool] raises *)
| BrokerFails    (* [redis.from_url] raises *)
| InitDbFails    (* [init_db] raises *)
| Connected.     (* the block reaches [break] *)

(** The globals [db_pool] and [redis_client]; a handle is named by the pass
    of the loop that created it, [None] is Python's None. *)
Record Handles : Type := mkHandles {
  db_pool : option nat;
  redis_client : option nat
}.

(** What the code before [yield] has done when it reaches [yield]. *)
Record Startup : Type := mkStartup {
  handles : Handles;
  ready : bool;          (* some pass reached [break] *)
  passes : nat;          (* passes through the loop body *)
  sleeps : list Z;       (* the arguments of [asyncio.sleep], in seconds *)
  tasks : nat            (* [start_consumer] tasks created *)
}.

(** The globals after the assignments the [try] block made before raising. *)
Definition assign (i : nat) (a : attempt) (h : Handles) : Handles :=
  match a with
  | PoolFails => h
  | BrokerFails => mkHandles (Some i) (redis_client h)
  | InitDbFails | Connected => mkHandles (Some i) (Some i)
  end.

(** [for i in range(5): try: ... break; except Exception: ... sleep(2)],
    the remaining passes given by [fuel]. *)
Fixpoint connect (env : nat → attempt) (fuel i : nat) (st : Startup) : Startup :=
  match fuel with
  | O => st
  | S fuel' =>
      let h := assign i (env i) (handles st) in
      match env i with
      | Connected =>
          mkStartup h true (S (passes st)) (sleeps st) (tasks st)
      | _ =>
          connect env fuel' (S i)
            (mkStartup h false (S (passes st)) (sleeps st ++ [2]) (tasks st))
      end
  end.

(** The code of [lifespan] up to [yield]: the connection loop, then the
    five [asyncio.create_task(start_consumer())] whatever the loop's
    outcome. *)
Definition lifespan (env : nat → attempt) : Startup :=
  let st := connect env 5 0 (mkStartup (mkHandles None None) false 0 [] 0) in
  mkStartup (handles st) (ready st) (passes st) (sleeps st) 5.

(** ** [datetime.fromisoformat]

    The parser of CPython 3.11 ([Modules/_datetimemodule.c]), function by
    function; the consumer keeps the calendar fields and drops the offset
    ([.replace(tzinfo=None)]).

    The C code walks a NUL-terminated buffer with a pointer.  A pointer is
    modelled by the rest of the buffer from it; reading at or beyond the end
    gives NUL. *)

Definition digit_val (c : ascii) : option Z :=
  if is_digit c then Some (Z.of_nat (nat_of_ascii c) - 48) else None.

(** [parse_digits(p, &var, n)]: exactly [n] decimal digits. *)
Fixpoint read_digits (n : nat) (acc : Z) (s : string) : option (Z * string) :=
  match n with
  | O => Some (acc, s)
  | S n' =>
      match s with
      | String c rest => d ← digit_val c; read_digits n' (10 * acc + d) rest
      | EmptyString => None
      end
  end.

Definition expect (c : ascii) (s : string) : option string :=
  match s with
  | String c' rest => if Ascii.eqb c c' then Some rest else None
  | EmptyString => None
  end.

(** [*p] and [p + 1]. *)
Definition peek (p : string) : ascii :=
  match p with
  | String c _ => c
  | EmptyString => "000"
  end.

Definition advance (p : string) : string :=
  match p with
  | String _ rest => rest
  | EmptyString => EmptyString
  end.

Fixpoint skip (n : nat) (p : string) : string :=
  match n with
  | O => p
  | S n' => skip n' (advance p)
  end.

(** The calendar. *)
Definition is_leap (y : Z) : bool :=
  (y mod 4 =? 0) && (negb (y mod 100 =? 0) || (y mod 400 =? 0)).

Definition days_in_month (y m : Z) : Z :=
  if m =? 2 then (if is_leap y then 29 else 28)
  else if (m =? 4) || (m =? 6) || (m =? 9) || (m =? 11) then 30 else 31.

Definition days_before_year (year : Z) : Z :=
  let y := year - 1 in y * 365 + y / 4 - y / 100 + y / 400.

Definition days_before_month (year month : Z) : Z :=
  nth (Z.to_nat month) [0; 0; 31; 59; 90; 120; 151; 181; 212; 243; 273; 304; 334] 0
  + (if (2 <? month) && is_leap year then 1 else 0).

Definition ymd_to_ord (year month day : Z) : Z :=
  days_before_year year + days_before_month year month + day.

(** [weekday]: Monday is 0. *)
Definition weekday (year month day : Z) : Z :=
  (ymd_to_ord year month day + 6) mod 7.

Definition iso_week1_monday (year : Z) : Z :=
  let first_day := ymd_to_ord year 1 1 in
  let first_weekday := (first_day + 6) mod 7 in
  let week1_monday := first_day - first_weekday in
  if 3 <? first_weekday then week1_monday + 7 else week1_monday.

Definition ord_to_ymd (ordinal : Z) : Z * Z * Z :=
  let n := ordinal - 1 in
  let n400 := n / 146097 in
  let n := n mod 146097 in
  let n100 := n / 36524 in
  let n := n mod 36524 in
  let n4 := n / 1461 in
  let n := n mod 1461 in
  let n1 := n / 365 in
  let n := n mod 365 in
  let year := n400 * 400 + 1 + n100 * 100 + n4 * 4 + n1 in
  if (n1 =? 4) || (n100 =? 4) then (year - 1, 12, 31)
  else
    let leapyear := (n1 =? 3) && (negb (n4 =? 24) || (n100 =? 3)) in
    let month := (n + 50) / 32 in
    let preceding :=
      days_before_month 1 month
      + (if (2 <? month) && leapyear then 1 else 0) in
    if n <? preceding
    then
      let month := month - 1 in
      let preceding :=
        preceding
        - ((if month =? 2 then 28 else days_in_month 1 month)
           + (if (month =? 2) && leapyear then 1 else 0)) in
      (year, month, n - preceding + 1)
    else (year, month, n - preceding + 1).

(** [iso_to_ymd]: the Gregorian date of day [iso_day] of ISO week
    [iso_week]. *)
Definition iso_to_ymd (iso_year iso_week iso_day : Z) : option (Z * Z * Z) :=
  if (iso_year <? 1) || (9999 <? iso_year) then None
  else if ((iso_week <=? 0) || (53 <=? iso_week))
          && negb ((iso_week =? 53)
                   && (let first_weekday := weekday iso_year 1 1 in
                       (first_weekday =? 3)
                       || ((first_weekday =? 2) && is_leap iso_year)))
  then None
  else if (iso_day <=? 0) || (8 <=? iso_day) then None
  else
    let day_1 := iso_week1_monday iso_year in
    let day_offset := (iso_week - 1) * 7 + iso_day - 1 in
    Some (ord_to_ymd (day_1 + day_offset)).

(** Number of decimal digits the buffer starts with. *)
Fixpoint count_digits (p : string) : nat :=
  match p with
  | String c rest => if is_digit c then S (count_digits rest) else O
  | EmptyString => O
  end.

(** [_find_isoformat_datetime_separator]: where the date ends, told from
    characters 4 and 5 and the length; [None] is -1. *)
Definition find_isoformat_datetime_separator (dtstr : string) (len : nat)
  : option nat :=
  let at_ i := peek (skip i dtstr) in
  if (len =? 7)%nat then Some 7%nat
  else if Ascii.eqb (at_ 4%nat) "-" then
    if Ascii.eqb (at_ 5%nat) "W" then
      if (len <? 8)%nat then None
      else if (8 <? len)%nat && Ascii.eqb (at_ 8%nat) "-" then
        if (len =? 9)%nat then None
        else if (10 <? len)%nat && is_digit (at_ 10%nat) then Some 8%nat
        else Some 10%nat
      else Some 8%nat
    else Some 10%nat
  else if Ascii.eqb (at_ 4%nat) "W" then
    let idx := (7 + count_digits (skip 7 dtstr))%nat in
    if (idx <? 9)%nat then Some idx
    else if Nat.even idx then Some 7%nat else Some 8%nat
  else Some 8%nat.

(** [parse_isoformat_date]: YYYY-MM-DD, YYYYMMDD, or an ISO week date
    YYYY-Www[-D], YYYYWww[D]; [len] is the length of the date part. *)
Definition parse_isoformat_date (dtstr : string) (len : nat)
  : option (Z * Z * Z) :=
  '(year, p) ← read_digits 4 0 dtstr;
  let uses_separator := Ascii.eqb (peek p) "-" in
  let p := if uses_separator then advance p else p in
  if Ascii.eqb (peek p) "W" then
    '(iso_week, p) ← read_digits 2 0 (advance p);
    if ((if uses_separator then 8 else 7) <? len)%nat then
      p ← (if uses_separator then expect "-" p else Some p);
      '(iso_day, _) ← read_digits 1 0 p;
      iso_to_ymd year iso_week iso_day
    else iso_to_ymd year iso_week 1
  else
    '(month, p) ← read_digits 2 0 p;
    p ← (if uses_separator then expect "-" p else Some p);
    '(day, _) ← read_digits 2 0 p;
    Some (year, month, day).

Fixpoint skip_digits (p : string) : string :=
  match p with
  | String c rest => if is_digit c then skip_digits rest else p
  | EmptyString => p
  end.

(** The fraction at the end of [parse_hh_mm_ss_ff]: up to six digits make
    the microseconds, further digits are skipped.  [room] is [p_end - p];
    the flag tells whether the parser stopped before a NUL. *)
Definition parse_ff (p : string) (room : Z) : option (Z * bool) :=
  let to_parse := Z.to_nat (Z.min 6 room) in
  '(us, p) ← read_digits to_parse 0 p;
  Some (us * 10 ^ (6 - Z.of_nat to_parse),
        negb (Ascii.eqb (peek (skip_digits p)) "000")).

(** [parse_hh_mm_ss_ff]: HH[:MM[:SS]] or HH[MM[SS]], then a fraction
    after "." or ",".  [todo] counts the components still to read, [vals]
    holds those read. *)
Fixpoint parse_hh_mm_ss (todo : nat) (has_separator : option bool)
    (p : string) (room : Z) (vals : list Z) : option (list Z * Z * bool) :=
  match todo with
  | O => '(us, more) ← parse_ff p room; Some (vals, us, more)
  | S todo' =>
      '(v, p1) ← read_digits 2 0 p;
      let c := peek p1 in
      let has_separator := default (Ascii.eqb c ":") has_separator in
      let vals := vals ++ [v] in
      if room - 3 <=? 0 then Some (vals, 0, negb (Ascii.eqb c "000"))
      else if has_separator && Ascii.eqb c ":"
      then parse_hh_mm_ss todo' (Some has_separator) (advance p1) (room - 3) vals
      else if Ascii.eqb c "." || Ascii.eqb c ","
      then '(us, more) ← parse_ff (advance p1) (room - 3); Some (vals, us, more)
      else if negb has_separator
      then parse_hh_mm_ss todo' (Some has_separator) p1 (room - 2) vals
      else None
  end.

Definition parse_hh_mm_ss_ff (p : string) (room : Z)
  : option (list Z * Z * bool) :=
  parse_hh_mm_ss 3 None p room [].

(** The search for the offset in [parse_isoformat_time]: the index of the
    first "Z", "+" or "-"; a do-while loop, so the first character is
    looked at even when the time part is empty. *)
Fixpoint find_tzinfo (fuel : nat) (p : string) (i : nat) (len : nat) : nat :=
  let c := peek p in
  if Ascii.eqb c "Z" || Ascii.eqb c "+" || Ascii.eqb c "-" then i
  else
    match fuel with
    | O => S i
    | S fuel' =>
        if (S i <? len)%nat then find_tzinfo fuel' (advance p) (S i) len
        else S i
    end.

(** [parse_isoformat_time]: the time of day and, when there is one, the
    offset in seconds and microseconds. *)
Definition parse_isoformat_time (p : string) (len : nat)
  : option (list Z * Z * option (Z * Z)) :=
  let tzinfo_pos := find_tzinfo len p 0 len in
  match parse_hh_mm_ss_ff p (Z.of_nat tzinfo_pos) with
  | None => None
  | Some (vals, us, more) =>
      if (tzinfo_pos =? len)%nat then
        if more then None else Some (vals, us, None)
      else
        let tz := skip tzinfo_pos p in
        if Ascii.eqb (peek tz) "Z" then
          if Ascii.eqb (peek (advance tz)) "000"
          then Some (vals, us, Some (0, 0)) else None
        else
          let tzsign := if Ascii.eqb (peek tz) "-" then -1 else 1 in
          match parse_hh_mm_ss_ff (advance tz)
                  (Z.of_nat len - Z.of_nat tzinfo_pos - 1) with
          | None => None
          | Some (tzvals, tzus, more) =>
              if more then None
              else Some (vals, us,
                         Some (tzsign * (nth 0 tzvals 0 * 3600
                                         + nth 1 tzvals 0 * 60
                                         + nth 2 tzvals 0),
                               tzsign * tzus))
          end
  end.

(** [timezone(timedelta(0, tzoffset, tz_useconds))]: the offset is strictly
    between -24 h and 24 h; offset 0 is [timezone.utc]. *)
Definition timezone_ok (tz : option (Z * Z)) : bool :=
  match tz with
  | None => true
  | Some (tzoffset, tz_useconds) =>
      (tzoffset =? 0)
      || (Z.abs (tzoffset * 1000000 + tz_useconds) <? 86400 * 1000000)
  end.

(** [datetime.fromisoformat(s).replace(tzinfo=None)]; [None] is
    ValueError. *)
Definition isoformat_parser (dtstr : string) : option datetime :=
  let len := String.length dtstr in
  if (len <? 7)%nat then None
  else
    separator_location ← find_isoformat_datetime_separator dtstr len;
    '(year, month, day) ← parse_isoformat_date dtstr separator_location;
    '(vals, us, tz) ←
      (if (separator_location <? len)%nat
       then parse_isoformat_time (skip (S separator_location) dtstr)
              (len - separator_location - 1)
       else Some ([], 0, @None (Z * Z)));
    let hour := nth 0 vals 0 in
    let minute := nth 1 vals 0 in
    let second := nth 2 vals 0 in
    if timezone_ok tz
       && (1 <=? year) && (year <=? 9999) && (1 <=? month) && (month <=? 12)
       && (1 <=? day) && (day <=? days_in_month year month)
       && (hour <? 24) && (minute <? 60) && (second <? 60)
    then Some (mkDatetime year month day hour minute second us)
    else None.

(** ** Vocabulary of the statements *)

(** Number of elements of a list that satisfy a test. *)
Fixpoint tally {A : Type} (f : A → bool) (l : list A) : nat :=
  match l with
  | [] => O
  | x :: rest => ((if f x then 1 else 0) + tally f rest)%nat
  end.

Definition event_key (e : LogEvent) : Key := (topic e, event_id e).

(** The pair the store knows a queue message by, when it can store one:
    topic and event_id as the two [VARCHAR(255)] columns take them. *)
Definition message_key (event_data : json) : option Key :=
  t ← getitem event_data "topic" ≫= as_str;
  t' ← varchar 255 t;
  i ← getitem event_data "event_id" ≫= as_str;
  i' ← varchar 255 i;
  Some (t', i').

Definition about (k : Key) (event_data : json) : bool :=
  bool_decide (message_key event_data = Some k).

(** An event published for pair [k]: its message is stored under [k]. *)
Definition has_key (k : Key) (e : LogEvent) : bool :=
  about k (model_dump_json e).

(** Topic and event_id of at most 255 characters without NUL: the store
    keeps them as they are, so the pair of the event is the pair of its
    row. *)
Definition plain (s : string) : bool :=
  negb (has_nul s) && (String.length s <=? 255)%nat.

Definition plain_key (k : Key) : bool := plain (fst k) && plain (snd k).

(** Consumers by what they hold for pair [k]. *)
Definition holds (k : Key) (w : worker) : bool :=
  match w with
  | Decoded event_data => about k event_data
  | _ => false
  end.

Definition got_inserted (k : Key) (w : worker) : bool :=
  match w with
  | Executed event_data result =>
      about k event_data && String.eqb result "INSERT 0 1"
  | _ => false
  end.

Definition got_conflict (k : Key) (w : worker) : bool :=
  match w with
  | Executed event_data result =>
      about k event_data && negb (String.eqb result "INSERT 0 1")
  | _ => false
  end.

Definition busy (w : worker) : bool :=
  match w with
  | Waiting => false
  | _ => true
  end.

(** Log lines by kind and pair.  A [Processed] line is written by the
    branch that adds one to [processed_success], a [DuplicateDropped] line
    by the branch that adds one to [duplicates_dropped]. *)
Definition is_processed (r : log_record) : bool :=
  match r with Processed _ => true | _ => false end.

Definition is_duplicate (r : log_record) : bool :=
  match r with DuplicateDropped _ => true | _ => false end.

Definition is_error (r : log_record) : bool :=
  match r with DbError _ => true | _ => false end.

Definition processed_for (k : Key) (r : log_record) : bool :=
  match r with Processed event_data => about k event_data | _ => false end.

Definition duplicate_for (k : Key) (r : log_record) : bool :=
  match r with DuplicateDropped event_data => about k event_data | _ => false end.

Definition error_for (k : Key) (r : log_record) : bool :=
  match r with DbError event_data => about k event_data | _ => false end.

(** The events a label puts on the queue, and those of a whole schedule in
    the order the broker received them. *)
Definition sent (l : label) : list LogEvent :=
  match l with
  | PublishSend event => events_to_process event
  | _ => []
  end.

Definition published (sched : list label) : list LogEvent :=
  sched ≫= sent.

(** No INSERT of the schedule raises a storage-layer error. *)
Definition storage_ok (l : label) : bool :=
  match l with
  | Execute _ false => false
  | _ => true
  end.

(** Nothing is left to consume: the list is empty and every consumer is
    back in [blpop]. *)
Definition drained (s : System) : Prop :=
  event_queue s = [] ∧ Forall (λ w, w = Waiting) (consumers s).

(** Events in flight between the broker and the counter [received]. *)
Definition uncounted (s : System) : Z :=
  Z.of_nat (length (concat (requests s))).

(** The events of the requests of a schedule whose reply was lost: queued by
    the broker, answered 500, never added to [received].  [reqs] is the
    list of suspended requests the schedule starts from. *)
Fixpoint lost_from (reqs : list (list LogEvent)) (sched : list label)
  : list LogEvent :=
  match sched with
  | [] => []
  | PublishSend event :: rest =>
      lost_from (reqs ++ [events_to_process event]) rest
  | PublishReturn i :: rest => lost_from (delete i reqs) rest
  | PublishFail i _ :: rest =>
      default [] (reqs !! i) ++ lost_from (delete i reqs) rest
  | _ :: rest => lost_from reqs rest
  end.

Definition lost (sched : list label) : list LogEvent := lost_from [] sched.

(** The whereabouts of the [n] messages published so far for pair [k]: each
    is on the list, with a consumer, or accounted for by one log line; the
    rows of the pair are those of the consumers and log lines that saw the
    INSERT succeed; there is at most one, and there is one once a conflict
    was reported. *)
Definition accounting (k : Key) (n : nat) (s : System) : Prop :=
  (n = tally (about k) (event_queue s)
       + tally (holds k) (consumers s)
       + tally (got_inserted k) (consumers s)
       + tally (got_conflict k) (consumers s)
       + tally (processed_for k) (log s)
       + tally (duplicate_for k) (log s)
       + tally (error_for k) (log s)
   ∧ tally (same_key k) (events s)
       = tally (got_inserted k) (consumers s) + tally (processed_for k) (log s)
   ∧ tally (same_key k) (events s) ≤ 1
   ∧ (0 < tally (got_conflict k) (consumers s) + tally (duplicate_for k) (log s)
      → tally (same_key k) (events s) = 1))%nat.

(** Every event of the system is where the counters and the log say:
    counted as received, still with its request, or among the [unseen] ones
    that [received] never counts (left on the list by an earlier run, or
    queued by a request whose reply was lost) on one side; queued, with a
    consumer, or accounted for by a log line on the other. *)
Definition conservation (unseen : Z) (s : System) : Prop :=
  received (stats s) + uncounted s + unseen
  = Z.of_nat (length (event_queue s)) + Z.of_nat (tally busy (consumers s))
    + Z.of_nat (length (log s))
  ∧ processed_success (stats s) = Z.of_nat (tally is_processed (log s))
  ∧ duplicates_dropped (stats s) = Z.of_nat (tally is_duplicate (log s)).

(** The messages of pair [k] can all be turned into a row, and none was
    given up with an error: what holds while the events published for the
    pair carry timestamps the parser reads and the store raises no error. *)
Definition stored_row (fromisoformat : string → option datetime)
    (event_data : json) : option Row :=
  insert_args fromisoformat event_data ≫= columns.

Definition readable (fromisoformat : string → option datetime) (k : Key)
    (event_data : json) : Prop :=
  about k event_data = true → is_Some (stored_row fromisoformat event_data).

Definition unharmed (fromisoformat : string → option datetime) (k : Key)
    (s : System) : Prop :=
  tally (error_for k) (log s) = 0%nat
  ∧ Forall (readable fromisoformat k) (event_queue s)
  ∧ Forall (λ w, ∀ event_data, w = Decoded event_data →
                 readable fromisoformat k event_data) (consumers s).

(** An event the consumer can turn into a row: the parser reads its
    timestamp and the columns take its source and its payload. *)
Definition acceptable (fromisoformat : string → option datetime)
    (e : LogEvent) : Prop :=
  is_Some (fromisoformat (timestamp e))
  ∧ is_Some (varchar 255 (source e))
  ∧ jsonb_ok (JObj (payload e)) = true.

(** The events published for pair [k] are of that kind. *)
Definition storable (fromisoformat : string → option datetime) (k : Key)
    (e : LogEvent) : Prop :=
  has_key k e = true → acceptable fromisoformat e.

(** ** Sample events and schedules *)

(** The event the integration tests build: [generate_event]. *)
Definition sample_event (t i ts : string) : LogEvent :=
  mkLogEvent t i ts "pytest-runner" [("status", JStr "ok"); ("value", JNum 123)].

Definition ev_a : LogEvent := sample_event "t" "a" "2024-01-01T00:00:00".
Definition ev_b : LogEvent := sample_event "u" "a" "2024-01-02T08:30:00".
Definition ev_c : LogEvent := sample_event "t" "c" "2024-01-03T00:00:00.250000".
Definition ev_bad : LogEvent := sample_event "t" "x" "not-a-date".

(** [ev_a] published twice by two requests; consumers 0 and 1 take one copy
    each and consumer 1 reaches the store first. *)
Definition twice : list label :=
  [PublishSend (Single ev_a); PublishSend (Single ev_a);
   PublishReturn 0; PublishReturn 0;
   Pop 0; Pop 1; Execute 1 true; Execute 0 true; Resume 0; Resume 1].

Definition twice_final : System :=
  Eval vm_compute in default (boot []) (run isoformat_parser twice (boot [])).

(** [ev_a] published once to a process whose table holds a row of its
    pair. *)
Definition already_stored : list label :=
  [PublishSend (Single ev_a); PublishReturn 0; Pop 0; Execute 0 true; Resume 0].

(** [ev_a] and [ev_b], same event_id under two topics, in one batch. *)
Definition two_topics : list label :=
  [PublishSend (Batch [ev_a; ev_b]); PublishReturn 0;
   Pop 3; Pop 4; Execute 3 true; Execute 4 true; Resume 4; Resume 3].

Definition two_topics_final : System :=
  Eval vm_compute in
    default (boot []) (run isoformat_parser two_topics (boot [])).

(** One request publishes [ev_a]; the broker has applied the pipeline and
    the request is still suspended in [await pipe.execute()] when consumer
    0 pops the message, inserts it and counts it. *)
Definition overtaken : list label :=
  [PublishSend (Single ev_a); Pop 0; Execute 0 true; Resume 0].

(** A table of three rows under two topics. *)
Definition row_a : Row :=
  mkRow "t" "a" (mkDatetime 2024 1 1 0 0 0 0) (Some "pytest-runner") (JObj []).
Definition row_b : Row :=
  mkRow "u" "a" (mkDatetime 2024 1 2 8 30 0 0) (Some "pytest-runner") (JObj []).
Definition row_c : Row :=
  mkRow "t" "c" (mkDatetime 2024 1 3 0 0 0 250000) (Some "pytest-runner")
    (JObj []).

Definition sample_table : list Row := [row_a; row_b; row_c].





Definition already_stored_final : System :=
  Eval vm_compute in
    default (boot []) (run isoformat_parser already_stored (boot [row_a])).

(** [ev_bad] is published, counted and given up by consumer 0; then a batch
    of two events is consumed and counted by consumers 0 and 1 while its
    request is still suspended in [await pipe.execute()]. *)
Definition late_count : list label :=
  [PublishSend (Single ev_bad); PublishReturn 0; Pop 0; Execute 0 true;
   PublishSend (Batch [ev_a; ev_c]);
   Pop 0; Pop 1; Execute 0 true; Execute 1 true; Resume 0; Resume 1].

Definition late_count_final : System :=
  Eval vm_compute in
    default (boot []) (run isoformat_parser late_count (boot [])).

(** [ev_bad] is published, counted and given up by consumer 0; then the
    request that publishes [ev_a] loses the broker's reply after the
    pipeline was applied and answers 500; consumer 0 inserts and counts
    [ev_a]. *)
Definition lost_reply : list label :=
  [PublishSend (Single ev_bad); PublishReturn 0; Pop 0; Execute 0 true;
   PublishSend (Single ev_a); PublishFail 0 "Timeout reading from socket";
   Pop 0; Execute 0 true; Resume 0].

Definition lost_reply_final : System :=
  Eval vm_compute in
    default (boot []) (run isoformat_parser lost_reply (boot [])).

(** [ev_bad] is published, counted and given up; nothing else happens. *)
Definition bad_only : list label :=
  [PublishSend (Single ev_bad); PublishReturn 0; Pop 2; Execute 2 true].

Definition bad_only_final : System :=
  Eval vm_compute in default (boot []) (run isoformat_parser bad_only (boot [])).

(** No consumer has an INSERT result for the message and no line of the
    log counts it. *)
Definition never_counted (event_data : json) (s : System) : Prop :=
  Forall (λ w, ∀ result, w ≠ Executed event_data result) (consumers s)
  ∧ Forall (λ r, r ≠ Processed event_data ∧ r ≠ DuplicateDropped event_data)
      (log s).

(** The batch of [test_07_batch_publish_mixed]: three events, two of them
    with one pair; all three are consumed by consumer 0. *)
Definition mixed_batch : list label :=
  [PublishSend (Batch [ev_c; ev_a; ev_a]); PublishReturn 0;
   Pop 0; Execute 0 true; Resume 0;
   Pop 0; Execute 0 true; Resume 0;
   Pop 0; Execute 0 true; Resume 0].

Definition mixed_batch_final : System :=
  Eval vm_compute in
    default (boot []) (run isoformat_parser mixed_batch (boot [])).

(** Transitions a consumer still owes for what it holds, and the
    transitions the consumers owe altogether before the system is drained:
    three for a queued message (pop, execute, resume). *)
Definition owed (w : worker) : nat :=
  match w with
  | Waiting => 0
  | Decoded _ => 2
  | Executed _ _ => 1
  end.

Fixpoint owed_all (ws : list worker) : nat :=
  match ws with
  | [] => 0
  | w :: rest => (owed w + owed_all rest)%nat
  end.

Definition backlog (s : System) : nat :=
  (3 * length (event_queue s) + owed_all (consumers s))%nat.

(** The outcome C1 names for a pair published [K] times: one row, one
    increment of [processed_success], [K - 1] increments of
    [duplicates_dropped], the counters being the numbers of log lines of
    their kind. *)
Definition deduplicated (k : Key) (K : nat) (s : System) : Prop :=
  tally (same_key k) (events s) = 1%nat
  ∧ tally (processed_for k) (log s) = 1%nat
  ∧ tally (duplicate_for k) (log s) = (K - 1)%nat
  ∧ processed_success (stats s) = Z.of_nat (tally is_processed (log s))
  ∧ duplicates_dropped (stats s) = Z.of_nat (tally is_duplicate (log s)).


(** ** Vocabulary of the further properties *)

(** The messages the broker delivered to consumers along a schedule, in
    the order of delivery. *)
Fixpoint delivered (fromisoformat : string → option datetime)
    (sched : list label) (s : System) : list json :=
  match sched with
  | [] => []
  | l :: rest =>
      match step fromisoformat l s with
      | Some s' =>
          match l, event_queue s with
          | Pop _, raw :: _ => raw :: delivered fromisoformat rest s'
          | _, _ => delivered fromisoformat rest s'
          end
      | None => []
      end
  end.

(** A consumer whose INSERT added a row and which has not counted it yet. *)
Definition reported_insert (w : worker) : bool :=
  match w with
  | Executed _ result => String.eqb result "INSERT 0 1"
  | _ => false
  end.

(** The message a consumer holds. *)
Definition message_of (w : worker) : option json :=
  match w with
  | Waiting => None
  | Decoded event_data | Executed event_data _ => Some event_data
  end.

(** A message is the serialization of one of the events [pool]; a row is
    the row the store keeps for one of them: the fields of the event, the
    three texts cut to the 255 characters of their columns (what is cut off
    is spaces, or the INSERT had raised). *)
Definition written_for (pool : list LogEvent) (event_data : json) : Prop :=
  ∃ e, e ∈ pool ∧ event_data = model_dump_json e.

(** The first [n] characters of a text. *)
Fixpoint cut (n : nat) (s : string) {struct s} : string :=
  match n, s with
  | S n', String c rest => String c (cut n' rest)
  | _, _ => EmptyString
  end.

Definition row_for (fromisoformat : string → option datetime)
    (pool : list LogEvent) (r : Row) : Prop :=
  ∃ e d, e ∈ pool ∧ fromisoformat (timestamp e) = Some d
         ∧ stored_row fromisoformat (model_dump_json e) = Some r
         ∧ r = mkRow (cut 255 (topic e)) (cut 255 (event_id e)) d
                     (Some (cut 255 (source e))) (JObj (payload e)).

(** Everything in the system stems from the events [pool] or, for rows,
    from the table [tbl] found at start-up. *)
Definition traceable (fromisoformat : string → option datetime)
    (tbl : list Row) (pool : list LogEvent) (s : System) : Prop :=
  Forall (written_for pool) (event_queue s)
  ∧ Forall (λ w, ∀ event_data, message_of w = Some event_data →
                 written_for pool event_data) (consumers s)
  ∧ Forall (λ r, r ∈ tbl ∨ row_for fromisoformat pool r) (events s).

(** ** The traffic generator: [publisher/src/main.py] *)

Module Publisher.

Definition TOPICS : list string :=
  ["system.logs"; "payment.gateway"; "user.auth"; "order.processing"].

Definition SOURCES : list string :=
  ["service-a"; "service-b"; "mobile-app"; "web-frontend"].

(** [random.choice(seq)] on a non-empty sequence: the element at a random
    position, the random number [n] reduced to a position. *)
Definition choice {A : Type} (seq : list A) (n : nat) (none : A) : A :=
  default none (seq !! (n mod length seq)%nat).

(** [random.randint(a, b)]: a number from [a] to [b], both included. *)
Definition randint (a b : Z) (n : nat) : Z :=
  a + Z.of_nat n mod (b - a + 1).

(** What the random generator, [uuid.uuid4] and the clock give to one call
    of [generate_new_event]. *)
Record Draw : Type := mkDraw {
  draw_topic : nat;
  draw_uuid : string;
  draw_now : string;     (* datetime.now(timezone.utc).isoformat() *)
  draw_source : nat;
  draw_cpu : nat;
  draw_memory : nat
}.

Definition generate_new_event (d : Draw) : json :=
  JObj [("topic", JStr (choice TOPICS (draw_topic d) ""));
        ("event_id", JStr (draw_uuid d));
        ("timestamp", JStr (draw_now d));
        ("source", JStr (choice SOURCES (draw_source d) ""));
        ("payload", JObj [("cpu_usage", JNum (randint 10 90 (draw_cpu d)));
                          ("memory", JNum (randint 100 1024 (draw_memory d)));
                          ("status", JStr "active")])].

(** [deque(maxlen=n).append(x)]: the element is added on the right and,
    when the deque was full, the leftmost one is discarded. *)
Definition deque_append {A : Type} (maxlen : nat) (x : A) (d : list A) : list A :=
  drop (S (length d) - maxlen) (d ++ [x]).

(** What one pass of the loop of [main] draws: whether
    [random.random() < 0.3], the position [random.choice] takes in the
    history, and the draws of a new event. *)
Record Tick : Type := mkTick {
  below_threshold : bool;
  position : nat;
  draws : Draw
}.

(** One pass of the [while True] loop up to [client.post]: the event
    posted, [is_duplicate], and [sent_events_history] afterwards.  The
    response only selects the log line. *)
Definition pass (t : Publisher.Tick) (sent_events_history : list json)
  : (json * bool) * list json :=
  match sent_events_history with
  | _ :: _ =>
      if below_threshold t
      then ((choice sent_events_history (position t) JNull, true),
            sent_events_history)
      else let event_data := generate_new_event (draws t) in
           ((event_data, false), deque_append 50 event_data sent_events_history)
  | [] =>
      let event_data := generate_new_event (draws t) in
      ((event_data, false), deque_append 50 event_data sent_events_history)
  end.

(** The loop of [main] over the passes it makes: the events posted with
    their [is_duplicate] flags, and the history at the end. *)
Fixpoint main (ticks : list Publisher.Tick) (sent_events_history : list json)
  : list (json * bool) * list json :=
  match ticks with
  | [] => ([], sent_events_history)
  | t :: rest =>
      let '(posted, history) := pass t sent_events_history in
      let '(more, final) := main rest history in
      (posted :: more, final)
  end.

End Publisher.

(** The new events among the posted ones, in order, and the last [n]
    elements of a list. *)
Definition new_events (posted : list (json * bool)) : list json :=
  fst <$> filter (λ p, snd p = false) posted.

Definition last_n {A : Type} (n : nat) (l : list A) : list A :=
  drop (length l - n) l.

(** A body the aggregator accepts as one event of the publisher's making:
    it validates, its topic and source are among the publisher's, and its
    payload carries the two readings in their ranges. *)
Definition well_made (event_data : json) : Prop :=
  ∃ e cpu memory,
    validate_body event_data = Some (Single e)
    ∧ topic e ∈ Publisher.TOPICS
    ∧ source e ∈ Publisher.SOURCES
    ∧ assoc "cpu_usage" (payload e) = Some (JNum cpu) ∧ 10 ≤ cpu ≤ 90
    ∧ assoc "memory" (payload e) = Some (JNum memory) ∧ 100 ≤ memory ≤ 1024
    ∧ assoc "status" (payload e) = Some (JStr "active").

(** ** The timestamps the publisher and the tests write *)

(** [n] decimal digits of [v], most significant first: ["%04d"], ["%02d"]
    and ["%06d"] on values that fit. *)
Fixpoint pad (n : nat) (v : Z) : string :=
  match n with
  | O => EmptyString
  | S n' =>
      String (ascii_of_nat (48 + Z.to_nat (v / 10 ^ Z.of_nat n')))
             (pad n' (v mod 10 ^ Z.of_nat n'))
  end.

(** [d.isoformat()]: the date and the time separated by "T", the
    microseconds only when they are not zero; [utc] tells whether the
    date-time carries the zone [timezone.utc], whose offset is written
    [+00:00] ([datetime.now(timezone.utc)] in the publisher,
    [datetime.now()] in the tests). *)
Definition isoformat (d : datetime) (utc : bool) : string :=
  pad 4 (dt_year d) +:+ "-" +:+ pad 2 (dt_month d) +:+ "-" +:+ pad 2 (dt_day d)
  +:+ "T" +:+ pad 2 (dt_hour d) +:+ ":" +:+ pad 2 (dt_minute d)
  +:+ ":" +:+ pad 2 (dt_second d)
  +:+ (if dt_microsecond d =? 0 then "" else "." +:+ pad 6 (dt_microsecond d))
  +:+ (if utc then "+00:00" else "").

(** The date-times a Python [datetime] can hold. *)
Definition calendar (d : datetime) : Prop :=
  1 ≤ dt_year d ≤ 9999 ∧ 1 ≤ dt_month d ≤ 12
  ∧ 1 ≤ dt_day d ≤ days_in_month (dt_year d) (dt_month d)
  ∧ 0 ≤ dt_hour d < 24 ∧ 0 ≤ dt_minute d < 60 ∧ 0 ≤ dt_second d < 60
  ∧ 0 ≤ dt_microsecond d < 1000000.

(** * Properties *)

Section TallyFacts.

Context {A : Type} (f : A → bool).

Lemma tally_app (l1 l2 : list A) :
  tally f (l1 ++ l2) = (tally f l1 + tally f l2)%nat.
Proof. induction l1 as [|x l1 IH]; simpl; [done | rewrite IH; lia]. Qed.

(** Overwriting one cell moves one unit of the tally. *)
Lemma tally_insert (l : list A) (i : nat) (x y : A) :
  l !! i = Some y →
  (tally f (<[i:=x]> l) + (if f y then 1 else 0)
   = tally f l + (if f x then 1 else 0))%nat.
Proof.
  revert i. induction l as [|z l IH]; intros [|i] Hi; simpl in *; try done.
  - injection Hi as ->. lia.
  - specialize (IH i Hi). lia.
Qed.

Lemma tally_existsb_false (l : list A) :
  existsb f l = false → tally f l = 0%nat.
Proof.
  induction l as [|x l IH]; simpl; [done |].
  destruct (f x); simpl; [done | auto].
Qed.

Lemma tally_existsb_true (l : list A) :
  existsb f l = true → (1 ≤ tally f l)%nat.
Proof.
  induction l as [|x l IH]; simpl; [done |].
  destruct (f x); simpl; [lia |]. intros H. specialize (IH H). lia.
Qed.


Lemma tally_elem (l : list A) (x : A) :
  x ∈ l → f x = true → (1 ≤ tally f l)%nat.
Proof.
  induction 1 as [x l | x y l _ IH]; simpl; intros Hf.
  - rewrite Hf. lia.
  - specialize (IH Hf). lia.
Qed.

Lemma tally_none (l : list A) :
  Forall (λ x, f x = false) l → tally f l = 0%nat.
Proof. induction 1 as [|x l Hx _ IH]; simpl; [done | by rewrite Hx]. Qed.

End TallyFacts.

Lemma tally_fmap {A B : Type} (f : B → bool) (g : A → B) (l : list A) :
  tally f (g <$> l) = tally (λ x, f (g x)) l.
Proof. induction l as [|x l IH]; csimpl; [done | by rewrite IH]. Qed.

Lemma tally_ext {A : Type} (f g : A → bool) (l : list A) :
  (∀ x, f x = g x) → tally f l = tally g l.
Proof. intros H. induction l as [|x l IH]; simpl; [done | by rewrite H, IH]. Qed.

(** ** Texts and the columns that store them *)

Lemma fit_cut (n : nat) (s s' : string) : fit n s = Some s' → s' = cut n s.
Proof.
  revert s s'. induction n as [|n IH]; intros [|c rest] s'; simpl; try congruence.
  - destruct (Ascii.eqb c " " && all_spaces rest); congruence.
  - destruct (fit n rest) as [t|] eqn:Hfit; [|done]. intros [= <-].
    by rewrite (IH rest t Hfit).
Qed.

Lemma fit_short (n : nat) (s : string) :
  (String.length s ≤ n)%nat → fit n s = Some s.
Proof.
  revert n. induction s as [|c rest IH]; intros [|n] Hlen; simpl in *;
    try done; try lia.
  by rewrite IH by lia.
Qed.

Lemma cut_short (n : nat) (s : string) :
  (String.length s ≤ n)%nat → cut n s = s.
Proof.
  revert n. induction s as [|c rest IH]; intros [|n] Hlen; simpl in *;
    try done; try lia.
  by rewrite IH by lia.
Qed.

Lemma varchar_cut (n : nat) (s s' : string) :
  varchar n s = Some s' → s' = cut n s.
Proof. unfold varchar. destruct (has_nul s); [done | apply fit_cut]. Qed.

Lemma varchar_plain (s : string) : plain s = true → varchar 255 s = Some s.
Proof.
  unfold plain, varchar. intros [Hnul Hlen]%andb_true_iff.
  apply negb_true_iff in Hnul. rewrite Hnul.
  apply fit_short. by apply Nat.leb_le.
Qed.

#[local] Opaque varchar.
#[local] Arguments execute_insert : simpl never.

(** ** Messages and the rows made from them *)

Lemma message_key_dump (e : LogEvent) :
  message_key (model_dump_json e)
  = t ← varchar 255 (topic e); i ← varchar 255 (event_id e); Some (t, i).
Proof. reflexivity. Qed.

Lemma about_dump (k : Key) (e : LogEvent) :
  about k (model_dump_json e) = has_key k e.
Proof. reflexivity. Qed.

(** For an event whose topic and event_id the store keeps as they are, the
    pair it is stored under is its own. *)
Lemma has_key_plain (k : Key) (e : LogEvent) :
  plain_key (event_key e) = true →
  has_key k e = bool_decide (event_key e = k).
Proof.
  unfold plain_key, has_key, about. intros [Ht Hi]%andb_true_iff.
  rewrite message_key_dump. simpl in Ht, Hi.
  rewrite (varchar_plain _ Ht), (varchar_plain _ Hi). simpl.
  apply bool_decide_ext. unfold event_key. split; [by intros [= <-] | by intros <-].
Qed.


(** A pipeline sent to a reachable broker lands at the tail of the list. *)
Lemma publish_enqueue_up (event : body) (q : list json) :
  publish_enqueue event Up q
  = (q ++ (model_dump_json <$> events_to_process event), None).
Proof.
  unfold publish_enqueue, pipe_execute.
  destruct (model_dump_json <$> events_to_process event); [|done].
  by rewrite app_nil_r.
Qed.

Section ConsumerFacts.

Variable fromisoformat : string → option datetime.

(** The transaction body in terms of the row the store keeps. *)
Lemma execute_stored (event_data : json) (tbl : list Row) :
  execute_insert fromisoformat event_data tbl
  = r ← stored_row fromisoformat event_data;
    Some (on_conflict_do_nothing r tbl).
Proof.
  unfold execute_insert, stored_row, insert_on_conflict_do_nothing.
  by destruct (insert_args fromisoformat event_data).
Qed.

(** The row stored for a message carries the pair the message is known
    by. *)
Lemma stored_row_key (event_data : json) (r : Row) :
  stored_row fromisoformat event_data = Some r →
  message_key event_data = Some (row_key r).
Proof.
  unfold stored_row, insert_args, message_key, columns. intros H.
  destruct (getitem event_data "timestamp" ≫= as_str) as [ts|]; [|done].
  simpl in H. destruct (fromisoformat ts) as [d|]; [|done]. simpl in H.
  destruct (getitem event_data "topic" ≫= as_str) as [t|]; [|done].
  simpl in H |- *.
  destruct (getitem event_data "event_id" ≫= as_str) as [i|]; [|done].
  simpl in H |- *.
  destruct (getitem event_data "source" ≫= as_text_or_null) as [src|]; [|done].
  simpl in H. destruct (getitem event_data "payload") as [p|]; [|done].
  simpl in H.
  destruct (varchar 255 t) as [t'|]; [|done]. simpl in H |- *.
  destruct (varchar 255 i) as [i'|]; [|done]. simpl in H |- *.
  destruct (match src with
            | Some v => Some <$> varchar 255 v
            | None => Some None
            end) as [src'|]; [|done].
  simpl in H. destruct (jsonb_ok p); [|done]. simpl in H.
  by injection H as <-.
Qed.

Lemma about_row (k : Key) (event_data : json) (r : Row) :
  stored_row fromisoformat event_data = Some r →
  about k event_data = same_key k r.
Proof.
  intros H%stored_row_key. unfold about, same_key. rewrite H.
  apply bool_decide_ext. split; congruence.
Qed.

(** What the consumer makes of a message [publish_event] wrote. *)
Lemma insert_args_dump (e : LogEvent) :
  insert_args fromisoformat (model_dump_json e)
  = d ← fromisoformat (timestamp e);
    Some (mkRow (topic e) (event_id e) d (Some (source e)) (JObj (payload e))).
Proof. unfold insert_args. simpl. by destruct (fromisoformat (timestamp e)). Qed.

Lemma stored_row_dump (e : LogEvent) :
  stored_row fromisoformat (model_dump_json e)
  = d ← fromisoformat (timestamp e);
    columns (mkRow (topic e) (event_id e) d (Some (source e))
                   (JObj (payload e))).
Proof.
  unfold stored_row. rewrite insert_args_dump.
  by destruct (fromisoformat (timestamp e)).
Qed.

(** The row stored for an event: its fields, the texts cut to 255
    characters. *)
Lemma stored_row_fields (e : LogEvent) (r : Row) :
  stored_row fromisoformat (model_dump_json e) = Some r →
  ∃ d, fromisoformat (timestamp e) = Some d
       ∧ r = mkRow (cut 255 (topic e)) (cut 255 (event_id e)) d
                   (Some (cut 255 (source e))) (JObj (payload e)).
Proof.
  rewrite stored_row_dump. destruct (fromisoformat (timestamp e)) as [d|]; [|done].
  simpl. unfold columns. simpl.
  destruct (varchar 255 (topic e)) as [t|] eqn:Ht; [|done]. simpl.
  destruct (varchar 255 (event_id e)) as [i|] eqn:Hi; [|done]. simpl.
  destruct (varchar 255 (source e)) as [src|] eqn:Hs; [|done]. simpl.
  destruct (forallb _ (payload e)); [|done]. simpl. intros [= <-].
  exists d. split; [done |].
  by rewrite (varchar_cut _ _ _ Ht), (varchar_cut _ _ _ Hi),
    (varchar_cut _ _ _ Hs).
Qed.

(** An acceptable event published for a pair is stored. *)
Lemma acceptable_stored (k : Key) (e : LogEvent) :
  has_key k e = true → acceptable fromisoformat e →
  is_Some (stored_row fromisoformat (model_dump_json e)).
Proof.
  unfold has_key, about. rewrite message_key_dump, stored_row_dump.
  intros Hk ([d Hd] & [src Hsrc] & Hp). apply bool_decide_eq_true in Hk.
  rewrite Hd. simpl. unfold columns. simpl.
  destruct (varchar 255 (topic e)) as [t|]; [|done]. simpl in Hk |- *.
  destruct (varchar 255 (event_id e)) as [i|]; [|done]. simpl.
  rewrite Hsrc. simpl. simpl in Hp. rewrite Hp. by eexists.
Qed.

End ConsumerFacts.

(** ** Accounting of one pair along a schedule *)

Section Accounting.

Variable fromisoformat : string → option datetime.
Variable k : Key.

(** The tallies of the consumers after consumer [w] changed state. *)
Ltac moved Hw x :=
  pose proof (tally_insert (holds k) _ _ x _ Hw);
  pose proof (tally_insert (got_inserted k) _ _ x _ Hw);
  pose proof (tally_insert (got_conflict k) _ _ x _ Hw);
  pose proof (tally_insert busy _ _ x _ Hw).

Lemma step_accounting (l : label) (s s' : System) (n : nat) :
  step fromisoformat l s = Some s' →
  accounting k n s →
  accounting k (n + tally (has_key k) (sent l)) s'.
Proof.
  unfold accounting. intros Hstep (Hn & Hrows & Hle & Hdup).
  destruct l as [event | event error | i | i error | w | w | w ok | w]; simpl in Hstep.
  - rewrite publish_enqueue_up in Hstep. injection Hstep as <-. simpl.
    rewrite tally_app, tally_fmap. unfold has_key.
    repeat split; [lia | done | done | done].
  - destruct (publish_enqueue _ _ _) as [? [?|]]; [|done]. injection Hstep as <-.
    simpl. rewrite Nat.add_0_r. done.
  - destruct (requests s !! i); [|done]. injection Hstep as <-. simpl.
    rewrite Nat.add_0_r. done.
  - destruct (requests s !! i) as [[|e0 evs]|]; try done.
    injection Hstep as <-. simpl. rewrite Nat.add_0_r. done.
  - destruct (consumers s !! w) as [[| |]|] eqn:Hw; try done.
    destruct (event_queue s) as [|raw q] eqn:Hq; [done |].
    injection Hstep as <-. simpl in *. moved Hw (Decoded raw). simpl in *.
    destruct (about k raw); repeat split; try lia.
  - destruct (consumers s !! w) as [[| |]|]; try done.
    injection Hstep as <-. rewrite Nat.add_0_r. done.
  - destruct (consumers s !! w) as [[|event_data|]|] eqn:Hw; try done.
    rewrite execute_stored in Hstep.
    destruct (stored_row fromisoformat event_data) as [r|] eqn:Hr;
      [destruct ok|]; simpl in Hstep.
    + unfold on_conflict_do_nothing in Hstep.
      destruct (existsb (same_key (row_key r)) (events s)) eqn:Hex;
        injection Hstep as <-; simpl in *.
      * moved Hw (Executed event_data "INSERT 0 0"). simpl in *.
        rewrite (about_row _ k _ _ Hr) in *.
        destruct (same_key k r) eqn:Hk; simpl in *; repeat split; try lia.
        intros _. apply bool_decide_eq_true in Hk. rewrite Hk in Hex.
        apply tally_existsb_true in Hex. lia.
      * moved Hw (Executed event_data "INSERT 0 1"). simpl in *.
        rewrite (about_row _ k _ _ Hr) in *. rewrite !tally_app. simpl.
        destruct (same_key k r) eqn:Hk; simpl in *; repeat split; try lia.
        all: apply bool_decide_eq_true in Hk; rewrite Hk in Hex;
          apply tally_existsb_false in Hex; lia.
    + destruct (on_conflict_do_nothing _ _) as [? ?].
      injection Hstep as <-. simpl in *. moved Hw Waiting. simpl in *.
      rewrite !tally_app. simpl.
      destruct (about k event_data); repeat split; try lia.
    + injection Hstep as <-. simpl in *. moved Hw Waiting. simpl in *.
      rewrite !tally_app. simpl.
      destruct (about k event_data); repeat split; try lia.
  - destruct (consumers s !! w) as [[| |event_data result]|] eqn:Hw; try done.
    unfold count_result in Hstep.
    destruct (String.eqb result "INSERT 0 1") eqn:Hres;
      injection Hstep as <-; simpl in *; moved Hw Waiting; simpl in *;
      rewrite Hres in *; rewrite !tally_app; simpl;
      destruct (about k event_data); simpl in *; repeat split; try lia.
Qed.

End Accounting.

Section Unharmed.

Variable fromisoformat : string → option datetime.
Variable k : Key.

Lemma storable_readable (e : LogEvent) :
  storable fromisoformat k e → readable fromisoformat k (model_dump_json e).
Proof.
  unfold storable, readable. rewrite about_dump.
  intros H Hk. by apply (acceptable_stored _ k); [|apply H].
Qed.

Lemma step_unharmed (l : label) (s s' : System) :
  step fromisoformat l s = Some s' →
  storage_ok l = true →
  Forall (storable fromisoformat k) (sent l) →
  unharmed fromisoformat k s →
  unharmed fromisoformat k s'.
Proof.
  unfold unharmed. intros Hstep Hok Hsent (Herr & Hq & Hc).
  destruct l as [event | event error | i | i error | w | w | w ok | w]; simpl in Hstep.
  - rewrite publish_enqueue_up in Hstep. injection Hstep as <-. simpl in *.
    repeat split; [done | | done].
    apply Forall_app. split; [done |]. apply Forall_fmap.
    eapply Forall_impl; [exact Hsent |]. apply storable_readable.
  - destruct (publish_enqueue _ _ _) as [? [?|]]; [|done]. by injection Hstep as <-.
  - destruct (requests s !! i); [|done]. by injection Hstep as <-.
  - destruct (requests s !! i) as [[|e0 evs]|]; try done.
    by injection Hstep as <-.
  - destruct (consumers s !! w) as [[| |]|] eqn:Hw; try done.
    destruct (event_queue s) as [|raw q] eqn:Hq'; [done |].
    injection Hstep as <-. simpl. apply Forall_cons in Hq as [Hraw Hq].
    repeat split; [done | done |].
    apply Forall_insert; [done |]. by intros ? [= <-].
  - destruct (consumers s !! w) as [[| |]|]; try done.
    by injection Hstep as <-.
  - destruct (consumers s !! w) as [[|event_data|]|] eqn:Hw; try done.
    pose proof (Forall_lookup_1 _ _ _ _ Hc Hw _ eq_refl) as Hread.
    rewrite execute_stored in Hstep.
    destruct (stored_row fromisoformat event_data) as [r|] eqn:Hr;
      [destruct ok; [|done]|]; simpl in Hstep.
    + unfold on_conflict_do_nothing in Hstep.
      destruct (existsb _ _); injection Hstep as <-; simpl;
        (repeat split; [done | done |]); by apply Forall_insert.
    + injection Hstep as <-. simpl. rewrite tally_app. simpl.
      destruct (about k event_data) eqn:Hk.
      { destruct (Hread Hk) as [r Hsome]. by rewrite Hr in Hsome. }
      repeat split; [lia | done |]. by apply Forall_insert.
  - destruct (consumers s !! w) as [[| |event_data result]|] eqn:Hw; try done.
    unfold count_result in Hstep.
    destruct (String.eqb result "INSERT 0 1");
      injection Hstep as <-; simpl; rewrite tally_app; simpl;
      (repeat split; [lia | done |]); by apply Forall_insert.
Qed.

Lemma run_accounting (sched : list label) (s s' : System) (n : nat) :
  run fromisoformat sched s = Some s' →
  accounting k n s →
  accounting k (n + tally (has_key k) (published sched)) s'.
Proof.
  revert s n. induction sched as [|l rest IH]; intros s n Hrun Hacc.
  - injection Hrun as <-. simpl. by rewrite Nat.add_0_r.
  - simpl in Hrun. destruct (step fromisoformat l s) as [s1|] eqn:Hstep; [|done].
    simpl in Hrun. unfold published. rewrite bind_cons, tally_app.
    rewrite Nat.add_assoc. apply (IH s1); [done |].
    by eapply step_accounting.
Qed.

Lemma run_unharmed (sched : list label) (s s' : System) :
  run fromisoformat sched s = Some s' →
  forallb storage_ok sched = true →
  Forall (storable fromisoformat k) (published sched) →
  unharmed fromisoformat k s →
  unharmed fromisoformat k s'.
Proof.
  revert s. induction sched as [|l rest IH]; intros s Hrun Hok Hpub Hs.
  - by injection Hrun as <-.
  - simpl in Hrun. destruct (step fromisoformat l s) as [s1|] eqn:Hstep; [|done].
    simpl in Hrun, Hok. apply andb_true_iff in Hok as [Hl Hrest].
    unfold published in Hpub. rewrite bind_cons in Hpub.
    apply Forall_app in Hpub as [Hsent Hpub].
    apply (IH s1); [done | done | done |]. by eapply step_unharmed.
Qed.

Lemma boot_accounting (tbl : list Row) :
  tally (same_key k) tbl = 0%nat → accounting k 0 (boot tbl).
Proof. intros H. unfold accounting. simpl. rewrite H. repeat split; lia. Qed.

Lemma boot_unharmed (tbl : list Row) : unharmed fromisoformat k (boot tbl).
Proof.
  unfold unharmed. simpl. repeat split; [done |].
  repeat constructor; by intros ? [=].
Qed.

(** Where the consumers have nothing left to do, every message of the pair
    is accounted for by a log line. *)
Lemma drained_tallies (s : System) :
  drained s →
  tally (about k) (event_queue s) = 0%nat
  ∧ tally (holds k) (consumers s) = 0%nat
  ∧ tally (got_inserted k) (consumers s) = 0%nat
  ∧ tally (got_conflict k) (consumers s) = 0%nat.
Proof.
  intros [Hq Hw]. rewrite Hq. split; [done |].
  repeat split; apply tally_none;
    (eapply Forall_impl; [exact Hw |]); by intros ? ->.
Qed.

(** The outcome for one new pair once the system is drained: one row, one
    [Processed] line, and a [DuplicateDropped] line for every further
    message. *)
Lemma drained_pair (tbl : list Row) (sched : list label) (s : System) :
  tally (same_key k) tbl = 0%nat →
  run fromisoformat sched (boot tbl) = Some s →
  drained s →
  forallb storage_ok sched = true →
  Forall (storable fromisoformat k) (published sched) →
  (1 ≤ tally (has_key k) (published sched))%nat →
  tally (same_key k) (events s) = 1%nat
  ∧ tally (processed_for k) (log s) = 1%nat
  ∧ tally (duplicate_for k) (log s)
    = (tally (has_key k) (published sched) - 1)%nat.
Proof.
  intros Hnew Hrun Hdr Hok Hpub HK.
  pose proof (run_accounting _ _ _ _ Hrun (boot_accounting _ Hnew))
    as (Hn & Hrows & Hle & Hdup).
  pose proof (run_unharmed _ _ _ Hrun Hok Hpub (boot_unharmed _))
    as (Herr & _ & _).
  destruct (drained_tallies _ Hdr) as (Hq & Hh & Hi & Hc).
  rewrite Hq, Hh, Hi, Hc, Herr in Hn. rewrite Hi in Hrows. rewrite Hc in Hdup.
  simpl in *. lia.
Qed.

End Unharmed.

(** ** Conservation of events *)

Lemma concat_delete_length {A : Type} (ls : list (list A)) (i : nat) (l : list A) :
  ls !! i = Some l →
  (length (concat (delete i ls)) + length l = length (concat ls))%nat.
Proof.
  revert i. induction ls as [|x ls IH]; intros [|i] Hi; simpl in *; try done.
  - injection Hi as ->. rewrite length_app. lia.
  - specialize (IH i Hi). rewrite !length_app. lia.
Qed.

(** Every log line is of exactly one kind. *)
Lemma log_partition (lg : list log_record) :
  (tally is_processed lg + tally is_duplicate lg + tally is_error lg
   = length lg)%nat.
Proof. induction lg as [|[] lg IH]; simpl; lia. Qed.

Section Conservation.

Variable fromisoformat : string → option datetime.

(** The lost events of a schedule, transition by transition. *)
Lemma step_lost (l : label) (s s' : System) (rest : list label) :
  step fromisoformat l s = Some s' →
  lost_from (requests s) (l :: rest)
  = lost_from (requests s) [l] ++ lost_from (requests s') rest.
Proof.
  intros Hstep.
  destruct l as [event | event error | i | i error | w | w | w ok | w]; simpl in Hstep.
  - rewrite publish_enqueue_up in Hstep. by injection Hstep as <-.
  - destruct (publish_enqueue _ _ _) as [? [?|]]; [|done]. by injection Hstep as <-.
  - destruct (requests s !! i); [|done]. by injection Hstep as <-.
  - destruct (requests s !! i) as [[|e0 evs]|]; try done.
    injection Hstep as <-. simpl. by rewrite app_nil_r.
  - destruct (consumers s !! w) as [[| |]|]; try done.
    destruct (event_queue s); [done |]. by injection Hstep as <-.
  - destruct (consumers s !! w) as [[| |]|]; try done.
    by injection Hstep as <-.
  - destruct (consumers s !! w) as [[|event_data|]|]; try done.
    destruct (execute_insert _ _ _) as [[? ?]|]; [destruct ok|];
      by injection Hstep as <-.
  - destruct (consumers s !! w) as [[| |event_data result]|]; try done.
    destruct (count_result _ _ _). by injection Hstep as <-.
Qed.

Lemma step_conservation (l : label) (s s' : System) (unseen : Z) :
  step fromisoformat l s = Some s' →
  conservation unseen s →
  conservation (unseen + Z.of_nat (length (lost_from (requests s) [l]))) s'
  ∧ ∀ rest, lost_from (requests s) (l :: rest)
            = lost_from (requests s) [l] ++ lost_from (requests s') rest.
Proof.
  unfold conservation, uncounted. intros Hstep (Hrec & Hps & Hdd).
  destruct l as [event | event error | i | i error | w | w | w ok | w]; simpl in Hstep.
  - rewrite publish_enqueue_up in Hstep. injection Hstep as <-. simpl.
    rewrite concat_app, !length_app, length_fmap. simpl.
    rewrite app_nil_r. repeat split; [lia | done | done].
  - destruct (publish_enqueue _ _ _) as [? [?|]]; [|done]. injection Hstep as <-.
    simpl. repeat split; [lia | done | done].
  - destruct (requests s !! i) as [evs|] eqn:Hi; [|done].
    injection Hstep as <-. simpl.
    pose proof (concat_delete_length _ _ _ Hi). repeat split; [lia | done | done].
  - destruct (requests s !! i) as [[|e0 evs]|] eqn:Hi; try done.
    injection Hstep as <-. simpl. rewrite Hi. simpl.
    pose proof (concat_delete_length _ _ _ Hi). simpl in *.
    rewrite app_nil_r. repeat split; [lia | done | done].
  - destruct (consumers s !! w) as [[| |]|] eqn:Hw; try done.
    destruct (event_queue s) as [|raw q] eqn:Hq; [done |].
    injection Hstep as <-. simpl in *.
    pose proof (tally_insert busy _ _ (Decoded raw) _ Hw). simpl in *.
    repeat split; [lia | done | done].
  - destruct (consumers s !! w) as [[| |]|]; try done.
    injection Hstep as <-. simpl. repeat split; [lia | done | done].
  - destruct (consumers s !! w) as [[|event_data|]|] eqn:Hw; try done.
    rewrite execute_stored in Hstep.
    destruct (stored_row fromisoformat event_data) as [r|];
      [destruct ok|]; simpl in Hstep.
    + unfold on_conflict_do_nothing in Hstep.
      destruct (existsb _ _); injection Hstep as <-; simpl in *.
      * pose proof (tally_insert busy _ _ (Executed event_data "INSERT 0 0") _ Hw).
        simpl in *. repeat split; [lia | done | done].
      * pose proof (tally_insert busy _ _ (Executed event_data "INSERT 0 1") _ Hw).
        simpl in *. repeat split; [lia | done | done].
    + destruct (on_conflict_do_nothing _ _) as [? ?].
      injection Hstep as <-. simpl in *.
      pose proof (tally_insert busy _ _ Waiting _ Hw). simpl in *.
      rewrite !tally_app, length_app. simpl. repeat split; lia.
    + injection Hstep as <-. simpl in *.
      pose proof (tally_insert busy _ _ Waiting _ Hw). simpl in *.
      rewrite !tally_app, length_app. simpl. repeat split; lia.
  - destruct (consumers s !! w) as [[| |event_data result]|] eqn:Hw; try done.
    unfold count_result in Hstep.
    pose proof (tally_insert busy _ _ Waiting _ Hw). simpl in *.
    destruct (String.eqb result "INSERT 0 1");
      injection Hstep as <-; simpl in *;
      rewrite !tally_app, length_app; simpl; repeat split; lia.
Qed.

Lemma run_conservation (sched : list label) (s s' : System) (unseen : Z) :
  run fromisoformat sched s = Some s' →
  conservation unseen s →
  conservation (unseen + Z.of_nat (length (lost_from (requests s) sched))) s'.
Proof.
  revert s unseen. induction sched as [|l rest IH]; intros s unseen Hrun Hs.
  - injection Hrun as <-. simpl. by rewrite Z.add_0_r.
  - simpl in Hrun. destruct (step fromisoformat l s) as [s1|] eqn:Hstep; [|done].
    simpl in Hrun.
    destruct (step_conservation _ _ _ _ Hstep Hs) as [Hs1 Hlost].
    rewrite Hlost, length_app, Nat2Z.inj_add, Z.add_assoc.
    by apply (IH s1).
Qed.

Lemma restart_conservation (tbl : list Row) (q : list json) :
  conservation (Z.of_nat (length q)) (restart tbl q).
Proof. unfold conservation, uncounted. simpl. repeat split; lia. Qed.

Lemma boot_conservation (tbl : list Row) : conservation 0 (boot tbl).
Proof. apply (restart_conservation tbl []). Qed.

(** The counters of a running process: what [publish_event] has counted or
    is about to count, with the events of the requests whose reply was
    lost and the messages found on the list at start-up, covers what the
    consumers have counted. *)
Lemma received_covers_consumed (tbl : list Row) (q : list json)
    (sched : list label) (s : System) :
  run fromisoformat sched (restart tbl q) = Some s →
  processed_success (stats s) + duplicates_dropped (stats s)
    + Z.of_nat (tally is_error (log s))
  ≤ received (stats s) + uncounted s + Z.of_nat (length (lost sched))
    + Z.of_nat (length q).
Proof.
  intros Hrun.
  destruct (run_conservation _ _ _ _ Hrun (restart_conservation tbl q))
    as (Hrec & -> & ->).
  pose proof (log_partition (log s)). unfold lost. simpl in Hrec. lia.
Qed.

End Conservation.

(** ** The consumers can always finish *)

Lemma sum_owed_insert (l : list worker) (i : nat) (x y : worker) :
  l !! i = Some y →
  (owed_all (<[i:=x]> l) + owed y
   = owed_all l + owed x)%nat.
Proof.
  revert i. induction l as [|z l IH]; intros [|i] Hi; simpl in *; try done.
  - injection Hi as ->. lia.
  - specialize (IH i Hi). lia.
Qed.

Lemma sum_owed_pos (l : list worker) :
  (0 < owed_all l)%nat →
  ∃ i w, l !! i = Some w ∧ (0 < owed w)%nat.
Proof.
  induction l as [|z l IH]; simpl; [lia |]. intros Hpos.
  destruct (owed z) eqn:Hz.
  - destruct IH as (i & w & Hi & Hw); [lia |]. by exists (S i), w.
  - exists 0%nat, z. split; [done | lia].
Qed.

Lemma sum_owed_zero (l : list worker) :
  owed_all l = 0%nat → Forall (λ w, w = Waiting) l.
Proof.
  induction l as [|z l IH]; simpl; [constructor |]. intros Hsum.
  constructor; [destruct z; simpl in Hsum; [done | lia | lia] | apply IH; lia].
Qed.

Lemma backlog_zero_drained (s : System) : backlog s = 0%nat → drained s.
Proof.
  unfold backlog, drained. intros H. split.
  - destruct (event_queue s); [done | simpl in H; lia].
  - apply sum_owed_zero. lia.
Qed.

Section Progress.

Variable fromisoformat : string → option datetime.

Lemma run_app (sched1 sched2 : list label) (s : System) :
  run fromisoformat (sched1 ++ sched2) s
  = run fromisoformat sched1 s ≫= run fromisoformat sched2.
Proof.
  revert s. induction sched1 as [|l sched1 IH]; intros s; simpl; [done |].
  destruct (step fromisoformat l s); simpl; [apply IH | done].
Qed.

(** While something is queued or held, some consumer can take a
    transition that publishes nothing, meets no storage error and reduces
    the backlog. *)
Lemma drain_step (s : System) :
  (0 < length (consumers s))%nat →
  (0 < backlog s)%nat →
  ∃ l s', step fromisoformat l s = Some s'
          ∧ sent l = [] ∧ storage_ok l = true
          ∧ (backlog s' < backlog s)%nat
          ∧ length (consumers s') = length (consumers s).
Proof.
  unfold backlog. intros Hlen Hpos.
  destruct (Nat.eq_dec (owed_all (consumers s)) 0%nat) as [Hidle | Hbusy].
  - destruct (event_queue s) as [|raw q] eqn:Hq; [simpl in Hpos; lia |].
    destruct (consumers s) as [|w0 ws] eqn:Hc; [simpl in Hlen; lia |].
    apply sum_owed_zero in Hidle. apply Forall_cons in Hidle as [-> _].
    exists (Pop 0%nat). eexists. simpl. rewrite Hc, Hq. simpl.
    split; [reflexivity |]. simpl. repeat split; lia.
  - destruct (sum_owed_pos (consumers s)) as (i & w & Hi & Hw); [lia |].
    destruct w as [|event_data|event_data result]; simpl in Hw; [lia | |].
    + exists (Execute i true). simpl. rewrite Hi, execute_stored.
      destruct (stored_row fromisoformat event_data) as [r|]; simpl.
      * unfold on_conflict_do_nothing.
        destruct (existsb _ _); eexists; (split; [reflexivity |]); simpl;
          rewrite length_insert;
          [pose proof (sum_owed_insert _ _
             (Executed event_data "INSERT 0 0") _ Hi)
          |pose proof (sum_owed_insert _ _
             (Executed event_data "INSERT 0 1") _ Hi)];
          simpl in *; repeat split; lia.
      * eexists. split; [reflexivity |]. simpl. rewrite length_insert.
        pose proof (sum_owed_insert _ _ Waiting _ Hi).
        simpl in *. repeat split; lia.
    + exists (Resume i). simpl. rewrite Hi. unfold count_result.
      destruct (String.eqb result "INSERT 0 1"); eexists;
        (split; [reflexivity |]); simpl; rewrite length_insert;
        pose proof (sum_owed_insert _ _ Waiting _ Hi);
        simpl in *; repeat split; lia.
Qed.

(** From every state with at least one consumer the system can be drained
    by the consumers alone. *)
Lemma can_drain (s : System) :
  (0 < length (consumers s))%nat →
  ∃ rest s', run fromisoformat rest s = Some s'
             ∧ drained s'
             ∧ published rest = []
             ∧ forallb storage_ok rest = true.
Proof.
  remember (backlog s) as n eqn:Hn. revert s Hn.
  induction n as [n IH] using lt_wf_ind. intros s -> Hlen.
  destruct (Nat.eq_dec (backlog s) 0%nat) as [Hzero | Hpos].
  - exists [], s. split; [done |]. split; [by apply backlog_zero_drained | done].
  - destruct (drain_step s Hlen) as (l & s1 & Hstep & Hsent & Hok & Hlt & Hl1);
      [lia |].
    destruct (IH (backlog s1) Hlt s1 eq_refl) as (rest & s' & Hrun & Hdr & Hpub & Hoks);
      [lia |].
    exists (l :: rest), s'.
    split; [simpl; by rewrite Hstep |]. split; [done |]. split.
    + unfold published in *. by rewrite bind_cons, Hsent, Hpub.
    + simpl. by rewrite Hok, Hoks.
Qed.

Lemma step_consumers_length (l : label) (s s' : System) :
  step fromisoformat l s = Some s' →
  length (consumers s') = length (consumers s).
Proof.
  intros Hstep.
  destruct l as [event | event error | i | i error | w | w | w ok | w]; simpl in Hstep.
  - destruct (publish_enqueue _ _ _) as [? [?|]]; [done |]. by injection Hstep as <-.
  - destruct (publish_enqueue _ _ _) as [? [?|]]; [|done]. by injection Hstep as <-.
  - destruct (requests s !! i); [|done]. by injection Hstep as <-.
  - destruct (requests s !! i) as [[|e0 evs]|]; try done.
    by injection Hstep as <-.
  - destruct (consumers s !! w) as [[| |]|]; try done.
    destruct (event_queue s); [done |]. injection Hstep as <-.
    simpl. by rewrite length_insert.
  - destruct (consumers s !! w) as [[| |]|]; try done.
    by injection Hstep as <-.
  - destruct (consumers s !! w) as [[|event_data|]|]; try done.
    rewrite execute_stored in Hstep.
    destruct (stored_row fromisoformat event_data) as [r|];
      [destruct ok|]; simpl in Hstep.
    + unfold on_conflict_do_nothing in Hstep.
      destruct (existsb _ _); injection Hstep as <-; simpl;
        by rewrite length_insert.
    + destruct (on_conflict_do_nothing _ _) as [? ?].
      injection Hstep as <-. simpl. by rewrite length_insert.
    + injection Hstep as <-. simpl. by rewrite length_insert.
  - destruct (consumers s !! w) as [[| |event_data result]|]; try done.
    unfold count_result in Hstep.
    destruct (String.eqb result "INSERT 0 1"); injection Hstep as <-; simpl;
      by rewrite length_insert.
Qed.

Lemma run_consumers_length (sched : list label) (s s' : System) :
  run fromisoformat sched s = Some s' →
  length (consumers s') = length (consumers s).
Proof.
  revert s. induction sched as [|l rest IH]; intros s Hrun.
  - by injection Hrun as <-.
  - simpl in Hrun. destruct (step fromisoformat l s) as [s1|] eqn:Hstep; [|done].
    simpl in Hrun. rewrite (IH s1 Hrun). by eapply step_consumers_length.
Qed.

(** Every state a process reaches can be drained by its consumers. *)
Lemma reachable_can_drain (tbl : list Row) (sched : list label) (s : System) :
  run fromisoformat sched (boot tbl) = Some s →
  ∃ rest s', run fromisoformat (sched ++ rest) (boot tbl) = Some s'
             ∧ drained s'
             ∧ published (sched ++ rest) = published sched
             ∧ forallb storage_ok rest = true.
Proof.
  intros Hrun.
  destruct (can_drain s) as (rest & s' & Hrest & Hdr & Hpub & Hok).
  { rewrite (run_consumers_length _ _ _ Hrun). simpl. lia. }
  exists rest, s'. rewrite run_app, Hrun. simpl.
  split; [done |]. split; [done |]. split; [|done].
  unfold published in *. by rewrite bind_app, Hpub, app_nil_r.
Qed.

End Progress.

(** ** The loop body and its transitions *)

(** A pass of the loop run without interruption by a waiting consumer is a
    schedule of that consumer's transitions. *)
Lemma start_consumer_run
    (fromisoformat : string → option datetime)
    (w : nat) (ok : bool) (s : System) :
  consumers s !! w = Some Waiting →
  ∃ sched, run fromisoformat sched s = Some (start_consumer fromisoformat ok s)
           ∧ (sched = [PopTimeout w] ∨ sched = [Pop w; Execute w ok]
              ∨ sched = [Pop w; Execute w ok; Resume w]).
Proof.
  intros Hw. unfold start_consumer.
  assert (w < length (consumers s))%nat as Hlt by by eapply lookup_lt_Some.
  destruct (event_queue s) as [|raw q] eqn:Hq.
  - exists [PopTimeout w]. split; [|by left]. simpl. by rewrite Hw.
  - destruct (execute_insert fromisoformat raw (events s))
      as [[tbl result]|] eqn:Hr; [destruct ok|].
    + exists [Pop w; Execute w true; Resume w]. split; [|by right; right].
      simpl. rewrite Hw, Hq. simpl.
      rewrite list_lookup_insert_eq by done. rewrite Hr.
      simpl. rewrite list_lookup_insert_eq by by rewrite length_insert.
      destruct (count_result raw result (stats s)) as [st line]. simpl.
      by rewrite !list_insert_insert_eq, list_insert_id.
    + exists [Pop w; Execute w false]. split; [|by right; left].
      simpl. rewrite Hw, Hq. simpl.
      rewrite list_lookup_insert_eq by done. rewrite Hr. simpl.
      by rewrite !list_insert_insert_eq, list_insert_id.
    + exists [Pop w; Execute w ok]. split; [|by right; left].
      simpl. rewrite Hw, Hq. simpl.
      rewrite list_lookup_insert_eq by done. rewrite Hr. simpl.
      by rewrite !list_insert_insert_eq, list_insert_id.
Qed.

(** ** The scenarios of the integration tests *)

Example test_04_publish_empty_payload (b : broker) (s : System) :
  post_publish (JObj []) b s
  = (s, Response 422 (JObj [("detail", JStr "validation error")])).
Proof. reflexivity. Qed.

Example test_03_publish_invalid_types (b : broker) (s : System) :
  post_publish
    (JObj [("topic", JNum 12345); ("event_id", JStr "a");
           ("timestamp", JStr "2024-01-01T00:00:00");
           ("source", JStr "pytest-runner"); ("payload", JObj [])]) b s
  = (s, Response 422 (JObj [("detail", JStr "validation error")])).
Proof. reflexivity. Qed.

Example test_07_batch_publish_mixed :
  snd (post_publish (JArr (model_dump_json <$> [ev_c; ev_a; ev_a])) Up (boot []))
    = Response 200 (JObj [("status", JStr "queued"); ("count", JNum 3)])
  ∧ run isoformat_parser mixed_batch (boot []) = Some mixed_batch_final
  ∧ row_key <$> events mixed_batch_final = [("t", "c"); ("t", "a")]
  ∧ stats mixed_batch_final = mkStats 3 2 1.
Proof. repeat split; vm_compute; reflexivity. Qed.

(** * The claims *)

(** The events of a sample schedule are events the consumer can store. *)
Ltac sample_storable :=
  match goal with
  | |- Forall _ ?l => let l' := eval vm_compute in l in change l with l'
  end;
  repeat (apply Forall_cons; split;
          [intros _; split;
           [eexists; vm_compute; reflexivity
           |split; [eexists; vm_compute; reflexivity | vm_compute; reflexivity]]
          |]);
  constructor.

(** ** Deduplication *)

(** C1 (idempotence), where the claim as written fails: a pair the table
    already holds when the process starts.  [ev_a] is published once
    (K = 1) to a process whose table holds [row_a]; the INSERT meets the
    conflict, so once the consumers have nothing left to do the single
    publication was counted as a duplicate: no increment of
    [processed_success] and one of [duplicates_dropped], where the claim
    names one and K - 1 = 0. *)
Theorem stored_pair_only_duplicates :
  run isoformat_parser already_stored (boot [row_a]) = Some already_stored_final
  ∧ drained already_stored_final
  ∧ published already_stored = [ev_a]
  ∧ tally (has_key ("t", "a")) (published already_stored) = 1%nat
  ∧ tally (same_key ("t", "a")) (events already_stored_final) = 1%nat
  ∧ tally (processed_for ("t", "a")) (log already_stored_final) = 0%nat
  ∧ tally (duplicate_for ("t", "a")) (log already_stored_final) = 1%nat
  ∧ processed_success (stats already_stored_final) = 0
  ∧ duplicates_dropped (stats already_stored_final) = 1
  ∧ ¬ deduplicated ("t", "a") 1 already_stored_final.
Proof.
  split; [vm_compute; reflexivity |].
  split; [split; [reflexivity | repeat constructor] |].
  do 7 (split; [reflexivity |]).
  intros (_ & Hprocessed & _). vm_compute in Hprocessed. discriminate.
Qed.

(** C1 (idempotence), as the code has it.  A process starts on an empty
    list and a table that does not hold the pair [k]; [K >= 1] of the
    published events are stored under [k], sent by any requests, among any
    other events, and consumed under any schedule.  Each of the [K] events
    is one the consumer can store (the parser reads its timestamp, its
    source has at most 255 characters, its payload is one JSONB takes) and
    no INSERT raises a storage error.  Whenever the consumers have nothing
    left to do, the table holds exactly one row of the pair, exactly one
    [processed_success] increment was made for the pair and K - 1
    [duplicates_dropped] increments; and from the state reached the
    consumers can always get there.

    An event is stored under the pair of its topic and event_id when both
    have at most 255 characters and no NUL; the store cuts spaces beyond
    the 255th character, so an event whose topic or event_id is longer by
    spaces only is stored under the pair of the cut texts and counts among
    the [K]. *)
Theorem idempotent_persistence
    (fromisoformat : string → option datetime) (k : Key) (K : nat)
    (tbl : list Row) (sched : list label) (s : System) :
  tally (same_key k) tbl = 0%nat →
  run fromisoformat sched (boot tbl) = Some s →
  forallb storage_ok sched = true →
  Forall (storable fromisoformat k) (published sched) →
  tally (has_key k) (published sched) = K →
  (1 ≤ K)%nat →
  (drained s → deduplicated k K s)
  ∧ (∃ rest s', run fromisoformat (sched ++ rest) (boot tbl) = Some s'
                ∧ published (sched ++ rest) = published sched
                ∧ drained s'
                ∧ deduplicated k K s')
  ∧ (∀ e, plain_key (event_key e) = true →
          has_key k e = bool_decide (event_key e = k)).
Proof.
  intros Hnew Hrun Hok Hpub <- HK.
  assert (∀ sched' s',
            run fromisoformat sched' (boot tbl) = Some s' →
            forallb storage_ok sched' = true →
            published sched' = published sched →
            drained s' →
            deduplicated k (tally (has_key k) (published sched)) s') as Hany.
  { intros sched' s' Hrun' Hok' Hsame Hdr.
    destruct (drained_pair fromisoformat k tbl sched' s') as (H1 & H2 & H3);
      rewrite ?Hsame; try done.
    destruct (run_conservation _ _ _ _ _ Hrun' (boot_conservation tbl))
      as (_ & Hps & Hdd).
    rewrite Hsame in H3. by repeat split. }
  split; [intros Hdr; by apply (Hany sched s) |].
  split; [| intros e He; by apply has_key_plain].
  destruct (reachable_can_drain fromisoformat tbl sched s Hrun)
    as (rest & s' & Hrun' & Hdr & Hsame & Hok').
  exists rest, s'. split; [done |]. split; [done |]. split; [done |].
  apply (Hany (sched ++ rest) s'); try done.
  by rewrite forallb_app, Hok, Hok'.
Qed.

Lemma idempotent_persistence_witness :
  run isoformat_parser twice (boot []) = Some twice_final
  ∧ tally (same_key ("t", "a")) (events twice_final) = 1%nat
  ∧ tally (processed_for ("t", "a")) (log twice_final) = 1%nat
  ∧ tally (duplicate_for ("t", "a")) (log twice_final) = 1%nat
  ∧ processed_success (stats twice_final) = 1
  ∧ duplicates_dropped (stats twice_final) = 1.
Proof.
  split; [vm_compute; reflexivity |].
  apply (idempotent_persistence isoformat_parser ("t", "a") 2 [] twice twice_final).
  - reflexivity.
  - vm_compute; reflexivity.
  - reflexivity.
  - sample_storable.
  - reflexivity.
  - lia.
  - split; [reflexivity | repeat constructor].
Defined.






(** ** Counters *)

(** C3 (counter consistency), at the schedule where it fails.  The handler adds
    to [received] only when the request resumes after [pipe.execute()],
    while the message is on the list from the moment the broker applied the
    pipeline.  Under the schedule [overtaken] a consumer has counted the
    event before the request has: [GET /stats] then reports [received = 0]
    and [unique_processed = 1], and [received >= processed_success +
    duplicates_dropped] does not hold. *)
Theorem received_overtaken :
  ∃ s, run isoformat_parser overtaken (boot []) = Some s
       ∧ requests s = [[ev_a]]
       ∧ view_received (get_stats 1 s) = 0
       ∧ view_unique_processed (get_stats 1 s) = 1
       ∧ view_duplicate_dropped (get_stats 1 s) = 0
       ∧ ¬ (processed_success (stats s) + duplicates_dropped (stats s)
            ≤ received (stats s)).
Proof.
  eexists. split; [reflexivity |]. simpl. repeat split. lia.
Qed.

(** ** Storage errors *)



(** ** Ingestion *)

(** C5 (batch acceptance).  A request carries the M validated events [es]:
    a list of them, or a single event (M = 1).
    - With the broker reachable the handler answers 200 with status
      "queued" and count M, the M events are at the tail of the list in
      request order, [received] has grown by M, and nothing else changed.
    - The handler is the two transitions [PublishSend] and [PublishReturn]:
      after the first the events are on the list and [received] is as
      before, the second adds M.
    - When [pipe.execute()] raises (M >= 1) the handler answers 500 and
      [received], as every counter, is as before.  With the broker
      unreachable the whole state is as before.  When the broker applied
      the pipeline and its reply was lost, the M events are on the list all
      the same: the handler is [PublishSend] followed by [PublishFail].
    - Whatever the broker does, the answer is 200 with [received] grown by
      M, or 500 with [received] unchanged. *)
Theorem batch_acceptance
    (fromisoformat : string → option datetime)
    (event : body) (es : list LogEvent) (s : System) (error : string) :
  event = Batch es ∨ (∃ e, event = Single e ∧ es = [e]) →
  let M := Z.of_nat (length es) in
  let s' := fst (publish_event event Up s) in
  let lost := fst (publish_event event (ReplyLost error) s) in
  snd (publish_event event Up s)
    = Response 200 (JObj [("status", JStr "queued"); ("count", JNum M)])
  ∧ event_queue s' = event_queue s ++ (model_dump_json <$> es)
  ∧ received (stats s') = received (stats s) + M
  ∧ processed_success (stats s') = processed_success (stats s)
  ∧ duplicates_dropped (stats s') = duplicates_dropped (stats s)
  ∧ events s' = events s ∧ consumers s' = consumers s ∧ log s' = log s
  ∧ (∃ s1, step fromisoformat (PublishSend event) s = Some s1
           ∧ event_queue s1 = event_queue s ++ (model_dump_json <$> es)
           ∧ stats s1 = stats s
           ∧ requests s1 = requests s ++ [es]
           ∧ step fromisoformat (PublishReturn (length (requests s))) s1
             = Some s')
  ∧ (es ≠ [] →
     publish_event event (Down error) s
       = (s, Response 500 (JObj [("detail", JStr error)]))
     ∧ step fromisoformat (PublishDown event error) s = Some s
     ∧ snd (publish_event event (ReplyLost error) s)
       = Response 500 (JObj [("detail", JStr error)])
     ∧ stats lost = stats s
     ∧ event_queue lost = event_queue s ++ (model_dump_json <$> es)
     ∧ events lost = events s ∧ consumers lost = consumers s
     ∧ log lost = log s ∧ requests lost = requests s
     ∧ ∃ s1, step fromisoformat (PublishSend event) s = Some s1
             ∧ step fromisoformat (PublishFail (length (requests s)) error) s1
               = Some lost)
  ∧ (∀ b, (snd (publish_event event b s)
             = Response 200 (JObj [("status", JStr "queued"); ("count", JNum M)])
           ∧ received (stats (fst (publish_event event b s)))
             = received (stats s) + M)
          ∨ ((∃ detail, snd (publish_event event b s) = Response 500 detail)
             ∧ stats (fst (publish_event event b s)) = stats s)).
Proof.
  intros Hevent M s' lost.
  assert (events_to_process event = es) as Hes.
  { by destruct Hevent as [-> | (e & -> & ->)]. }
  subst s' lost. unfold publish_event.
  rewrite publish_enqueue_up. simpl. rewrite Hes. fold M.
  split; [done |]. split; [done |]. split; [done |].
  do 5 (split; [done |]).
  split; [| split].
  - eexists. simpl. rewrite publish_enqueue_up. split; [reflexivity |].
    simpl. rewrite Hes. repeat split.
    rewrite list_lookup_middle by done. simpl.
    by rewrite delete_middle, app_nil_r.
  - intros Hne. unfold publish_enqueue, pipe_execute. rewrite Hes.
    destruct es as [|e rest] eqn:Hevs; [done |]. csimpl.
    split; [by destruct s |]. do 8 (split; [done |]).
    eexists. split; [reflexivity |]. simpl.
    rewrite list_lookup_middle by done. simpl.
    by rewrite delete_middle, app_nil_r.
  - intros b. unfold publish_enqueue, pipe_execute. rewrite Hes.
    destruct es as [|e rest] eqn:Hevs, b as [|err|err]; csimpl;
      try (left; by split); right; (split; [by eexists | done]).
Qed.

Lemma batch_acceptance_witness :
  publish_event (Batch [ev_a; ev_c; ev_a]) (Down "Connection refused") (boot [])
    = (boot [], Response 500 (JObj [("detail", JStr "Connection refused")]))
  ∧ snd (publish_event (Batch [ev_a; ev_c; ev_a]) Up (boot []))
    = Response 200 (JObj [("status", JStr "queued"); ("count", JNum 3)])
  ∧ received (stats (fst (publish_event (Batch [ev_a; ev_c; ev_a]) Up (boot []))))
    = 3.
Proof.
  destruct (batch_acceptance isoformat_parser (Batch [ev_a; ev_c; ev_a])
              [ev_a; ev_c; ev_a] (boot []) "Connection refused")
    as (Hresp & _ & Hrec & _ & _ & _ & _ & _ & _ & Hdown & _).
  - left; reflexivity.
  - split; [| split; [exact Hresp | exact Hrec]].
    apply Hdown. discriminate.
Defined.

(** C9 (empty batch).  The body [[]] passes validation as an empty list of
    events; the handler answers 200 with status "queued" and count 0
    whatever the state of the broker, and leaves the list and [received],
    as the whole state, unchanged. *)
Theorem empty_batch_accepted (b : broker) (s : System) :
  validate_body (JArr []) = Some (Batch [])
  ∧ post_publish (JArr []) b s
    = (s, Response 200 (JObj [("status", JStr "queued"); ("count", JNum 0)])).
Proof.
  split; [reflexivity |].
  unfold post_publish, publish_event. simpl.
  destruct s as [q tbl [r p d] rq c lg]. simpl.
  by rewrite Z.add_0_r.
Qed.

(** ** Query surface *)

#[local] Instance newer_first_trans : Transitive newer_first.
Proof. intros r1 r2 r3. unfold newer_first. lia. Qed.

#[local] Instance newer_first_total : Total newer_first.
Proof. intros r1 r2. unfold newer_first. lia. Qed.

(** The page [get_events] returns: the first 50 rows of the [selected] rows
    put newest first. *)
Lemma page_spec (selected : list Row) :
  let page := take 50 (merge_sort newer_first selected) in
  StronglySorted newer_first page
  ∧ (length page ≤ 50)%nat
  ∧ page ⊆ selected
  ∧ ∃ older, StronglySorted newer_first (page ++ older)
             ∧ page ++ older ≡ₚ selected.
Proof.
  intros page. subst page.
  pose proof (StronglySorted_merge_sort newer_first selected) as Hsorted.
  pose proof (merge_sort_Permutation newer_first selected) as Hperm.
  rewrite <- (take_drop 50 (merge_sort newer_first selected)) in Hsorted, Hperm.
  repeat split.
  - by eapply StronglySorted_app_1_l.
  - rewrite length_take. lia.
  - intros r Hr. rewrite <- Hperm. apply elem_of_app. by left.
  - by exists (drop 50 (merge_sort newer_first selected)).
Qed.

(** C6, the claim as stated, fails on the empty topic: [if topic:] is false
    for the empty string, no WHERE clause is added, and
    [GET /events?topic=] returns rows of every topic. *)
Lemma empty_topic_unfiltered :
  ¬ (∀ (tbl : list Row) (T : string),
       Forall (λ r, row_topic r = T) (get_events (Some T) tbl)).
Proof.
  intros H. specialize (H sample_table "").
  apply Forall_inv in H. discriminate H.
Qed.

(** C6 (filter correctness), amended.  Whatever the table and the
    parameter, the result is ordered by timestamp descending, has at most 50
    rows, and consists of rows of the table.  For a non-empty topic T it is
    the first 50, newest first, of the rows whose topic is exactly T, so it
    holds only such rows; without a topic, or with the empty one, it is the
    first 50 of all rows. *)
Theorem list_events_filter (topic : option string) (tbl : list Row) :
  let result := get_events topic tbl in
  StronglySorted newer_first result
  ∧ (length result ≤ 50)%nat
  ∧ result ⊆ tbl
  ∧ (∀ T, topic = Some T → T ≠ "" →
       Forall (λ r, row_topic r = T) result
       ∧ ∃ older, StronglySorted newer_first (result ++ older)
                  ∧ result ++ older ≡ₚ filter (λ r, row_topic r = T) tbl)
  ∧ (topic = None ∨ topic = Some "" →
       ∃ older, StronglySorted newer_first (result ++ older)
                ∧ result ++ older ≡ₚ tbl).
Proof.
  intros result. subst result. unfold get_events.
  set (selected := match topic with
                   | Some t => if truthy t
                               then filter (λ r, row_topic r = t) tbl else tbl
                   | None => tbl
                   end).
  destruct (page_spec selected) as (Hsorted & Hlen & Hsub & Hpage).
  assert (selected ⊆ tbl) as Hsel.
  { subst selected. destruct topic as [t|]; [|done].
    destruct (truthy t); [|done]. intros r Hr.
    by apply list_elem_of_filter in Hr as [_ Hr]. }
  repeat split; try done.
  - by etrans.
  - subst selected. destruct topic as [t|]; [|done].
    injection H as ->. destruct T; [done |]. simpl in *.
    apply Forall_forall. intros r Hr. apply Hsub in Hr.
    by apply list_elem_of_filter in Hr as [Hr _].
  - subst selected. destruct topic as [t|]; [|done].
    injection H as ->. destruct T; [done |]. exact Hpage.
  - intros [-> | ->]; exact Hpage.
Qed.

Lemma list_events_filter_witness :
  Forall (λ r, row_topic r = "t") (get_events (Some "t") sample_table)
  ∧ get_events (Some "t") sample_table = [row_c; row_a]
  ∧ get_events (Some "") sample_table = [row_c; row_b; row_a].
Proof.
  destruct (list_events_filter (Some "t") sample_table)
    as (_ & _ & _ & Hfilter & _).
  destruct (Hfilter "t" eq_refl) as [Hall _]; [discriminate |].
  split; [exact Hall |]. split; reflexivity.
Defined.

(** ** Uptime *)

Lemma digit_not_colon (c : ascii) : is_digit c = true → Ascii.eqb c ":" = false.
Proof.
  intros Hd. destruct (Ascii.eqb_spec c ":") as [-> |]; [|done].
  discriminate Hd.
Qed.

(** A field of digits followed by a colon is split off as a whole. *)
Lemma split_colon_field (field rest : string) :
  all_digits field = true →
  split_colon (field +:+ ":" +:+ rest) = (field, Some rest).
Proof.
  induction field as [|c field IH]; simpl; [done |].
  intros [Hc Hfield]%andb_true_iff.
  by rewrite (digit_not_colon c Hc), (IH Hfield).
Qed.

(** [%d] of an hour of the day is one or two digits, [%02d] of a minute or
    second is two digits. *)
Lemma fmt_d_hour (h : Z) :
  0 ≤ h < 24 →
  all_digits (fmt_d h) = true ∧ (1 ≤ String.length (fmt_d h))%nat.
Proof.
  intros Hh. assert (h ∈ seqZ 0 24) as Hin by (apply elem_of_seqZ; lia).
  assert (forallb (λ x, all_digits (fmt_d x)
                        && (1 <=? String.length (fmt_d x))%nat)
            (seqZ 0 24) = true) as Hall by (vm_compute; reflexivity).
  rewrite forallb_forall in Hall. apply list_elem_of_In, Hall in Hin.
  apply andb_true_iff in Hin as [Hd Hl]. by apply Nat.leb_le in Hl.
Qed.

Lemma fmt_02d_sixty (m : Z) :
  0 ≤ m < 60 →
  all_digits (fmt_02d m) = true ∧ String.length (fmt_02d m) = 2%nat.
Proof.
  intros Hm. assert (m ∈ seqZ 0 60) as Hin by (apply elem_of_seqZ; lia).
  assert (forallb (λ x, all_digits (fmt_02d x)
                        && (String.length (fmt_02d x) =? 2)%nat)
            (seqZ 0 60) = true) as Hall by (vm_compute; reflexivity).
  rewrite forallb_forall in Hall. apply list_elem_of_In, Hall in Hin.
  apply andb_true_iff in Hin as [Hd Hl]. by apply Nat.eqb_eq in Hl.
Qed.

Lemma hms_shape_fields (h m sec : string) :
  all_digits h = true → (1 ≤ String.length h)%nat →
  all_digits m = true → String.length m = 2%nat →
  all_digits sec = true → String.length sec = 2%nat →
  hms_shape (h +:+ ":" +:+ m +:+ ":" +:+ sec) = true.
Proof.
  intros Hh Hhl Hm Hml Hs Hsl. unfold hms_shape.
  rewrite (split_colon_field h _ Hh), (split_colon_field m _ Hm).
  rewrite Hh, Hm, Hs, Hml, Hsl.
  apply Nat.leb_le in Hhl. by rewrite Hhl.
Qed.

(** C8, the claim as stated, fails from one day of uptime on: [timedelta]
    keeps days apart and [str] prints them in front, so the string is not
    of the shape H:MM:SS. *)
Lemma uptime_after_one_day :
  view_uptime (get_stats 86400 (boot [])) = "1 day, 0:00:00"
  ∧ view_uptime (get_stats 200000 (boot [])) = "2 days, 7:33:20"
  ∧ ¬ (∀ n, 0 ≤ n → hms_shape (view_uptime (get_stats n (boot []))) = true).
Proof.
  split; [reflexivity |]. split; [reflexivity |].
  intros H. specialize (H 86400). vm_compute in H.
  assert (false = true) as Hf by (apply H; discriminate). discriminate Hf.
Qed.

(** C8 (uptime format), amended.  For an uptime of less than one day the
    string is H:MM:SS, the hours without padding and the minutes and seconds
    on two digits; from one day on it is the number of days, " day" or
    " days", a comma, and the H:MM:SS of the time within the day. *)
Theorem uptime_format (n : Z) (s : System) :
  0 ≤ n →
  (n < 86400 →
     view_uptime (get_stats n s)
       = fmt_d (n / 3600) +:+ ":" +:+ fmt_02d (n / 60 mod 60)
           +:+ ":" +:+ fmt_02d (n mod 60)
     ∧ hms_shape (view_uptime (get_stats n s)) = true)
  ∧ (86400 ≤ n →
     view_uptime (get_stats n s)
       = fmt_d (n / 86400) +:+ " day"
           +:+ (if n / 86400 =? 1 then "" else "s") +:+ ", "
           +:+ view_uptime (get_stats (n mod 86400) s)
     ∧ hms_shape (view_uptime (get_stats (n mod 86400) s)) = true).
Proof.
  intros Hn.
  assert (∀ m, 0 ≤ m < 86400 →
            timedelta_str m
              = fmt_d (m / 3600) +:+ ":" +:+ fmt_02d (m / 60 mod 60)
                  +:+ ":" +:+ fmt_02d (m mod 60)
            ∧ hms_shape (timedelta_str m) = true) as Hday.
  { intros m Hm. unfold timedelta_str.
    rewrite (Z.div_small m 86400), (Z.mod_small m 86400) by lia.
    simpl. rewrite Z.div_div by lia. change (60 * 60) with 3600.
    split; [done |].
    destruct (fmt_d_hour (m / 3600)) as [Hh Hhl].
    { split; [apply Z.div_pos; lia | apply Z.div_lt_upper_bound; lia]. }
    destruct (fmt_02d_sixty (m / 60 mod 60)) as [Hm1 Hm2].
    { apply Z.mod_pos_bound. lia. }
    destruct (fmt_02d_sixty (m mod 60)) as [Hs1 Hs2].
    { apply Z.mod_pos_bound. lia. }
    by apply hms_shape_fields. }
  split.
  - intros Hlt. simpl. apply Hday. lia.
  - intros Hge. simpl. split; [| apply Hday; apply Z.mod_pos_bound; lia].
    unfold timedelta_str at 1.
    assert (1 ≤ n / 86400) as Hdays by (apply Z.div_le_lower_bound; lia).
    destruct (n / 86400 =? 0) eqn:H0; [apply Z.eqb_eq in H0; lia |].
    rewrite (Z.abs_eq (n / 86400)) by lia.
    pose proof (Z.mod_pos_bound n 86400 eq_refl) as Hmod.
    unfold timedelta_str.
    rewrite (Z.div_small (n mod 86400) 86400) by exact Hmod.
    rewrite Z.mod_mod by discriminate. done.
Qed.

Lemma uptime_format_witness :
  view_uptime (get_stats 3661 (boot [])) = "1:01:01"
  ∧ hms_shape (view_uptime (get_stats 3661 (boot []))) = true
  ∧ view_uptime (get_stats 90061 (boot [])) = "1 day, 1:01:01".
Proof.
  destruct (uptime_format 3661 (boot [])) as [Hshort _]; [lia |].
  destruct (uptime_format 90061 (boot [])) as [_ Hlong]; [lia |].
  destruct Hshort as [Hstr Hshape]; [lia |].
  destruct Hlong as [Hstr' _]; [lia |].
  split; [exact Hstr |]. split; [exact Hshape | exact Hstr'].
Defined.

(** ** Start-up *)

(** The connection loop makes at most five passes and sleeps two seconds
    after each failed one; whatever the passes met, [lifespan] goes on to
    create the five consumers and reaches [yield]. *)
Lemma connect_bounded (env : nat → attempt) (fuel i : nat) (st : Startup) :
  (passes (connect env fuel i st) ≤ passes st + fuel)%nat
  ∧ tasks (connect env fuel i st) = tasks st
  ∧ (ready (connect env fuel i st) = false →
     passes (connect env fuel i st) = (passes st + fuel)%nat
     ∧ sleeps (connect env fuel i st) = sleeps st ++ replicate fuel 2).
Proof.
  revert i st. induction fuel as [|fuel IH]; intros i st; simpl.
  - split; [lia |]. split; [done |]. intros _.
    split; [lia | by rewrite app_nil_r].
  - destruct (env i) eqn:Henv; simpl.
    4: { split; [lia |]. split; [done | discriminate]. }
    all: destruct (IH (S i)
           (mkStartup (assign i (env i) (handles st)) false (S (passes st))
              (sleeps st ++ [2]) (tasks st))) as (Hp & Ht & Hr);
      rewrite Henv in Hp, Ht, Hr; simpl in Hp, Ht, Hr;
      (split; [lia |]); (split; [exact Ht |]); intros Hready;
      destruct (Hr Hready) as [Hp' Hs']; rewrite Hp', Hs';
      (split; [lia | by rewrite <- app_assoc]).
Qed.

(** C7, at the input where it fails.  When every pass of the connection
    loop fails, the loop ends after five passes and five sleeps of two
    seconds and nothing is raised: [lifespan] creates the five consumers
    and yields to the server with [db_pool] and [redis_client] still None
    (first case), or with a pool whose table was never created (second
    case). *)
Theorem startup_continues_unconnected :
  lifespan (λ _, PoolFails)
    = mkStartup (mkHandles None None) false 5 [2; 2; 2; 2; 2] 5
  ∧ lifespan (λ _, InitDbFails)
    = mkStartup (mkHandles (Some 4%nat) (Some 4%nat)) false 5 [2; 2; 2; 2; 2] 5
  ∧ ∀ env, tasks (lifespan env) = 5%nat ∧ (passes (lifespan env) ≤ 5)%nat.
Proof.
  split; [reflexivity |]. split; [reflexivity |].
  intros env. unfold lifespan. simpl tasks. simpl passes.
  split; [done |].
  destruct (connect_bounded env 5 0
              (mkStartup (mkHandles None None) false 0 [] 0)) as (Hp & _).
  exact Hp.
Qed.

(** ** Events with a timestamp the parser rejects *)

Lemma validate_dump (e : LogEvent) :
  validate_body (model_dump_json e) = Some (Single e).
Proof. by destruct e. Qed.

Section Unparseable.

Variable fromisoformat : string → option datetime.
Variable e : LogEvent.
Hypothesis rejected : fromisoformat (timestamp e) = None.

Lemma step_never_counted (l : label) (s s' : System) :
  step fromisoformat l s = Some s' →
  never_counted (model_dump_json e) s →
  never_counted (model_dump_json e) s'.
Proof.
  unfold never_counted. intros Hstep (Hc & Hl).
  destruct l as [event | event error | i | i error | w | w | w ok | w]; simpl in Hstep.
  - destruct (publish_enqueue _ _ _) as [? [?|]]; [done |]. by injection Hstep as <-.
  - destruct (publish_enqueue _ _ _) as [? [?|]]; [|done]. by injection Hstep as <-.
  - destruct (requests s !! i); [|done]. by injection Hstep as <-.
  - destruct (requests s !! i) as [[|e0 evs]|]; try done.
    by injection Hstep as <-.
  - destruct (consumers s !! w) as [[| |]|]; try done.
    destruct (event_queue s); [done |]. injection Hstep as <-. simpl.
    split; [|done]. by apply Forall_insert.
  - destruct (consumers s !! w) as [[| |]|]; try done.
    by injection Hstep as <-.
  - destruct (consumers s !! w) as [[|event_data|]|] eqn:Hw; try done.
    rewrite execute_stored in Hstep.
    destruct (stored_row fromisoformat event_data) as [r|] eqn:Hr;
      [destruct ok|]; simpl in Hstep.
    + unfold on_conflict_do_nothing in Hstep.
      destruct (existsb _ _); injection Hstep as <-; simpl;
        (split; [|done]); (apply Forall_insert; [done |]);
        intros result [= -> _];
        by rewrite stored_row_dump, rejected in Hr.
    + destruct (on_conflict_do_nothing _ _) as [? ?].
      injection Hstep as <-. simpl. split; [by apply Forall_insert |].
      apply Forall_app. split; [done |]. by repeat constructor.
    + injection Hstep as <-. simpl. split; [by apply Forall_insert |].
      apply Forall_app. split; [done |]. by repeat constructor.
  - destruct (consumers s !! w) as [[| |event_data result]|] eqn:Hw; try done.
    pose proof (Forall_lookup_1 _ _ _ _ Hc Hw result) as Hne.
    unfold count_result in Hstep.
    destruct (String.eqb result "INSERT 0 1"); injection Hstep as <-; simpl;
      (split; [by apply Forall_insert |]);
      (apply Forall_app; split; [done |]); repeat constructor;
      congruence.
Qed.

Lemma run_never_counted (sched : list label) (s s' : System) :
  run fromisoformat sched s = Some s' →
  never_counted (model_dump_json e) s →
  never_counted (model_dump_json e) s'.
Proof.
  revert s. induction sched as [|l rest IH]; intros s Hrun Hs.
  - by injection Hrun as <-.
  - simpl in Hrun. destruct (step fromisoformat l s) as [s1|] eqn:Hstep; [|done].
    simpl in Hrun. apply (IH s1); [done |]. by eapply step_never_counted.
Qed.

End Unparseable.

(** C10, the last clause of the claim as stated, fails, in two ways.

    After the event was accepted and given up, a later batch can be
    consumed and counted while its request has not yet added to
    [received]; under [late_count] the counters are [received = 1] and
    [processed_success = 2].

    And the gap can close for good: under [lost_reply] a later request gets
    its event on the list and is answered 500, the reply of the broker
    being lost, so the event is consumed and counted but never added to
    [received].  With no request in flight, the list empty and the
    consumers idle, [received = 1] and [processed_success = 1]. *)
Lemma received_not_permanently_ahead :
  run isoformat_parser late_count (boot []) = Some late_count_final
  ∧ isoformat_parser (timestamp ev_bad) = None
  ∧ DbError (model_dump_json ev_bad) ∈ log late_count_final
  ∧ requests late_count_final = [[ev_a; ev_c]]
  ∧ received (stats late_count_final) = 1
  ∧ processed_success (stats late_count_final) = 2
  ∧ ¬ (processed_success (stats late_count_final)
         + duplicates_dropped (stats late_count_final)
       < received (stats late_count_final))
  ∧ run isoformat_parser lost_reply (boot []) = Some lost_reply_final
  ∧ DbError (model_dump_json ev_bad) ∈ log lost_reply_final
  ∧ requests lost_reply_final = []
  ∧ drained lost_reply_final
  ∧ received (stats lost_reply_final) = 1
  ∧ processed_success (stats lost_reply_final) = 1
  ∧ ¬ (processed_success (stats lost_reply_final)
         + duplicates_dropped (stats lost_reply_final)
       < received (stats lost_reply_final)).
Proof.
  split; [vm_compute; reflexivity |]. split; [vm_compute; reflexivity |].
  split; [left |]. split; [reflexivity |]. split; [reflexivity |].
  split; [reflexivity |].
  split; [vm_compute; intros H; discriminate H |].
  split; [vm_compute; reflexivity |].
  split; [left |]. split; [reflexivity |].
  split; [split; [reflexivity | repeat constructor] |].
  split; [reflexivity |]. split; [reflexivity |].
  vm_compute. intros H. discriminate H.
Qed.

(** C10 (timestamp the parser rejects), amended.  An event with its five
    fields of the right types and a timestamp [fromisoformat] rejects:
    - passes validation, and the handler answers 200, puts it on the list
      and adds one to [received];
    - makes the consumer that holds it raise before the INSERT: the table,
      the counters and the list are as before, the consumer is back in
      [blpop], one error line is logged;
    - is never counted: in no state of any schedule does a consumer hold an
      INSERT result for it or a log line count it as processed or as a
      duplicate;
    - once it is given up, in every state in which no request is suspended
      between its push and its count, [processed_success +
      duplicates_dropped] is below [received] plus the events [received]
      never counts: those queued by requests whose reply was lost, and the
      messages [q] an earlier run left on the list.  Where there are none
      of either, [received] itself is ahead. *)
Theorem unparseable_timestamp_dropped
    (fromisoformat : string → option datetime) (e : LogEvent) :
  fromisoformat (timestamp e) = None →
  validate_body (model_dump_json e) = Some (Single e)
  ∧ (∀ s,
       snd (post_publish (model_dump_json e) Up s)
         = Response 200 (JObj [("status", JStr "queued"); ("count", JNum 1)])
       ∧ event_queue (fst (post_publish (model_dump_json e) Up s))
         = event_queue s ++ [model_dump_json e]
       ∧ received (stats (fst (post_publish (model_dump_json e) Up s)))
         = received (stats s) + 1)
  ∧ (∀ s w ok,
       consumers s !! w = Some (Decoded (model_dump_json e)) →
       ∃ s', step fromisoformat (Execute w ok) s = Some s'
             ∧ events s' = events s
             ∧ stats s' = stats s
             ∧ event_queue s' = event_queue s
             ∧ consumers s' = <[w := Waiting]> (consumers s)
             ∧ log s' = log s ++ [DbError (model_dump_json e)])
  ∧ (∀ tbl q sched s,
       run fromisoformat sched (restart tbl q) = Some s →
       never_counted (model_dump_json e) s)
  ∧ (∀ tbl q sched s,
       run fromisoformat sched (restart tbl q) = Some s →
       DbError (model_dump_json e) ∈ log s →
       requests s = [] →
       processed_success (stats s) + duplicates_dropped (stats s)
       < received (stats s) + Z.of_nat (length (lost sched))
         + Z.of_nat (length q))
  ∧ (∀ tbl sched s,
       run fromisoformat sched (boot tbl) = Some s →
       DbError (model_dump_json e) ∈ log s →
       requests s = [] →
       lost sched = [] →
       processed_success (stats s) + duplicates_dropped (stats s)
       < received (stats s)).
Proof.
  intros Hrej.
  assert (∀ tbl q sched s,
            run fromisoformat sched (restart tbl q) = Some s →
            DbError (model_dump_json e) ∈ log s →
            requests s = [] →
            processed_success (stats s) + duplicates_dropped (stats s)
            < received (stats s) + Z.of_nat (length (lost sched))
              + Z.of_nat (length q)) as Hahead.
  { intros tbl q sched s Hrun Hin Hreq.
    pose proof (received_covers_consumed _ _ _ _ _ Hrun) as Hcov.
    unfold uncounted in Hcov. rewrite Hreq in Hcov. simpl in Hcov.
    pose proof (tally_elem is_error _ _ Hin eq_refl). lia. }
  split; [apply validate_dump |]. split; [| split; [| split; [| split]]].
  - intros s. unfold post_publish. rewrite validate_dump.
    unfold publish_event. rewrite publish_enqueue_up. done.
  - intros s w ok Hw. cbn [step].
    rewrite Hw, execute_stored, stored_row_dump, Hrej.
    eexists. split; [reflexivity |]. done.
  - intros tbl q sched s Hrun.
    apply (run_never_counted fromisoformat e Hrej sched (restart tbl q));
      [done |].
    split; cbn [restart consumers log]; by repeat constructor.
  - exact Hahead.
  - intros tbl sched s Hrun Hin Hreq Hlost.
    pose proof (Hahead tbl [] sched s Hrun Hin Hreq) as H.
    rewrite Hlost in H. simpl in H. lia.
Qed.

Lemma unparseable_timestamp_dropped_witness :
  isoformat_parser (timestamp ev_bad) = None
  ∧ run isoformat_parser bad_only (boot []) = Some bad_only_final
  ∧ events bad_only_final = []
  ∧ never_counted (model_dump_json ev_bad) bad_only_final
  ∧ processed_success (stats bad_only_final)
      + duplicates_dropped (stats bad_only_final)
    < received (stats bad_only_final).
Proof.
  split; [vm_compute; reflexivity |]. split; [vm_compute; reflexivity |].
  split; [reflexivity |].
  destruct (unparseable_timestamp_dropped isoformat_parser ev_bad)
    as (_ & _ & _ & Hnever & _ & Hahead); [vm_compute; reflexivity |].
  split.
  - apply (Hnever [] [] bad_only). vm_compute; reflexivity.
  - apply (Hahead [] bad_only);
      [vm_compute; reflexivity | left | reflexivity | reflexivity].
Defined.

(** * Further properties of the aggregator *)

(** ** The table under the unique constraint *)

Lemma not_conflicting_fresh (r : Row) (tbl : list Row) :
  existsb (same_key (row_key r)) tbl = false → row_key r ∉ row_key <$> tbl.
Proof.
  intros Hex Hin. apply list_elem_of_fmap in Hin as (r' & Hk & Hr').
  apply tally_existsb_false in Hex.
  assert (same_key (row_key r) r' = true) as Hsame
    by by apply bool_decide_eq_true.
  pose proof (tally_elem _ _ _ Hr' Hsame). lia.
Qed.

Section TableFacts.

Variable fromisoformat : string → option datetime.

Lemma step_table (l : label) (s s' : System) :
  step fromisoformat l s = Some s' →
  events s' = events s
  ∨ ∃ r, events s' = events s ++ [r] ∧ row_key r ∉ row_key <$> events s.
Proof.
  intros Hstep.
  destruct l as [event | event error | i | i error | w | w | w ok | w]; simpl in Hstep.
  - destruct (publish_enqueue _ _ _) as [? [?|]]; [done |]. injection Hstep as <-. by left.
  - destruct (publish_enqueue _ _ _) as [? [?|]]; [|done]. injection Hstep as <-. by left.
  - destruct (requests s !! i); [|done]. injection Hstep as <-. by left.
  - destruct (requests s !! i) as [[|e0 evs]|]; try done.
    injection Hstep as <-. by left.
  - destruct (consumers s !! w) as [[| |]|]; try done.
    destruct (event_queue s); [done |]. injection Hstep as <-. by left.
  - destruct (consumers s !! w) as [[| |]|]; try done.
    injection Hstep as <-. by left.
  - destruct (consumers s !! w) as [[|event_data|]|]; try done.
    rewrite execute_stored in Hstep.
    destruct (stored_row fromisoformat event_data) as [r|];
      [destruct ok|]; simpl in Hstep.
    + unfold on_conflict_do_nothing in Hstep.
      destruct (existsb _ _) eqn:Hex; injection Hstep as <-; simpl.
      * by left.
      * right. exists r. split; [done |]. by apply not_conflicting_fresh.
    + destruct (on_conflict_do_nothing _ _) as [? ?].
      injection Hstep as <-. by left.
    + injection Hstep as <-. by left.
  - destruct (consumers s !! w) as [[| |event_data result]|]; try done.
    unfold count_result in Hstep.
    destruct (String.eqb result "INSERT 0 1"); injection Hstep as <-; by left.
Qed.

Lemma run_table (sched : list label) (s s' : System) :
  run fromisoformat sched s = Some s' →
  events s `prefix_of` events s'
  ∧ (NoDup (row_key <$> events s) → NoDup (row_key <$> events s')).
Proof.
  revert s. induction sched as [|l rest IH]; intros s Hrun.
  - by injection Hrun as <-.
  - simpl in Hrun. destruct (step fromisoformat l s) as [s1|] eqn:Hstep; [|done].
    simpl in Hrun. destruct (IH s1 Hrun) as [Hpre Hnodup].
    destruct (step_table _ _ _ Hstep) as [Heq | (r & Heq & Hfresh)];
      rewrite Heq in *.
    + done.
    + split; [etrans; [by apply prefix_app_r | exact Hpre] |].
      intros Hnd. apply Hnodup. rewrite fmap_app. apply NoDup_app.
      split; [done |]. split; [| apply NoDup_singleton].
      intros k Hk Hk'. apply list_elem_of_singleton in Hk' as ->. done.
Qed.

End TableFacts.

(** X1.  The consumers only ever append to the table: under every schedule
    the earlier table is a prefix of the later one, so no row is deleted,
    changed or moved.  If the pairs (topic, event_id) of the earlier table
    are pairwise different, so are those of the later one, and a row of the
    earlier table remains the only row of its pair: a later event of the
    same pair never replaces it. *)
Theorem table_append_only
    (fromisoformat : string → option datetime)
    (sched : list label) (s s' : System) :
  run fromisoformat sched s = Some s' →
  events s `prefix_of` events s'
  ∧ (NoDup (row_key <$> events s) →
     NoDup (row_key <$> events s')
     ∧ ∀ r r', r ∈ events s → r' ∈ events s' → row_key r' = row_key r → r' = r).
Proof.
  intros Hrun. destruct (run_table fromisoformat sched s s' Hrun) as [Hpre Hnd].
  split; [done |]. intros Hnodup. split; [by apply Hnd |].
  intros r r' Hr Hr' Hk.
  assert (r ∈ events s') as Hr2.
  { destruct Hpre as [more ->]. apply elem_of_app. by left. }
  apply list_elem_of_lookup in Hr2 as [i Hi].
  apply list_elem_of_lookup in Hr' as [j Hj].
  assert (i = j) as ->.
  { eapply (NoDup_lookup (row_key <$> events s')); [by apply Hnd | |].
    - rewrite list_lookup_fmap, Hi. done.
    - rewrite list_lookup_fmap, Hj. simpl. by rewrite Hk. }
  congruence.
Qed.

Lemma table_append_only_witness :
  [row_a] `prefix_of` events (default (boot [row_a])
                               (run isoformat_parser twice (boot [row_a])))
  ∧ NoDup (row_key <$> events (default (boot [row_a])
                                 (run isoformat_parser twice (boot [row_a])))).
Proof.
  destruct (table_append_only isoformat_parser twice (boot [row_a])
              (default (boot [row_a]) (run isoformat_parser twice (boot [row_a]))))
    as [Hpre Hnd].
  - vm_compute; reflexivity.
  - split; [exact Hpre |]. apply Hnd. repeat constructor. apply not_elem_of_nil.
Defined.

(** ** The counters *)

Section CounterFacts.

Variable fromisoformat : string → option datetime.

Lemma step_counters (l : label) (s s' : System) :
  step fromisoformat l s = Some s' →
  received (stats s) ≤ received (stats s')
  ∧ processed_success (stats s) ≤ processed_success (stats s')
  ∧ duplicates_dropped (stats s) ≤ duplicates_dropped (stats s')
  ∧ received (stats s') + uncounted s'
      + Z.of_nat (length (lost_from (requests s) [l]))
    = received (stats s) + uncounted s + Z.of_nat (length (sent l)).
Proof.
  intros Hstep. unfold uncounted.
  destruct l as [event | event error | i | i error | w | w | w ok | w]; simpl in Hstep.
  - rewrite publish_enqueue_up in Hstep. injection Hstep as <-. simpl.
    repeat split; try lia.
    rewrite concat_app, length_app. simpl. rewrite app_nil_r. lia.
  - destruct (publish_enqueue _ _ _) as [? [?|]]; [|done]. injection Hstep as <-.
    simpl. repeat split; lia.
  - destruct (requests s !! i) as [evs|] eqn:Hi; [|done].
    injection Hstep as <-. simpl.
    pose proof (concat_delete_length _ _ _ Hi).
    repeat split; lia.
  - destruct (requests s !! i) as [[|e0 evs]|] eqn:Hi; try done.
    injection Hstep as <-. simpl. rewrite Hi. simpl.
    pose proof (concat_delete_length _ _ _ Hi). simpl in *.
    rewrite app_nil_r. repeat split; lia.
  - destruct (consumers s !! w) as [[| |]|]; try done.
    destruct (event_queue s); [done |]. injection Hstep as <-. simpl.
    simpl; repeat split; lia.
  - destruct (consumers s !! w) as [[| |]|]; try done.
    injection Hstep as <-. simpl; repeat split; lia.
  - destruct (consumers s !! w) as [[|event_data|]|]; try done.
    rewrite execute_stored in Hstep.
    destruct (stored_row fromisoformat event_data) as [r|];
      [destruct ok|]; simpl in Hstep.
    + unfold on_conflict_do_nothing in Hstep.
      destruct (existsb _ _); injection Hstep as <-; simpl;
        repeat split; lia.
    + destruct (on_conflict_do_nothing _ _) as [? ?].
      injection Hstep as <-. simpl. simpl; repeat split; lia.
    + injection Hstep as <-. simpl. simpl; repeat split; lia.
  - destruct (consumers s !! w) as [[| |event_data result]|]; try done.
    unfold count_result in Hstep.
    destruct (String.eqb result "INSERT 0 1"); injection Hstep as <-; simpl;
      repeat split; lia.
Qed.

Lemma run_counters (sched : list label) (s s' : System) :
  run fromisoformat sched s = Some s' →
  received (stats s) ≤ received (stats s')
  ∧ processed_success (stats s) ≤ processed_success (stats s')
  ∧ duplicates_dropped (stats s) ≤ duplicates_dropped (stats s')
  ∧ received (stats s') + uncounted s'
      + Z.of_nat (length (lost_from (requests s) sched))
    = received (stats s) + uncounted s + Z.of_nat (length (published sched)).
Proof.
  revert s. induction sched as [|l rest IH]; intros s Hrun.
  - injection Hrun as <-. simpl. lia.
  - simpl in Hrun. destruct (step fromisoformat l s) as [s1|] eqn:Hstep; [|done].
    simpl in Hrun. destruct (IH s1 Hrun) as (Hr & Hp & Hd & Hsum).
    destruct (step_counters _ _ _ Hstep) as (Hr1 & Hp1 & Hd1 & Hone).
    rewrite (step_lost fromisoformat _ _ _ rest Hstep).
    unfold published in *. rewrite bind_cons, !length_app.
    repeat split; lia.
Qed.

End CounterFacts.

(** X2.  No transition lowers a counter: along every schedule, from every
    state, [received], [processed_success] and [duplicates_dropped] never
    decrease, so a counter is never reset or decremented while the process
    runs; from start-up they are never negative. *)
Theorem counters_never_decrease
    (fromisoformat : string → option datetime)
    (sched : list label) (s s' : System) :
  run fromisoformat sched s = Some s' →
  received (stats s) ≤ received (stats s')
  ∧ processed_success (stats s) ≤ processed_success (stats s')
  ∧ duplicates_dropped (stats s) ≤ duplicates_dropped (stats s')
  ∧ (∀ tbl, s = boot tbl →
       0 ≤ received (stats s') ∧ 0 ≤ processed_success (stats s')
       ∧ 0 ≤ duplicates_dropped (stats s')).
Proof.
  intros Hrun.
  destruct (run_counters fromisoformat sched s s' Hrun) as (Hr & Hp & Hd & _).
  repeat split; try done; subst s; simpl in *; lia.
Qed.

Lemma counters_never_decrease_witness :
  received (stats (boot [])) ≤ received (stats late_count_final)
  ∧ processed_success (stats (boot [])) ≤ processed_success (stats late_count_final)
  ∧ duplicates_dropped (stats (boot [])) ≤ duplicates_dropped (stats late_count_final).
Proof.
  destruct (counters_never_decrease isoformat_parser late_count (boot [])
              late_count_final) as (Hr & Hp & Hd & _).
  - vm_compute; reflexivity.
  - split; [exact Hr |]. split; [exact Hp | exact Hd].
Defined.

(** X3.  Bookkeeping of a running process, started on a list that may
    still hold messages [q] of an earlier run.  Every event the broker
    accepted from this process is counted in [received], belongs to a
    request that has not counted yet, or was queued by a request whose
    reply was lost and which answered 500.  And every such event and every
    message of [q] is on the list, with a consumer, or accounted for by
    exactly one of [processed_success], [duplicates_dropped] and the error
    log.  So when no request is in flight and the consumers are idle,
    [received] falls short of [processed_success + duplicates_dropped] plus
    the events given up with an error by exactly the events of lost replies
    and the messages of [q]; it is equal to it when there are none. *)
Theorem events_conserved
    (fromisoformat : string → option datetime)
    (tbl : list Row) (q : list json) (sched : list label) (s : System) :
  run fromisoformat sched (restart tbl q) = Some s →
  received (stats s) + uncounted s + Z.of_nat (length (lost sched))
  = Z.of_nat (length (published sched))
  ∧ Z.of_nat (length (published sched)) + Z.of_nat (length q)
    = Z.of_nat (length (event_queue s)) + Z.of_nat (tally busy (consumers s))
      + processed_success (stats s) + duplicates_dropped (stats s)
      + Z.of_nat (tally is_error (log s))
  ∧ (drained s → requests s = [] →
     received (stats s) + Z.of_nat (length (lost sched))
       + Z.of_nat (length q)
     = processed_success (stats s) + duplicates_dropped (stats s)
       + Z.of_nat (tally is_error (log s)))
  ∧ (drained s → requests s = [] → lost sched = [] → q = [] →
     received (stats s)
     = processed_success (stats s) + duplicates_dropped (stats s)
       + Z.of_nat (tally is_error (log s))).
Proof.
  intros Hrun.
  destruct (run_counters fromisoformat sched _ _ Hrun) as (_ & _ & _ & Hsum).
  destruct (run_conservation fromisoformat sched _ _ _ Hrun
              (restart_conservation tbl q)) as (Hrec & Hps & Hdd).
  pose proof (log_partition (log s)) as Hlog.
  unfold uncounted, lost in *. simpl in Hsum, Hrec.
  assert (drained s → requests s = [] →
          received (stats s) + Z.of_nat (length (lost_from [] sched))
            + Z.of_nat (length q)
          = processed_success (stats s) + duplicates_dropped (stats s)
            + Z.of_nat (tally is_error (log s))) as Hidle.
  { intros [Hq Hw] Hreq. rewrite Hreq, Hq in *. simpl in *.
    assert (tally busy (consumers s) = 0%nat) as Hbusy.
    { apply tally_none. eapply Forall_impl; [exact Hw |]. by intros ? ->. }
    lia. }
  split; [lia |]. split; [lia |]. split; [exact Hidle |].
  intros Hdr Hreq Hlost ->. specialize (Hidle Hdr Hreq).
  rewrite Hlost in Hidle. simpl in Hidle. lia.
Qed.

Lemma events_conserved_witness :
  received (stats mixed_batch_final)
  = processed_success (stats mixed_batch_final)
    + duplicates_dropped (stats mixed_batch_final)
    + Z.of_nat (tally is_error (log mixed_batch_final)).
Proof.
  destruct (events_conserved isoformat_parser [] [] mixed_batch
              mixed_batch_final) as (_ & _ & _ & Hidle).
  - vm_compute; reflexivity.
  - apply Hidle; [split; [reflexivity | repeat constructor] | reflexivity
                 | reflexivity | reflexivity].
Defined.

(** ** Rows and the counter of processed events *)

Section RowCount.

Variable fromisoformat : string → option datetime.

Lemma step_row_count (l : label) (s s' : System) :
  step fromisoformat l s = Some s' →
  Z.of_nat (length (events s')) - processed_success (stats s')
    - Z.of_nat (tally reported_insert (consumers s'))
  = Z.of_nat (length (events s)) - processed_success (stats s)
    - Z.of_nat (tally reported_insert (consumers s)).
Proof.
  intros Hstep.
  destruct l as [event | event error | i | i error | w | w | w ok | w]; simpl in Hstep.
  - destruct (publish_enqueue _ _ _) as [? [?|]]; [done |]. by injection Hstep as <-.
  - destruct (publish_enqueue _ _ _) as [? [?|]]; [|done]. by injection Hstep as <-.
  - destruct (requests s !! i); [|done]. by injection Hstep as <-.
  - destruct (requests s !! i) as [[|e0 evs]|]; try done.
    by injection Hstep as <-.
  - destruct (consumers s !! w) as [[| |]|] eqn:Hw; try done.
    destruct (event_queue s) as [|raw q]; [done |]. injection Hstep as <-.
    simpl. pose proof (tally_insert reported_insert _ _ (Decoded raw) _ Hw).
    simpl in *. lia.
  - destruct (consumers s !! w) as [[| |]|]; try done.
    by injection Hstep as <-.
  - destruct (consumers s !! w) as [[|event_data|]|] eqn:Hw; try done.
    rewrite execute_stored in Hstep.
    destruct (stored_row fromisoformat event_data) as [r|];
      [destruct ok|]; simpl in Hstep.
    + unfold on_conflict_do_nothing in Hstep.
      destruct (existsb _ _); injection Hstep as <-; simpl.
      * pose proof (tally_insert reported_insert _ _
                      (Executed event_data "INSERT 0 0") _ Hw).
        simpl in *. lia.
      * pose proof (tally_insert reported_insert _ _
                      (Executed event_data "INSERT 0 1") _ Hw).
        rewrite length_app. simpl in *. lia.
    + destruct (on_conflict_do_nothing _ _) as [? ?].
      injection Hstep as <-. simpl.
      pose proof (tally_insert reported_insert _ _ Waiting _ Hw).
      simpl in *. lia.
    + injection Hstep as <-. simpl.
      pose proof (tally_insert reported_insert _ _ Waiting _ Hw).
      simpl in *. lia.
  - destruct (consumers s !! w) as [[| |event_data result]|] eqn:Hw; try done.
    unfold count_result in Hstep.
    pose proof (tally_insert reported_insert _ _ Waiting _ Hw) as Hins.
    simpl in Hins.
    destruct (String.eqb result "INSERT 0 1"); injection Hstep as <-; simpl;
      lia.
Qed.

Lemma run_row_count (sched : list label) (s s' : System) :
  run fromisoformat sched s = Some s' →
  Z.of_nat (length (events s')) - processed_success (stats s')
    - Z.of_nat (tally reported_insert (consumers s'))
  = Z.of_nat (length (events s)) - processed_success (stats s)
    - Z.of_nat (tally reported_insert (consumers s)).
Proof.
  revert s. induction sched as [|l rest IH]; intros s Hrun.
  - by injection Hrun as <-.
  - simpl in Hrun. destruct (step fromisoformat l s) as [s1|] eqn:Hstep; [|done].
    simpl in Hrun. rewrite (IH s1 Hrun). by apply (step_row_count l).
Qed.

End RowCount.

(** X4.  [processed_success] counts rows: under every schedule the number
    of rows the process has added to the table is [processed_success] plus
    the number of consumers whose INSERT added a row and which have not
    counted it yet; once the consumers are idle, [unique_processed] of
    [GET /stats] is exactly the number of rows added since start-up. *)
Theorem processed_counts_rows
    (fromisoformat : string → option datetime)
    (tbl : list Row) (sched : list label) (s : System) (uptime : Z) :
  run fromisoformat sched (boot tbl) = Some s →
  Z.of_nat (length (events s))
  = Z.of_nat (length tbl) + processed_success (stats s)
    + Z.of_nat (tally reported_insert (consumers s))
  ∧ (Forall (λ w, w = Waiting) (consumers s) →
     view_unique_processed (get_stats uptime s)
     = Z.of_nat (length (events s)) - Z.of_nat (length tbl)).
Proof.
  intros Hrun. pose proof (run_row_count fromisoformat sched _ _ Hrun) as Hinv.
  simpl in Hinv. split; [lia |]. intros Hidle. simpl.
  assert (tally reported_insert (consumers s) = 0%nat) as Hnone.
  { apply tally_none. eapply Forall_impl; [exact Hidle |]. by intros ? ->. }
  lia.
Qed.

Lemma processed_counts_rows_witness :
  view_unique_processed (get_stats 60 mixed_batch_final)
  = Z.of_nat (length (events mixed_batch_final)) - 0.
Proof.
  destruct (processed_counts_rows isoformat_parser [] mixed_batch
              mixed_batch_final 60) as [_ Hidle].
  - vm_compute; reflexivity.
  - apply Hidle. repeat constructor.
Defined.

(** ** The list is a queue *)

Section Fifo.

Variable fromisoformat : string → option datetime.

(** What one transition does to the list. *)
Lemma step_queue (l : label) (s s' : System) :
  step fromisoformat l s = Some s' →
  match l with
  | Pop _ => ∃ raw, event_queue s = raw :: event_queue s'
  | _ => event_queue s' = event_queue s ++ (model_dump_json <$> sent l)
  end.
Proof.
  intros Hstep.
  destruct l as [event | event error | i | i error | w | w | w ok | w]; simpl in Hstep;
    simpl sent; rewrite ?fmap_nil, ?app_nil_r.
  - rewrite publish_enqueue_up in Hstep. by injection Hstep as <-.
  - destruct (publish_enqueue _ _ _) as [? [?|]]; [|done]. by injection Hstep as <-.
  - destruct (requests s !! i); [|done]. by injection Hstep as <-.
  - destruct (requests s !! i) as [[|e0 evs]|]; try done.
    by injection Hstep as <-.
  - destruct (consumers s !! w) as [[| |]|]; try done.
    destruct (event_queue s) as [|raw q]; [done |]. injection Hstep as <-.
    by exists raw.
  - destruct (consumers s !! w) as [[| |]|]; try done.
    by injection Hstep as <-.
  - destruct (consumers s !! w) as [[|event_data|]|]; try done.
    rewrite execute_stored in Hstep.
    destruct (stored_row fromisoformat event_data) as [r|];
      [destruct ok|]; simpl in Hstep.
    + unfold on_conflict_do_nothing in Hstep.
      destruct (existsb _ _); by injection Hstep as <-.
    + destruct (on_conflict_do_nothing _ _) as [? ?].
      by injection Hstep as <-.
    + by injection Hstep as <-.
  - destruct (consumers s !! w) as [[| |event_data result]|]; try done.
    unfold count_result in Hstep.
    destruct (String.eqb result "INSERT 0 1"); by injection Hstep as <-.
Qed.

Lemma run_fifo (sched : list label) (s s' : System) :
  run fromisoformat sched s = Some s' →
  delivered fromisoformat sched s ++ event_queue s'
  = event_queue s ++ (model_dump_json <$> published sched).
Proof.
  revert s. induction sched as [|l rest IH]; intros s Hrun.
  - injection Hrun as <-. simpl. by rewrite app_nil_r.
  - unfold published. rewrite bind_cons, fmap_app. fold (published rest).
    simpl in Hrun. cbn [delivered].
    destruct (step fromisoformat l s) as [s1|] eqn:Hstep; [|done].
    simpl in Hrun. specialize (IH s1 Hrun).
    pose proof (step_queue l s s1 Hstep) as Hq.
    destruct l as [event | event error | i | i error | w | w | w ok | w];
      try (rewrite IH, Hq, <- app_assoc; by destruct (event_queue s)).
    destruct Hq as [raw Hq]. rewrite Hq. simpl. by rewrite IH.
Qed.

End Fifo.

(** X5.  First in, first out, nothing lost, nothing doubled: under every
    schedule the messages delivered to the consumers so far, followed by
    the messages still on the list, are exactly the serializations of the
    published events in the order the broker accepted them (a batch in
    request order). *)
Theorem queue_is_fifo
    (fromisoformat : string → option datetime)
    (tbl : list Row) (sched : list label) (s : System) :
  run fromisoformat sched (boot tbl) = Some s →
  delivered fromisoformat sched (boot tbl) ++ event_queue s
  = model_dump_json <$> published sched.
Proof. intros Hrun. by rewrite (run_fifo fromisoformat sched _ _ Hrun). Qed.

Lemma queue_is_fifo_witness :
  delivered isoformat_parser mixed_batch (boot []) ++ event_queue mixed_batch_final
  = model_dump_json <$> [ev_c; ev_a; ev_a].
Proof.
  apply (queue_is_fifo isoformat_parser [] mixed_batch mixed_batch_final).
  vm_compute; reflexivity.
Defined.

(** ** Where rows come from *)

Section Provenance.

Variable fromisoformat : string → option datetime.
Variable tbl : list Row.

Lemma written_for_more (pool more : list LogEvent) (event_data : json) :
  written_for pool event_data → written_for (pool ++ more) event_data.
Proof. intros (e & He & ->). exists e. split; [|done]. apply elem_of_app. by left. Qed.

Lemma row_for_more (pool more : list LogEvent) (r : Row) :
  row_for fromisoformat pool r → row_for fromisoformat (pool ++ more) r.
Proof.
  intros (e & d & He & Hrest). exists e, d.
  split; [|done]. apply elem_of_app. by left.
Qed.

Lemma traceable_more (pool more : list LogEvent) (s : System) :
  traceable fromisoformat tbl pool s →
  traceable fromisoformat tbl (pool ++ more) s.
Proof.
  intros (Hq & Hc & Ht). repeat split.
  - eapply Forall_impl; [exact Hq |]. intros ?. apply written_for_more.
  - eapply Forall_impl; [exact Hc |]. intros w Hw ed Hed.
    by apply written_for_more, Hw.
  - eapply Forall_impl; [exact Ht |]. intros r [Hr | Hr]; [by left | right].
    by apply row_for_more.
Qed.

(** The row made of a message written for an event is the event's row. *)
Lemma written_row (pool : list LogEvent) (event_data : json) (r : Row) :
  written_for pool event_data →
  stored_row fromisoformat event_data = Some r →
  row_for fromisoformat pool r.
Proof.
  intros (e & He & ->) Hs.
  destruct (stored_row_fields _ e r Hs) as (d & Hd & Hr).
  by exists e, d.
Qed.

Lemma step_traceable (l : label) (pool : list LogEvent) (s s' : System) :
  step fromisoformat l s = Some s' →
  traceable fromisoformat tbl pool s →
  traceable fromisoformat tbl (pool ++ sent l) s'.
Proof.
  intros Hstep Htr. apply (traceable_more pool (sent l)) in Htr as Hmore.
  destruct Hmore as (Hq & Hc & Ht). destruct Htr as (Hq0 & Hc0 & _).
  destruct l as [event | event error | i | i error | w | w | w ok | w]; simpl in Hstep.
  - rewrite publish_enqueue_up in Hstep. injection Hstep as <-.
    split; [|done]. simpl. apply Forall_app. split; [done |].
    apply Forall_fmap, Forall_forall. intros e He. exists e.
    split; [|done]. apply elem_of_app. by right.
  - destruct (publish_enqueue _ _ _) as [? [?|]]; [|done]. by injection Hstep as <-.
  - destruct (requests s !! i); [|done]. by injection Hstep as <-.
  - destruct (requests s !! i) as [[|e0 evs]|]; try done.
    by injection Hstep as <-.
  - destruct (consumers s !! w) as [[| |]|]; try done.
    destruct (event_queue s) as [|raw q] eqn:Hqs; [done |].
    injection Hstep as <-. simpl in *. apply Forall_cons in Hq as [Hraw Hq].
    repeat split; [done | | done]. apply Forall_insert; [done |].
    by intros ? [= <-].
  - destruct (consumers s !! w) as [[| |]|]; try done.
    by injection Hstep as <-.
  - destruct (consumers s !! w) as [[|event_data|]|] eqn:Hw; try done.
    pose proof (Forall_lookup_1 _ _ _ _ Hc Hw event_data eq_refl) as Hed.
    rewrite execute_stored in Hstep.
    destruct (stored_row fromisoformat event_data) as [r|] eqn:Hr;
      [destruct ok|]; simpl in Hstep.
    + unfold on_conflict_do_nothing in Hstep.
      destruct (existsb _ _); injection Hstep as <-; simpl;
        (repeat split; [done | |]);
        try (apply Forall_insert; [done |]; by intros ? [= <-]);
        try done.
      apply Forall_app. split; [done |]. constructor; [|constructor].
      right. by eapply written_row.
    + destruct (on_conflict_do_nothing _ _) as [? ?].
      injection Hstep as <-. simpl. repeat split; [done | | done].
      by apply Forall_insert.
    + injection Hstep as <-. simpl. repeat split; [done | | done].
      by apply Forall_insert.
  - destruct (consumers s !! w) as [[| |event_data result]|] eqn:Hw; try done.
    unfold count_result in Hstep.
    destruct (String.eqb result "INSERT 0 1"); injection Hstep as <-; simpl;
      (repeat split; [done | | done]); by apply Forall_insert.
Qed.

Lemma run_traceable (sched : list label) (pool : list LogEvent) (s s' : System) :
  run fromisoformat sched s = Some s' →
  traceable fromisoformat tbl pool s →
  traceable fromisoformat tbl (pool ++ published sched) s'.
Proof.
  revert s pool. induction sched as [|l rest IH]; intros s pool Hrun Hs.
  - injection Hrun as <-. unfold published. simpl. by rewrite app_nil_r.
  - simpl in Hrun. destruct (step fromisoformat l s) as [s1|] eqn:Hstep; [|done].
    simpl in Hrun. unfold published. rewrite bind_cons, app_assoc.
    apply (IH s1); [done |]. by eapply step_traceable.
Qed.

Lemma boot_traceable : traceable fromisoformat tbl [] (boot tbl).
Proof.
  repeat split; simpl; [constructor | repeat constructor; by intros ? [=] |].
  apply Forall_forall. intros r Hr. by left.
Qed.

End Provenance.

(** X6.  The table holds nothing but what was published.  Under every
    schedule, every row that was not in the table at start-up is the row of
    a published event whose timestamp the parser read: topic, event_id,
    source and payload are those of the event and the timestamp is the
    parsed one.  The three texts are stored as the [VARCHAR(255)] columns
    take them: unchanged when they have at most 255 characters, and cut to
    255 characters otherwise (the INSERT had raised unless what is cut off
    is spaces).  And every message on the list or with a consumer is the
    serialization of a published event. *)
Theorem rows_come_from_published_events
    (fromisoformat : string → option datetime)
    (tbl : list Row) (sched : list label) (s : System) :
  run fromisoformat sched (boot tbl) = Some s →
  (∀ r, r ∈ events s → r ∈ tbl ∨
     ∃ e d, e ∈ published sched
            ∧ fromisoformat (timestamp e) = Some d
            ∧ stored_row fromisoformat (model_dump_json e) = Some r
            ∧ r = mkRow (cut 255 (topic e)) (cut 255 (event_id e)) d
                        (Some (cut 255 (source e))) (JObj (payload e))
            ∧ ((String.length (topic e) ≤ 255)%nat →
               (String.length (event_id e) ≤ 255)%nat →
               (String.length (source e) ≤ 255)%nat →
               r = mkRow (topic e) (event_id e) d (Some (source e))
                         (JObj (payload e))))
  ∧ (∀ raw, raw ∈ event_queue s →
       ∃ e, e ∈ published sched ∧ raw = model_dump_json e)
  ∧ (∀ w event_data, w ∈ consumers s → message_of w = Some event_data →
       ∃ e, e ∈ published sched ∧ event_data = model_dump_json e).
Proof.
  intros Hrun.
  destruct (run_traceable fromisoformat tbl sched [] _ _ Hrun
              (boot_traceable fromisoformat tbl)) as (Hq & Hc & Ht).
  rewrite app_nil_l in *.
  split; [| split].
  - intros r Hr.
    destruct (proj1 (Forall_forall _ _) Ht r Hr)
      as [Hold | (e & d & He & Hd & Hs & Hfields)]; [by left | right].
    exists e, d. do 4 (split; [done |]).
    intros Ht' Hi' Hs'. by rewrite Hfields, !cut_short.
  - intros raw Hraw. by apply (proj1 (Forall_forall _ _) Hq raw Hraw).
  - intros w event_data Hw Hm.
    by apply (proj1 (Forall_forall _ _) Hc w Hw event_data Hm).
Qed.

Lemma rows_come_from_published_events_witness :
  Forall (λ r, ∃ e d, e ∈ [ev_a; ev_b]
                      ∧ isoformat_parser (timestamp e) = Some d
                      ∧ r = mkRow (topic e) (event_id e) d (Some (source e))
                                  (JObj (payload e)))
         (events two_topics_final).
Proof.
  destruct (rows_come_from_published_events isoformat_parser [] two_topics
              two_topics_final) as (Hrows & _ & _).
  - vm_compute; reflexivity.
  - apply Forall_forall. intros r Hr.
    destruct (Hrows r Hr) as [Hnil | (e & d & He & Hd & _ & _ & Hrow)].
    { by apply not_elem_of_nil in Hnil. }
    exists e, d. split; [exact He |]. split; [exact Hd |].
    apply list_elem_of_In in He.
    destruct He as [<- | [<- | []]]; apply Hrow; vm_compute; lia.
Defined.

(** X7.  The topics of [GET /stats] are the topics of the table, each
    listed once; in a process started on an empty table every listed topic
    is the topic of a published event whose timestamp the parser read (the
    topic as its column stores it: the event's, cut to 255 characters when
    it is longer), so an event that is only queued, or was given up,
    contributes no topic. *)
Theorem stats_topics
    (fromisoformat : string → option datetime)
    (sched : list label) (s : System) (uptime : Z) :
  NoDup (view_topics (get_stats uptime s))
  ∧ (∀ t, t ∈ view_topics (get_stats uptime s)
          ↔ ∃ r, r ∈ events s ∧ row_topic r = t)
  ∧ (run fromisoformat sched (boot []) = Some s →
     ∀ t, t ∈ view_topics (get_stats uptime s) →
          ∃ e, e ∈ published sched ∧ cut 255 (topic e) = t
               ∧ ((String.length (topic e) ≤ 255)%nat → topic e = t)
               ∧ is_Some (fromisoformat (timestamp e))).
Proof.
  simpl. split; [apply NoDup_remove_dups |].
  assert (∀ t, t ∈ remove_dups (row_topic <$> events s)
               ↔ ∃ r, r ∈ events s ∧ row_topic r = t) as Hmem.
  { intros t. rewrite elem_of_remove_dups, list_elem_of_fmap. split.
    - intros (r & -> & Hr). by exists r.
    - intros (r & Hr & <-). by exists r. }
  split; [exact Hmem |]. intros Hrun t Ht.
  apply Hmem in Ht as (r & Hr & <-).
  destruct (run_traceable fromisoformat [] sched [] _ _ Hrun
              (boot_traceable fromisoformat [])) as (_ & _ & Hrows).
  rewrite app_nil_l in Hrows.
  destruct (proj1 (Forall_forall _ _) Hrows r Hr)
    as [Hnil | (e & d & He & Hd & _ & ->)].
  - by apply not_elem_of_nil in Hnil.
  - exists e. split; [done |]. split; [done |].
    split; [| by exists d]. cbn [row_topic]. intros Hlen. by rewrite cut_short.
Qed.

Lemma stats_topics_witness :
  view_topics (get_stats 60 bad_only_final) = []
  ∧ ∀ t, t ∈ view_topics (get_stats 60 two_topics_final) →
         ∃ e, e ∈ published two_topics ∧ topic e = t
              ∧ is_Some (isoformat_parser (timestamp e)).
Proof.
  split; [reflexivity |].
  destruct (stats_topics isoformat_parser two_topics two_topics_final 60)
    as (_ & _ & Hpub).
  intros t Ht.
  destruct (Hpub ltac:(vm_compute; reflexivity) t Ht)
    as (e & He & _ & Hshort & Hts).
  exists e. split; [exact He |]. split; [| exact Hts].
  apply list_elem_of_In in He.
  destruct He as [<- | [<- | []]]; apply Hshort; vm_compute; lia.
Defined.

(** ** The page of [GET /events] *)

(** X8.  [GET /events] leaves a row out only to keep the page at 50: the
    page has exactly as many rows as match, or 50 when more match; with at
    most 50 matching rows it holds every one of them, each once.  What
    matches is the rows of topic T for a non-empty topic T, and all rows
    without a topic or with the empty one. *)
Theorem list_events_complete (topic : option string) (tbl : list Row) :
  (∀ T, topic = Some T → T ≠ "" →
     let matching := filter (λ r, row_topic r = T) tbl in
     length (get_events topic tbl) = (length matching `min` 50)%nat
     ∧ ((length matching ≤ 50)%nat → get_events topic tbl ≡ₚ matching))
  ∧ (topic = None ∨ topic = Some "" →
     length (get_events topic tbl) = (length tbl `min` 50)%nat
     ∧ ((length tbl ≤ 50)%nat → get_events topic tbl ≡ₚ tbl)).
Proof.
  assert (∀ selected : list Row,
            length (take 50 (merge_sort newer_first selected))
            = (length selected `min` 50)%nat
            ∧ ((length selected ≤ 50)%nat →
               take 50 (merge_sort newer_first selected) ≡ₚ selected)) as Hpage.
  { intros selected.
    pose proof (merge_sort_Permutation newer_first selected) as Hperm.
    pose proof (Permutation_length Hperm) as Hlen.
    split; [rewrite length_take; lia |].
    intros Hle. rewrite take_ge by lia. exact Hperm. }
  unfold get_events. split.
  - intros T -> HT. destruct T; [done |]. simpl. apply Hpage.
  - intros [-> | ->]; simpl; apply Hpage.
Qed.

Lemma list_events_complete_witness :
  length (get_events (Some "t") sample_table) = 2%nat
  ∧ get_events (Some "t") sample_table ≡ₚ [row_a; row_c]
  ∧ get_events None sample_table ≡ₚ sample_table.
Proof.
  destruct (list_events_complete (Some "t") sample_table) as [Htopic _].
  destruct (list_events_complete None sample_table) as [_ Hall].
  destruct (Htopic "t" eq_refl) as [Hlen Hperm]; [discriminate |].
  destruct Hall as [_ Hperm']; [by left |].
  split; [exact Hlen |]. split; [apply Hperm | apply Hperm']; simpl; lia.
Defined.

(** ** Start-up that succeeds *)

Lemma connect_first (env : nat → attempt) (k : nat) :
  ∀ fuel i st,
    (k < fuel)%nat →
    env (i + k)%nat = Connected →
    (∀ j, (j < k)%nat → env (i + j)%nat ≠ Connected) →
    connect env fuel i st
    = mkStartup (mkHandles (Some (i + k)%nat) (Some (i + k)%nat)) true
        (passes st + S k) (sleeps st ++ replicate k 2) (tasks st).
Proof.
  induction k as [|k IH]; intros fuel i st Hk Hconn Hfail;
    (destruct fuel as [|fuel]; [lia |]); simpl.
  - rewrite Nat.add_0_r in Hconn. rewrite Hconn. simpl.
    by rewrite Nat.add_0_r, Nat.add_1_r, app_nil_r.
  - pose proof (Hfail 0%nat ltac:(lia)) as H0. rewrite Nat.add_0_r in H0.
    assert (connect env (S fuel) i st
            = connect env fuel (S i)
                (mkStartup (assign i (env i) (handles st)) false
                   (S (passes st)) (sleeps st ++ [2]) (tasks st))) as Hpass
      by (simpl; by destruct (env i)).
    simpl in Hpass. rewrite Hpass.
    rewrite (IH fuel (S i)).
    + simpl. rewrite <- app_assoc. simpl.
      replace (S (i + k)) with (i + S k)%nat by lia.
      f_equal. lia.
    + lia.
    + by replace (S i + k)%nat with (i + S k)%nat by lia.
    + intros j Hj. replace (S i + j)%nat with (i + S j)%nat by lia.
      apply Hfail. lia.
Qed.

Lemma connect_ready (env : nat → attempt) :
  ∀ fuel i st,
    ready (connect env fuel i st) = true →
    ready st = false →
    ∃ k, (k < fuel)%nat ∧ env (i + k)%nat = Connected
         ∧ ∀ j, (j < k)%nat → env (i + j)%nat ≠ Connected.
Proof.
  induction fuel as [|fuel IH]; intros i st Hready Hst; simpl in Hready.
  - congruence.
  - destruct (env i) eqn:Henv.
    4: { exists 0%nat. rewrite Nat.add_0_r. split; [lia |].
         split; [done |]. intros j Hj. lia. }
    all: apply IH in Hready as (k & Hk & Hconn & Hfail); [|done];
      exists (S k); (split; [lia |]);
      replace (i + S k)%nat with (S i + k)%nat by lia; (split; [done |]);
      intros [|j] Hj;
      [rewrite Nat.add_0_r; congruence
      |replace (i + S j)%nat with (S i + j)%nat by lia; apply Hfail; lia].
Qed.

(** X9.  Start-up stops retrying at the first pass that connects: when pass
    [i] (counted from 0, below 5) is the first whose [try] block reaches
    [break], [lifespan] has made [i + 1] passes, slept two seconds after
    each of the [i] failed ones (at most 8 seconds in all), holds the pool
    and the client created in pass [i], and creates the five consumers.
    Conversely, start-up is ready only if some pass below 5 connects. *)
Theorem lifespan_first_success (env : nat → attempt) :
  (∀ i, (i < 5)%nat → env i = Connected →
        (∀ j, (j < i)%nat → env j ≠ Connected) →
        lifespan env
        = mkStartup (mkHandles (Some i) (Some i)) true (S i) (replicate i 2) 5
        ∧ foldr Z.add 0 (sleeps (lifespan env)) = 2 * Z.of_nat i
        ∧ foldr Z.add 0 (sleeps (lifespan env)) ≤ 8)
  ∧ (ready (lifespan env) = true →
     ∃ i, (i < 5)%nat ∧ env i = Connected
          ∧ db_pool (handles (lifespan env)) = Some i
          ∧ redis_client (handles (lifespan env)) = Some i).
Proof.
  assert (∀ i, (i < 5)%nat → env i = Connected →
               (∀ j, (j < i)%nat → env j ≠ Connected) →
               lifespan env
               = mkStartup (mkHandles (Some i) (Some i)) true (S i)
                   (replicate i 2) 5) as Hfirst.
  { intros i Hi Hconn Hfail. unfold lifespan.
    by rewrite (connect_first env i 5 0). }
  split.
  - intros i Hi Hconn Hfail. split; [by apply Hfirst |].
    rewrite (Hfirst i Hi Hconn Hfail). simpl.
    assert (foldr Z.add 0 (replicate i 2) = 2 * Z.of_nat i) as ->.
    { clear. induction i as [|i IH]; simpl; [done |]. rewrite IH. lia. }
    lia.
  - intros Hready. unfold lifespan in Hready. cbn [ready] in Hready.
    apply connect_ready in Hready as (k & Hk & Hconn & Hfail); [|done].
    simpl in Hconn, Hfail. exists k. split; [done |]. split; [done |].
    by rewrite (Hfirst k Hk Hconn Hfail).
Qed.

Lemma lifespan_first_success_witness :
  lifespan (λ i, if (i <? 2)%nat then PoolFails else Connected)
  = mkStartup (mkHandles (Some 2%nat) (Some 2%nat)) true 3 [2; 2] 5.
Proof.
  destruct (lifespan_first_success
              (λ i, if (i <? 2)%nat then PoolFails else Connected))
    as [Hfirst _].
  destruct (Hfirst 2%nat) as [Heq _]; [lia | reflexivity | | exact Heq].
  intros [|[|j]] Hj; [discriminate | discriminate | lia].
Defined.

(** ** Validation of request bodies *)

Lemma validate_all_dumps (es : list LogEvent) :
  mapM LogEvent_validate (model_dump_json <$> es) = Some es.
Proof.
  apply mapM_Some_2. induction es as [|e es IH]; csimpl; constructor; [|done].
  by destruct e.
Qed.

(** X11.  What [model_dump_json] writes, validation reads back: a single
    event or a batch serialized field by field validates to the very same
    event or list of events, in order, so the message a consumer decodes
    carries the validated fields unchanged; and [POST /publish] of a
    serialized batch is [publish_event] on that batch. *)
Theorem validation_round_trip (es : list LogEvent) (e : LogEvent)
    (b : broker) (s : System) :
  validate_body (model_dump_json e) = Some (Single e)
  ∧ validate_body (JArr (model_dump_json <$> es)) = Some (Batch es)
  ∧ LogEvent_validate (model_dump_json e) = Some e
  ∧ post_publish (JArr (model_dump_json <$> es)) b s
    = publish_event (Batch es) b s.
Proof.
  split; [apply validate_dump |].
  assert (validate_body (JArr (model_dump_json <$> es)) = Some (Batch es)) as Hb.
  { simpl. by rewrite validate_all_dumps. }
  split; [exact Hb |]. split; [by destruct e |].
  unfold post_publish. by rewrite Hb.
Qed.

(** X12.  No partial acceptance: a batch is accepted only if every element
    validates.  If one element of the array fails validation (a missing
    field, a field of the wrong type), the request is answered 422 and the
    state is unchanged: none of the other, valid events is queued and
    [received] is not touched.  If all validate, the handler receives them
    in the order of the array. *)
Theorem batch_all_or_nothing (items : list json) (b : broker) (s : System) :
  (Exists (λ j, LogEvent_validate j = None) items →
     post_publish (JArr items) b s
     = (s, Response 422 (JObj [("detail", JStr "validation error")])))
  ∧ (∀ es, Forall2 (λ j e, LogEvent_validate j = Some e) items es →
       post_publish (JArr items) b s = publish_event (Batch es) b s)
  ∧ (fst (post_publish (JArr items) b s) ≠ s →
     Forall (λ j, is_Some (LogEvent_validate j)) items).
Proof.
  unfold post_publish, validate_body. split; [| split].
  - intros Hbad. by rewrite (mapM_None_2 _ _ Hbad).
  - intros es Hall. by rewrite (mapM_Some_2 _ _ _ Hall).
  - destruct (mapM LogEvent_validate items) as [es|] eqn:Hm; simpl; [|done].
    intros _. apply mapM_Some_1 in Hm.
    induction Hm as [|j e items es Hj _ IH]; constructor; [by exists e | done].
Qed.

Lemma batch_all_or_nothing_witness :
  post_publish
    (JArr [model_dump_json ev_a;
           JObj [("event_id", JStr "b"); ("timestamp", JStr "2024-01-01");
                 ("source", JStr "pytest-runner"); ("payload", JObj [])];
           model_dump_json ev_c]) Up (boot [])
  = (boot [], Response 422 (JObj [("detail", JStr "validation error")])).
Proof.
  destruct (batch_all_or_nothing
              [model_dump_json ev_a;
               JObj [("event_id", JStr "b"); ("timestamp", JStr "2024-01-01");
                     ("source", JStr "pytest-runner"); ("payload", JObj [])];
               model_dump_json ev_c] Up (boot [])) as [Hbad _].
  apply Hbad. right. left. reflexivity.
Defined.

(** * Properties of the traffic generator *)

Lemma last_n_short {A : Type} (n : nat) (l : list A) :
  (length l ≤ n)%nat → last_n n l = l.
Proof.
  intros H. unfold last_n. by replace (length l - n)%nat with 0%nat by lia.
Qed.

Lemma last_n_length {A : Type} (n : nat) (l : list A) :
  length (last_n n l) = (length l `min` n)%nat.
Proof. unfold last_n. rewrite length_drop. lia. Qed.

(** Trimming before adding on the right changes nothing once the result is
    trimmed. *)
Lemma last_n_app_last_n {A : Type} (n : nat) (l more : list A) :
  last_n n (last_n n l ++ more) = last_n n (l ++ more).
Proof.
  destruct (Nat.le_gt_cases (length l) n) as [Hle | Hgt].
  - by rewrite (last_n_short n l).
  - unfold last_n at 1 3. rewrite !length_app, last_n_length.
    unfold last_n.
    replace (length l `min` n + length more - n)%nat
      with (length more) by lia.
    replace (length l + length more - n)%nat
      with ((length l - n) + length more)%nat by lia.
    rewrite <- drop_drop. f_equal. rewrite drop_app_le by lia. done.
Qed.

Lemma deque_append_last_n {A : Type} (n : nat) (x : A) (l : list A) :
  Publisher.deque_append n x (last_n n l) = last_n n (l ++ [x]).
Proof.
  unfold Publisher.deque_append.
  rewrite <- (last_n_app_last_n n l [x]). unfold last_n at 3.
  rewrite length_app, last_n_length. simpl. f_equal. lia.
Qed.

Lemma choice_elem {A : Type} (seq : list A) (n : nat) (none : A) :
  seq ≠ [] → Publisher.choice seq n none ∈ seq.
Proof.
  intros Hne. unfold Publisher.choice.
  assert (n mod length seq < length seq)%nat as Hlt.
  { apply Nat.mod_upper_bound. by destruct seq. }
  destruct (lookup_lt_is_Some_2 seq _ Hlt) as [x Hx].
  rewrite Hx. simpl. by eapply list_elem_of_lookup_2.
Qed.

Lemma new_events_cons (p : json * bool) (posted : list (json * bool)) :
  new_events (p :: posted)
  = (if snd p then [] else [fst p]) ++ new_events posted.
Proof.
  unfold new_events. rewrite filter_cons. by destruct p as [e [|]].
Qed.

(** The history after a pass, and what a pass posts. *)
Lemma pass_history (t : Publisher.Tick) (seen : list json) :
  let '(p, history) := Publisher.pass t (last_n 50 seen) in
  history = last_n 50 (seen ++ new_events [p])
  ∧ (snd p = true → fst p ∈ last_n 50 seen)
  ∧ (snd p = false → fst p = Publisher.generate_new_event (Publisher.draws t)).
Proof.
  unfold Publisher.pass.
  destruct (last_n 50 seen) as [|x h] eqn:Hh;
    [|destruct (Publisher.below_threshold t)]; simpl.
  - split; [| by split].
    by rewrite <- Hh, deque_append_last_n.
  - split; [| split; [|done]].
    + change (new_events [_]) with (@nil json). by rewrite app_nil_r.
    + intros _. by apply choice_elem.
  - split; [| by split].
    by rewrite <- Hh, deque_append_last_n.
Qed.

Lemma main_history (ticks : list Publisher.Tick) (seen : list json) :
  snd (Publisher.main ticks (last_n 50 seen))
  = last_n 50 (seen ++ new_events (fst (Publisher.main ticks (last_n 50 seen)))).
Proof.
  revert seen. induction ticks as [|t rest IH]; intros seen; simpl.
  - unfold new_events. simpl. by rewrite app_nil_r.
  - pose proof (pass_history t seen) as Hpass.
    destruct (Publisher.pass t (last_n 50 seen)) as [p history].
    destruct Hpass as (-> & _ & _). specialize (IH (seen ++ new_events [p])).
    destruct (Publisher.main rest (last_n 50 (seen ++ new_events [p])))
      as [more final]. simpl in *.
    rewrite IH, new_events_cons, <- app_assoc. f_equal. f_equal.
    unfold new_events. by destruct p as [e [|]].
Qed.

(** X13.  The history of the publisher is a sliding window: after any
    number of passes [sent_events_history] holds the new events generated
    so far, oldest first, cut to the 50 most recent, so it never holds more
    than 50 events, never a re-sent event twice over, and a new event
    leaves it exactly when 50 newer ones have been generated. *)
Theorem history_is_recent_window (ticks : list Publisher.Tick) :
  let posted := fst (Publisher.main ticks []) in
  let history := snd (Publisher.main ticks []) in
  history = last_n 50 (new_events posted)
  ∧ (length history ≤ 50)%nat
  ∧ length history = (length (new_events posted) `min` 50)%nat.
Proof.
  intros posted history. subst posted history.
  pose proof (main_history ticks []) as H. simpl in H.
  change (last_n 50 []) with (@nil json) in H.
  split; [exact H |]. rewrite H, last_n_length. lia.
Qed.

(** X14.  A re-sent event is a verbatim copy of a recent new one: every
    event the publisher posts as a duplicate is one of the at most 50 most
    recent new events generated before it, so some earlier pass posted
    exactly this event as new; the first pass never posts a duplicate. *)
Theorem duplicates_repeat_recent_events
    (ticks : list Publisher.Tick) (i : nat) (event_data : json) :
  fst (Publisher.main ticks []) !! i = Some (event_data, true) →
  event_data ∈ last_n 50 (new_events (take i (fst (Publisher.main ticks []))))
  ∧ (∃ j, (j < i)%nat
          ∧ fst (Publisher.main ticks []) !! j = Some (event_data, false)).
Proof.
  assert (∀ ticks seen i,
            fst (Publisher.main ticks (last_n 50 seen)) !! i
              = Some (event_data, true) →
            event_data
              ∈ last_n 50 (seen ++ new_events
                     (take i (fst (Publisher.main ticks (last_n 50 seen))))))
    as Hgen.
  { clear. induction ticks as [|t rest IH]; intros seen i Hi; simpl in *.
    - done.
    - pose proof (pass_history t seen) as Hpass.
      destruct (Publisher.pass t (last_n 50 seen)) as [p history].
      destruct Hpass as (-> & Hdup & _).
      specialize (IH (seen ++ new_events [p])).
      destruct (Publisher.main rest (last_n 50 (seen ++ new_events [p])))
        as [more final]. simpl in *.
      destruct i as [|i]; simpl in *.
      + injection Hi as ->. unfold new_events. simpl. rewrite app_nil_r.
        by apply Hdup.
      + specialize (IH i Hi). rewrite new_events_cons, app_assoc.
        revert IH. unfold new_events. by destruct p as [e [|]]. }
  intros Hi. pose proof (Hgen ticks [] i) as Hin.
  change (last_n 50 []) with (@nil json) in Hin. simpl in Hin.
  specialize (Hin Hi). split; [exact Hin |].
  apply subseteq_drop in Hin. unfold new_events in Hin.
  apply list_elem_of_fmap in Hin as ([e flag] & -> & Hp).
  apply list_elem_of_filter in Hp as [Hflag Hp]. simpl in Hflag. subst flag.
  apply list_elem_of_lookup in Hp as [j Hj].
  apply lookup_take_Some in Hj as [Hj Hlt]. by exists j.
Qed.

Lemma duplicates_repeat_recent_events_witness :
  ∃ j, (j < 1)%nat
       ∧ fst (Publisher.main
                [Publisher.mkTick true 0 (Publisher.mkDraw 0 "u-1" "2024-01-01T00:00:00+00:00" 0 0 0);
                 Publisher.mkTick true 7 (Publisher.mkDraw 1 "u-2" "2024-01-01T00:00:01+00:00" 1 5 9)]
                []) !! j
         = Some (Publisher.generate_new_event
                   (Publisher.mkDraw 0 "u-1" "2024-01-01T00:00:00+00:00" 0 0 0), false).
Proof.
  destruct (duplicates_repeat_recent_events
              [Publisher.mkTick true 0 (Publisher.mkDraw 0 "u-1" "2024-01-01T00:00:00+00:00" 0 0 0);
               Publisher.mkTick true 7 (Publisher.mkDraw 1 "u-2" "2024-01-01T00:00:01+00:00" 1 5 9)]
              1%nat
              (Publisher.generate_new_event
                 (Publisher.mkDraw 0 "u-1" "2024-01-01T00:00:00+00:00" 0 0 0)))
    as [_ Hearlier].
  - reflexivity.
  - exact Hearlier.
Defined.

Lemma randint_range (a b : Z) (n : nat) :
  a ≤ b → a ≤ Publisher.randint a b n ≤ b.
Proof.
  intros Hab. unfold Publisher.randint.
  pose proof (Z.mod_pos_bound (Z.of_nat n) (b - a + 1)). lia.
Qed.

Lemma generate_new_event_well_made (d : Publisher.Draw) :
  well_made (Publisher.generate_new_event d).
Proof.
  eexists _, _, _. split; [reflexivity |]. simpl.
  split; [by apply choice_elem |]. split; [by apply choice_elem |].
  split; [reflexivity |]. split; [by apply randint_range |].
  split; [reflexivity |]. split; [by apply randint_range | reflexivity].
Qed.

Lemma deque_append_Forall {A : Type} (P : A → Prop) (n : nat) (x : A) (d : list A) :
  P x → Forall P d → Forall P (Publisher.deque_append n x d).
Proof.
  intros Hx Hd. unfold Publisher.deque_append. apply Forall_drop, Forall_app.
  split; [done | by constructor].
Qed.

Lemma main_well_made (ticks : list Publisher.Tick) (history : list json) :
  Forall well_made history →
  Forall (λ p, well_made (fst p)) (fst (Publisher.main ticks history))
  ∧ Forall well_made (snd (Publisher.main ticks history)).
Proof.
  revert history. induction ticks as [|t rest IH]; intros history Hh; simpl.
  - by split.
  - assert (well_made (fst (fst (Publisher.pass t history)))
            ∧ Forall well_made (snd (Publisher.pass t history))) as [Hp Hh'].
    { unfold Publisher.pass.
      destruct history as [|x h]; [|destruct (Publisher.below_threshold t)];
        simpl.
      - split; [apply generate_new_event_well_made |].
        apply deque_append_Forall; [apply generate_new_event_well_made | done].
      - split; [|done]. rewrite Forall_forall in Hh. by apply Hh, choice_elem.
      - split; [apply generate_new_event_well_made |].
        apply deque_append_Forall; [apply generate_new_event_well_made | done]. }
    destruct (Publisher.pass t history) as [p history']. simpl in Hp, Hh'.
    destruct (IH history' Hh') as [Hposted Hfinal].
    destruct (Publisher.main rest history') as [more final]. simpl in *.
    split; [by constructor | done].
Qed.

(** X15.  The publisher never posts a body the aggregator rejects: whatever
    the random draws, the identifiers and the clock readings, every body
    posted by the loop, new or re-sent, passes the validation of
    [POST /publish] as a single event whose topic and source are among the
    publisher's four, with [cpu_usage] from 10 to 90, [memory] from 100 to
    1024 and status "active"; with the broker reachable it is answered 200
    and counted. *)
Theorem publisher_events_are_accepted
    (ticks : list Publisher.Tick) (i : nat) (event_data : json) (flag : bool)
    (s : System) :
  fst (Publisher.main ticks []) !! i = Some (event_data, flag) →
  well_made event_data
  ∧ snd (post_publish event_data Up s)
    = Response 200 (JObj [("status", JStr "queued"); ("count", JNum 1)])
  ∧ received (stats (fst (post_publish event_data Up s)))
    = received (stats s) + 1.
Proof.
  intros Hi.
  destruct (main_well_made ticks []) as [Hposted _]; [constructor |].
  rewrite Forall_forall in Hposted.
  assert (well_made event_data) as Hwell.
  { apply (Hposted (event_data, flag)). by eapply list_elem_of_lookup_2. }
  split; [exact Hwell |].
  destruct Hwell as (e & cpu & memory & Hvalid & _).
  unfold post_publish. rewrite Hvalid. unfold publish_event.
  rewrite publish_enqueue_up. done.
Qed.

Lemma publisher_events_are_accepted_witness :
  well_made (Publisher.generate_new_event
               (Publisher.mkDraw 6 "u-1" "2024-01-01T00:00:00+00:00" 3 200 5000)).
Proof.
  destruct (publisher_events_are_accepted
              [Publisher.mkTick false 0
                 (Publisher.mkDraw 6 "u-1" "2024-01-01T00:00:00+00:00" 3 200 5000)]
              0%nat
              (Publisher.generate_new_event
                 (Publisher.mkDraw 6 "u-1" "2024-01-01T00:00:00+00:00" 3 200 5000))
              false (boot [])) as [Hwell _].
  - reflexivity.
  - exact Hwell.
Defined.

(** * Timestamps written and read *)

#[local] Arguments pad : simpl never.
#[local] Arguments days_in_month : simpl never.

(** The characters [pad] writes are decimal digits. *)
Lemma digit_val_char (k : Z) :
  0 ≤ k < 10 → digit_val (ascii_of_nat (48 + Z.to_nat k)) = Some k.
Proof.
  intros Hk.
  assert (k = 0 ∨ k = 1 ∨ k = 2 ∨ k = 3 ∨ k = 4 ∨ k = 5 ∨ k = 6 ∨ k = 7
          ∨ k = 8 ∨ k = 9) as Hcases by lia.
  repeat (destruct Hcases as [-> | Hcases]; [reflexivity |]).
  by subst.
Qed.

Lemma digit_char_plain (k : Z) :
  0 ≤ k < 10 →
  let c := ascii_of_nat (48 + Z.to_nat k) in
  is_digit c = true ∧ Ascii.eqb c "W" = false
  ∧ Ascii.eqb c "Z" || Ascii.eqb c "+" || Ascii.eqb c "-" = false.
Proof.
  intros Hk.
  assert (k = 0 ∨ k = 1 ∨ k = 2 ∨ k = 3 ∨ k = 4 ∨ k = 5 ∨ k = 6 ∨ k = 7
          ∨ k = 8 ∨ k = 9) as Hcases by lia.
  repeat (destruct Hcases as [-> | Hcases]; [by repeat split |]).
  subst. by repeat split.
Qed.

Lemma pad_S (n : nat) (v : Z) :
  pad (S n) v
  = String (ascii_of_nat (48 + Z.to_nat (v / 10 ^ Z.of_nat n)))
           (pad n (v mod 10 ^ Z.of_nat n)).
Proof. reflexivity. Qed.

Lemma pad_head_bound (n : nat) (v : Z) :
  0 ≤ v < 10 ^ Z.of_nat (S n) →
  0 ≤ v / 10 ^ Z.of_nat n < 10 ∧ 0 ≤ v mod 10 ^ Z.of_nat n < 10 ^ Z.of_nat n.
Proof.
  rewrite Nat2Z.inj_succ, Z.pow_succ_r by lia. intros Hv.
  assert (0 < 10 ^ Z.of_nat n) as Hpow by (apply Z.pow_pos_nonneg; lia).
  split; [| apply Z.mod_pos_bound; lia].
  split; [apply Z.div_pos; lia | apply Z.div_lt_upper_bound; lia].
Qed.

Lemma append_String (c : ascii) (s t : string) :
  String c s +:+ t = String c (s +:+ t).
Proof. reflexivity. Qed.

Lemma length_pad (n : nat) (v : Z) : String.length (pad n v) = n.
Proof.
  revert v. induction n as [|n IH]; intros v; [done |].
  rewrite pad_S. simpl. by rewrite IH.
Qed.

Lemma length_append (s t : string) :
  String.length (s +:+ t) = (String.length s + String.length t)%nat.
Proof. induction s as [|c s IH]; simpl; [done | by rewrite IH]. Qed.

Lemma skip_pad (n : nat) (v : Z) (rest : string) :
  skip n (pad n v +:+ rest) = rest.
Proof.
  revert v. induction n as [|n IH]; intros v; [done |].
  rewrite pad_S, append_String. simpl. apply IH.
Qed.

(** Reading back [n] padded digits. *)
Lemma read_pad (n : nat) :
  ∀ (v acc : Z) (rest : string),
    0 ≤ v < 10 ^ Z.of_nat n →
    read_digits n acc (pad n v +:+ rest)
    = Some (acc * 10 ^ Z.of_nat n + v, rest).
Proof.
  induction n as [|n IH]; intros v acc rest Hv.
  - simpl in *. f_equal. f_equal. lia.
  - destruct (pad_head_bound n v Hv) as [Hhead Htail].
    rewrite Nat2Z.inj_succ, Z.pow_succ_r in * by lia.
    assert (0 < 10 ^ Z.of_nat n) as Hpow by (apply Z.pow_pos_nonneg; lia).
    rewrite pad_S, append_String.
    cbn [read_digits]. rewrite digit_val_char by done.
    cbn [mbind option_bind]. rewrite IH by done.
    f_equal. f_equal.
    pose proof (Z.div_mod v (10 ^ Z.of_nat n) ltac:(lia)). lia.
Qed.

Lemma read_pad_0 (n : nat) (v : Z) (rest : string) :
  0 ≤ v < 10 ^ Z.of_nat n →
  read_digits n 0 (pad n v +:+ rest) = Some (v, rest).
Proof. intros Hv. rewrite read_pad by done. f_equal. Qed.

Lemma peek_pad (n : nat) (v : Z) (rest : string) :
  0 ≤ v < 10 ^ Z.of_nat (S n) →
  is_digit (peek (pad (S n) v +:+ rest)) = true
  ∧ Ascii.eqb (peek (pad (S n) v +:+ rest)) "W" = false.
Proof.
  intros Hv. destruct (pad_head_bound n v Hv) as [Hhead _].
  rewrite pad_S, append_String. cbn [peek].
  destruct (digit_char_plain _ Hhead) as (Hd & HW & _). by split.
Qed.

(** The search for the offset passes over padded digits. *)
Lemma find_tzinfo_pad (n : nat) :
  ∀ (v : Z) (fuel : nat) (rest : string) (i len : nat),
    0 ≤ v < 10 ^ Z.of_nat n →
    (i + n < len)%nat →
    find_tzinfo (n + fuel) (pad n v +:+ rest) i len
    = find_tzinfo fuel rest (i + n) len.
Proof.
  induction n as [|n IH]; intros v fuel rest i len Hv Hlen.
  - by rewrite Nat.add_0_r.
  - destruct (pad_head_bound n v Hv) as [Hhead Htail].
    destruct (digit_char_plain _ Hhead) as (_ & _ & Htz).
    rewrite pad_S, append_String.
    change (S n + fuel)%nat with (S (n + fuel)).
    cbn [find_tzinfo peek advance]. rewrite Htz.
    assert ((S i <? len)%nat = true) as -> by (apply Nat.ltb_lt; lia).
    rewrite IH by (done || lia). f_equal. lia.
Qed.

(** It stops at the end of a text that ends in padded digits. *)
Lemma find_tzinfo_pad_end (n : nat) :
  ∀ (v : Z) (fuel : nat) (i : nat),
    0 ≤ v < 10 ^ Z.of_nat (S n) →
    find_tzinfo (n + fuel) (pad (S n) v) i (i + S n) = (i + S n)%nat.
Proof.
  induction n as [|n IH]; intros v fuel i Hv.
  - destruct (pad_head_bound 0 v Hv) as [Hhead _].
    destruct (digit_char_plain _ Hhead) as (_ & _ & Htz).
    rewrite pad_S. change (0 + fuel)%nat with fuel.
    destruct fuel; cbn [find_tzinfo peek]; rewrite Htz.
    + lia.
    + assert ((S i <? i + 1)%nat = false) as -> by (apply Nat.ltb_ge; lia).
      lia.
  - destruct (pad_head_bound (S n) v Hv) as [Hhead Htail].
    destruct (digit_char_plain _ Hhead) as (_ & _ & Htz).
    rewrite pad_S. change (S n + fuel)%nat with (S (n + fuel)).
    cbn [find_tzinfo peek advance]. rewrite Htz.
    assert ((S i <? i + S (S n))%nat = true) as -> by (apply Nat.ltb_lt; lia).
    replace (i + S (S n))%nat with (S i + S n)%nat by lia.
    by rewrite IH.
Qed.

Lemma days_in_month_bound (y m : Z) : days_in_month y m ≤ 31.
Proof.
  unfold days_in_month.
  destruct (m =? 2); [destruct (is_leap y); lia |].
  destruct ((m =? 4) || (m =? 6) || (m =? 9) || (m =? 11)); lia.
Qed.

(** The search passes over a character that opens no offset. *)
Lemma find_tzinfo_char (c : ascii) (fuel : nat) (rest : string) (i len : nat) :
  Ascii.eqb c "Z" || Ascii.eqb c "+" || Ascii.eqb c "-" = false →
  (S i < len)%nat →
  find_tzinfo (S fuel) (String c rest) i len = find_tzinfo fuel rest (S i) len.
Proof.
  intros Hc Hlen. cbn [find_tzinfo peek advance]. rewrite Hc.
  by assert ((S i <? len)%nat = true) as -> by (apply Nat.ltb_lt; lia).
Qed.

(** One component of HH:MM:SS followed by a colon, by the end of the time,
    or by the fraction. *)
Lemma parse_hh_mm_ss_colon (todo : nat) (hs : option bool) (v : Z)
    (rest : string) (room : Z) (vals : list Z) :
  0 ≤ v < 100 → default true hs = true → 3 < room →
  parse_hh_mm_ss (S todo) hs (pad 2 v +:+ ":" +:+ rest) room vals
  = parse_hh_mm_ss todo (Some true) rest (room - 3) (vals ++ [v]).
Proof.
  intros Hv Hhs Hroom. cbn [parse_hh_mm_ss].
  rewrite (read_pad_0 2) by (change (10 ^ Z.of_nat 2) with 100; lia).
  cbn [mbind option_bind].
  change (":" +:+ rest) with (String ":" rest). cbn [peek advance].
  assert (default (Ascii.eqb ":" ":") hs = true) as ->
    by by destruct hs as [[]|].
  destruct (Z.leb_spec (room - 3) 0); [lia |]. reflexivity.
Qed.

Lemma parse_hh_mm_ss_end (todo : nat) (hs : option bool) (v : Z)
    (rest : string) (room : Z) (vals : list Z) :
  0 ≤ v < 100 → room ≤ 3 →
  parse_hh_mm_ss (S todo) hs (pad 2 v +:+ rest) room vals
  = Some (vals ++ [v], 0, negb (Ascii.eqb (peek rest) "000")).
Proof.
  intros Hv Hroom. cbn [parse_hh_mm_ss].
  rewrite (read_pad_0 2) by (change (10 ^ Z.of_nat 2) with 100; lia).
  cbn [mbind option_bind].
  destruct (Z.leb_spec (room - 3) 0); [done | lia].
Qed.

Lemma parse_ff_pad (us : Z) (rest : string) (room : Z) :
  0 ≤ us < 1000000 → 6 ≤ room →
  parse_ff (pad 6 us +:+ rest) room
  = Some (us, negb (Ascii.eqb (peek (skip_digits rest)) "000")).
Proof.
  intros Hus Hroom. unfold parse_ff.
  replace (Z.min 6 room) with 6 by lia.
  change (Z.to_nat 6) with 6%nat.
  rewrite (read_pad_0 6) by (change (10 ^ Z.of_nat 6) with 1000000; lia).
  cbn [mbind option_bind]. change (10 ^ (6 - Z.of_nat 6)) with 1.
  by rewrite Z.mul_1_r.
Qed.

Lemma parse_hh_mm_ss_dot (todo : nat) (v us : Z) (rest : string) (room : Z)
    (vals : list Z) :
  0 ≤ v < 100 → 0 ≤ us < 1000000 → 9 ≤ room →
  parse_hh_mm_ss (S todo) (Some true) (pad 2 v +:+ "." +:+ pad 6 us +:+ rest)
    room vals
  = Some (vals ++ [v], us, negb (Ascii.eqb (peek (skip_digits rest)) "000")).
Proof.
  intros Hv Hus Hroom. cbn [parse_hh_mm_ss].
  rewrite (read_pad_0 2) by (change (10 ^ Z.of_nat 2) with 100; lia).
  cbn [mbind option_bind].
  change ("." +:+ ?r) with (String "." r). cbn [peek advance default].
  destruct (Z.leb_spec (room - 3) 0); [lia |].
  change (true && Ascii.eqb "." ":") with false.
  change (Ascii.eqb "." "." || Ascii.eqb "." ",") with true. cbv iota.
  rewrite parse_ff_pad by lia. reflexivity.
Qed.

Lemma find_tzinfo_lit (c : ascii) (fuel : nat) (rest : string) (i len : nat) :
  Ascii.eqb c "Z" || Ascii.eqb c "+" || Ascii.eqb c "-" = false →
  (S i < len)%nat →
  find_tzinfo (S fuel) (String c EmptyString +:+ rest) i len
  = find_tzinfo fuel rest (S i) len.
Proof. apply find_tzinfo_char. Qed.

Lemma skip_lit (c : ascii) (rest : string) :
  skip 1 (String c EmptyString +:+ rest) = rest.
Proof. reflexivity. Qed.

Lemma append_lit_assoc (c : ascii) (s t : string) :
  (String c EmptyString +:+ s) +:+ t = String c EmptyString +:+ (s +:+ t).
Proof. reflexivity. Qed.

Lemma append_nil_r (t : string) : t +:+ "" = t.
Proof. induction t as [|c t IH]; [done | by rewrite append_String, IH]. Qed.

Lemma skip_add (n m : nat) (p : string) : skip (n + m) p = skip m (skip n p).
Proof.
  revert p. induction n as [|n IH]; intros p; [done |]. simpl. apply IH.
Qed.

(** The time of day as [isoformat] writes it, read back. *)
Lemma parse_time_isoformat (h mi sec us : Z) (utc : bool) :
  0 ≤ h < 24 → 0 ≤ mi < 60 → 0 ≤ sec < 60 → 0 ≤ us < 1000000 →
  parse_isoformat_time
    (pad 2 h +:+ ":" +:+ pad 2 mi +:+ ":" +:+ pad 2 sec
     +:+ (if us =? 0 then "" else "." +:+ pad 6 us)
     +:+ (if utc then "+00:00" else ""))
    (8 + (if us =? 0 then 0 else 7) + (if utc then 6 else 0))
  = Some ([h; mi; sec], us, if utc then Some (0, 0) else None).
Proof.
  intros Hh Hmi Hsec Hus. unfold parse_isoformat_time, parse_hh_mm_ss_ff.
  assert (10 ^ Z.of_nat 2 = 100) as H100 by reflexivity.
  assert (10 ^ Z.of_nat 6 = 1000000) as H106 by reflexivity.
  destruct (us =? 0) eqn:Hzero; [apply Z.eqb_eq in Hzero as -> |];
    destruct utc; cbn [Nat.add].
  - (* HH:MM:SS+00:00 *)
    change ("" +:+ "+00:00") with "+00:00".
    assert (find_tzinfo 14
              (pad 2 h +:+ ":" +:+ pad 2 mi +:+ ":" +:+ pad 2 sec +:+ "+00:00")
              0 14 = 8%nat) as ->.
    { rewrite (find_tzinfo_pad 2 h 12) by lia.
      rewrite find_tzinfo_lit by (reflexivity || lia).
      rewrite (find_tzinfo_pad 2 mi 9) by lia.
      rewrite find_tzinfo_lit by (reflexivity || lia).
      rewrite (find_tzinfo_pad 2 sec 6) by lia. reflexivity. }
    rewrite !parse_hh_mm_ss_colon by (done || lia).
    rewrite parse_hh_mm_ss_end by lia.
    rewrite (skip_add 2 6), skip_pad, (skip_add 1 5), skip_lit.
    rewrite (skip_add 2 3), skip_pad, (skip_add 1 2), skip_lit, skip_pad.
    reflexivity.
  - (* HH:MM:SS *)
    change ("" +:+ "") with "". rewrite (append_nil_r (pad 2 sec)).
    assert (find_tzinfo 8 (pad 2 h +:+ ":" +:+ pad 2 mi +:+ ":" +:+ pad 2 sec)
              0 8 = 8%nat) as ->.
    { rewrite (find_tzinfo_pad 2 h 6) by lia.
      rewrite find_tzinfo_lit by (reflexivity || lia).
      rewrite (find_tzinfo_pad 2 mi 3) by lia.
      rewrite find_tzinfo_lit by (reflexivity || lia).
      change (find_tzinfo 2 (pad 2 sec) _ 8)
        with (find_tzinfo (1 + 1) (pad 2 sec) 6 (6 + 2)).
      by rewrite (find_tzinfo_pad_end 1 sec 1 6) by lia. }
    rewrite !parse_hh_mm_ss_colon by (done || lia).
    rewrite <- (append_nil_r (pad 2 sec)).
    rewrite parse_hh_mm_ss_end by lia. reflexivity.
  - (* HH:MM:SS.ffffff+00:00 *)
    rewrite append_lit_assoc.
    assert (find_tzinfo 21
              (pad 2 h +:+ ":" +:+ pad 2 mi +:+ ":" +:+ pad 2 sec
               +:+ "." +:+ pad 6 us +:+ "+00:00") 0 21 = 15%nat) as ->.
    { rewrite (find_tzinfo_pad 2 h 19) by lia.
      rewrite find_tzinfo_lit by (reflexivity || lia).
      rewrite (find_tzinfo_pad 2 mi 16) by lia.
      rewrite find_tzinfo_lit by (reflexivity || lia).
      rewrite (find_tzinfo_pad 2 sec 13) by lia.
      rewrite find_tzinfo_lit by (reflexivity || lia).
      rewrite (find_tzinfo_pad 6 us 6) by lia. reflexivity. }
    rewrite !parse_hh_mm_ss_colon by (done || lia).
    rewrite parse_hh_mm_ss_dot by lia.
    rewrite (skip_add 2 13), skip_pad, (skip_add 1 12), skip_lit.
    rewrite (skip_add 2 10), skip_pad, (skip_add 1 9), skip_lit.
    rewrite (skip_add 2 7), skip_pad, (skip_add 1 6), skip_lit, skip_pad.
    reflexivity.
  - (* HH:MM:SS.ffffff *)
    rewrite (append_nil_r ("." +:+ pad 6 us)).
    assert (find_tzinfo 15
              (pad 2 h +:+ ":" +:+ pad 2 mi +:+ ":" +:+ pad 2 sec
               +:+ "." +:+ pad 6 us) 0 15 = 15%nat) as ->.
    { rewrite (find_tzinfo_pad 2 h 13) by lia.
      rewrite find_tzinfo_lit by (reflexivity || lia).
      rewrite (find_tzinfo_pad 2 mi 10) by lia.
      rewrite find_tzinfo_lit by (reflexivity || lia).
      rewrite (find_tzinfo_pad 2 sec 7) by lia.
      rewrite find_tzinfo_lit by (reflexivity || lia).
      change (find_tzinfo 6 (pad 6 us) _ 15)
        with (find_tzinfo (5 + 1) (pad 6 us) 9 (9 + 6)).
      by rewrite (find_tzinfo_pad_end 5 us 1 9) by lia. }
    rewrite !parse_hh_mm_ss_colon by (done || lia).
    rewrite <- (append_nil_r (pad 6 us)).
    rewrite parse_hh_mm_ss_dot by lia. reflexivity.
Qed.

Lemma expect_lit (c : ascii) (t : string) :
  expect c (String c EmptyString +:+ t) = Some t.
Proof.
  change (String c EmptyString +:+ t) with (String c t).
  unfold expect. by rewrite Ascii.eqb_refl.
Qed.

Lemma peek_lit (c : ascii) (t : string) : peek (String c EmptyString +:+ t) = c.
Proof. reflexivity. Qed.

Lemma advance_lit (c : ascii) (t : string) :
  advance (String c EmptyString +:+ t) = t.
Proof. reflexivity. Qed.

(** Reading back what [isoformat] wrote. *)
Lemma isoformat_parser_isoformat (d : datetime) (utc : bool) :
  calendar d → isoformat_parser (isoformat d utc) = Some d.
Proof.
  destruct d as [y mo dd h mi sec us].
  intros (Hy & Hmo & Hdd & Hh & Hmi & Hsec & Hus).
  cbn [dt_year dt_month dt_day dt_hour dt_minute dt_second dt_microsecond]
    in *.
  pose proof (days_in_month_bound y mo) as Hdim.
  assert (10 ^ Z.of_nat 2 = 100) as H100 by reflexivity.
  assert (10 ^ Z.of_nat 4 = 10000) as H104 by reflexivity.
  pose proof (parse_time_isoformat h mi sec us utc Hh Hmi Hsec Hus) as Htime.
  unfold isoformat_parser, isoformat.
  cbn [dt_year dt_month dt_day dt_hour dt_minute dt_second dt_microsecond].
  set (time := pad 2 h +:+ ":" +:+ pad 2 mi +:+ ":" +:+ pad 2 sec
               +:+ (if us =? 0 then "" else "." +:+ pad 6 us)
               +:+ (if utc then "+00:00" else "")) in *.
  set (n := (8 + (if (us =? 0)%Z then 0 else 7) + (if utc then 6 else 0))%nat)
    in *.
  assert (String.length time = n) as Hlen.
  { subst time n. rewrite !length_append, !length_pad.
    destruct (us =? 0), utc;
      rewrite ?length_append, ?length_pad; reflexivity. }
  clearbody time n.
  assert (String.length
            (pad 4 y +:+ "-" +:+ pad 2 mo +:+ "-" +:+ pad 2 dd +:+ "T" +:+ time)
          = (11 + n)%nat) as ->.
  { rewrite !length_append, !length_pad, Hlen. reflexivity. }
  assert ((11 + n <? 7)%nat = false) as -> by (apply Nat.ltb_ge; lia).
  (* the separator *)
  assert (find_isoformat_datetime_separator
            (pad 4 y +:+ "-" +:+ pad 2 mo +:+ "-" +:+ pad 2 dd +:+ "T" +:+ time)
            (11 + n) = Some 10%nat) as ->.
  { unfold find_isoformat_datetime_separator.
    assert ((11 + n =? 7)%nat = false) as -> by (apply Nat.eqb_neq; lia).
    rewrite skip_pad. cbn [peek String.append]. cbv iota.
    rewrite (skip_add 4 1), skip_pad, skip_lit.
    destruct (peek_pad 1 mo ("-" +:+ pad 2 dd +:+ "T" +:+ time)) as [_ ->];
      [lia |].
    reflexivity. }
  cbn [mbind option_bind].
  (* the date *)
  assert (parse_isoformat_date
            (pad 4 y +:+ "-" +:+ pad 2 mo +:+ "-" +:+ pad 2 dd +:+ "T" +:+ time)
            10 = Some (y, mo, dd)) as ->.
  { unfold parse_isoformat_date.
    rewrite (read_pad_0 4) by lia. cbn [mbind option_bind].
    rewrite !peek_lit, !advance_lit.
    change (Ascii.eqb "-" "-") with true. cbv iota.
    destruct (peek_pad 1 mo ("-" +:+ pad 2 dd +:+ "T" +:+ time)) as [_ ->];
      [lia |].
    rewrite (read_pad_0 2) by lia. cbn [mbind option_bind].
    rewrite expect_lit. cbn [mbind option_bind].
    rewrite (read_pad_0 2) by lia. reflexivity. }
  cbn [mbind option_bind].
  (* the time *)
  assert ((10 <? 11 + n)%nat = true) as -> by (apply Nat.ltb_lt; lia).
  rewrite (skip_add 4 7), skip_pad, (skip_add 1 6), skip_lit.
  rewrite (skip_add 2 4), skip_pad, (skip_add 1 3), skip_lit.
  rewrite (skip_add 2 1), skip_pad, skip_lit.
  replace (11 + n - 10 - 1)%nat with n by lia.
  rewrite Htime. cbn [mbind option_bind nth].
  assert (timezone_ok (if utc then Some (0, 0) else None) = true) as ->
    by by destruct utc.
  assert ((1 <=? y) && (y <=? 9999) && (1 <=? mo) && (mo <=? 12)
          && (1 <=? dd) && (dd <=? days_in_month y mo)
          && (h <? 24) && (mi <? 60) && (sec <? 60) = true) as Hrange.
  { repeat (apply andb_true_intro; split);
      (apply Z.leb_le || apply Z.ltb_lt); lia. }
  cbn [andb]. by rewrite Hrange.
Qed.

(** X16.  Every timestamp the publisher or the tests write is read back by
    the consumer: for every date-time a Python [datetime] can hold, with or
    without microseconds, in UTC ([+00:00]) or naive, the parser accepts
    [isoformat()] of it and returns the same calendar fields, the offset
    dropped; so for the message of an event carrying such a timestamp the
    consumer computes the arguments of the INSERT, with that date-time in
    the timestamp column, and the event is not given up for its
    timestamp. *)
Theorem isoformat_round_trip (d : datetime) (utc : bool) (e : LogEvent) :
  calendar d →
  isoformat_parser (isoformat d utc) = Some d
  ∧ (timestamp e = isoformat d utc →
     insert_args isoformat_parser (model_dump_json e)
     = Some (mkRow (topic e) (event_id e) d (Some (source e))
               (JObj (payload e)))).
Proof.
  intros Hd. split; [by apply isoformat_parser_isoformat |].
  intros Hts. rewrite insert_args_dump, Hts.
  by rewrite isoformat_parser_isoformat.
Qed.

Lemma isoformat_round_trip_witness :
  isoformat (mkDatetime 2024 2 29 23 59 59 250000) true
  = "2024-02-29T23:59:59.250000+00:00"
  ∧ isoformat_parser "2024-02-29T23:59:59.250000+00:00"
    = Some (mkDatetime 2024 2 29 23 59 59 250000)
  ∧ insert_args isoformat_parser
      (model_dump_json
         (sample_event "test.integration" "a"
                       "2024-02-29T23:59:59.250000+00:00"))
    = Some (mkRow "test.integration" "a"
              (mkDatetime 2024 2 29 23 59 59 250000) (Some "pytest-runner")
              (JObj [("status", JStr "ok"); ("value", JNum 123)])).
Proof.
  split; [vm_compute; reflexivity |].
  destruct (isoformat_round_trip (mkDatetime 2024 2 29 23 59 59 250000) true
              (sample_event "test.integration" "a"
                            "2024-02-29T23:59:59.250000+00:00"))
    as [Hread Hrow].
  - repeat split; vm_compute; congruence.
  - split; [exact Hread | apply Hrow; vm_compute; reflexivity].
Defined.
